(** * checkBSDF: classification, Lambertian summary and Helmholtz
      reciprocity check of a loaded BSDF (src/cv/checkBSDF.c)

    The functions of checkBSDF.c are embedded as Rocq functions:
    [getBSDFtype], [detailComponent] and [checkReciprocity], and their
    callers [checkXML] and [main].  C [double]
    and [float] values are IEEE-754 binary64 and binary32 numbers, given
    by the executable specification of [SpecFloat], and every operation
    is rounded to the format of its C type; what the functions print and
    which library routines they call is returned as a list of events.
    The exact value of a double is a rational number.

    The headers of the BSDF library (bsdf.h, bsdf_m.h, bsdf_t.h) and
    fvect.h are not among the sources.  Their types are modelled by the
    fields that checkBSDF.c reads, and their constants and routines are
    parameters of the functions that use them. *)

From Stdlib Require Import ZArith List String Ascii Bool Lia Permutation.
From Stdlib Require Import Floats.SpecFloat.
From Stdlib Require Import QArith Qabs Qpower Lqa.
Import ListNotations.
Local Open Scope Z_scope.

(** ** C floating-point arithmetic *)

(** [double] is binary64: 53 bits of precision, exponents below 1024. *)
Definition double := spec_float.

Definition dadd : double -> double -> double := SFadd 53 1024.
Definition dsub : double -> double -> double := SFsub 53 1024.
Definition dmul : double -> double -> double := SFmul 53 1024.
Definition ddiv : double -> double -> double := SFdiv 53 1024.
Definition dsqrt : double -> double := SFsqrt 53 1024.
Definition fabs : double -> double := SFabs.
Definition dlt : double -> double -> bool := SFltb.
Definition dle : double -> double -> bool := SFleb.

(** Conversion of an [int] to [double] (exact for every 32-bit value). *)
Definition double_of_int (n : Z) : double := binary_normalize 53 1024 n 0 false.

(** [m * 2^e] rounded to [double]: used to write literals. *)
Definition dlit (m e : Z) : double := binary_normalize 53 1024 m e false.

Definition d0 : double := S754_zero false.             (* 0 *)
Definition d_half : double := dlit 1 (-1).             (* .5 *)
Definition d100 : double := dlit 100 0.                (* 100. *)
Definition d360 : double := dlit 360 0.                (* 360. *)
(** [M_PI] of <math.h>, 3.14159265358979323846, is the double
    0x400921FB54442D18. *)
Definition M_PI : double := S754_finite false 7074237752028440 (-51).

(** [float] is binary32: 24 bits of precision, exponents below 128. *)
Definition float := spec_float.

Definition fsub : float -> float -> float := SFsub 24 128.
Definition flit (m e : Z) : float := binary_normalize 24 128 m e false.
Definition f1 : float := flit 1 0.                     (* 1.f *)

(** The usual arithmetic conversion of a [float] operand to [double]:
    the value is kept, the mantissa is realigned to 53 bits. *)
Definition double_of_float (x : float) : double :=
  match x with
  | S754_finite s m e => binary_round 53 1024 s m e
  | _ => x
  end.

Declare Scope double_scope.
Delimit Scope double_scope with D.
Infix "+" := dadd : double_scope.
Infix "-" := dsub : double_scope.
Infix "*" := dmul : double_scope.
Infix "/" := ddiv : double_scope.
Infix "<?" := dlt : double_scope.
Infix "<=?" := dle : double_scope.

(** ** The in-memory BSDF (bsdf.h, bsdf_m.h, bsdf_t.h)

    Only the fields that checkBSDF.c reads are kept.  A pointer that the
    code tests against NULL is an [option]; a pointer that it
    dereferences without a test points to an object. *)

Definition FVECT := (double * double * double)%type.

Definition SDError := Z.
Definition SDEnone : SDError := 0.

(** [C_COLOR]: the CIE (x,y) chromaticity, two [float] fields. *)
Record C_COLOR := { cx : float; cy : float }.

(** [SDValue]: photopic BSDF value and its chromaticity. *)
Record SDValue := { cieY : double; spec : C_COLOR }.

(** [SDMat]: a BSDF matrix.  The accessor macros of bsdf_m.h are kept
    as functions of the matrix.  [mBSDF_incvec(v,b,i)] and
    [mBSDF_outvec(v,b,o)] enter the basis callbacks [ib_vec] and
    [ob_vec], which fill the vector and return nonzero on success:
    [Some v] here.  [mBSDF_value(b,o,i)] is the table entry for outgoing
    bin [o] and incoming bin [i], a [float] that the assignment to
    [rerr] promotes to [double]. *)
Record SDMat := {
  ninc : Z;
  nout : Z;
  ib_vec : double -> option FVECT;
  ob_vec : double -> option FVECT;
  chroma : option (list Z);
  mBSDF_value : Z -> Z -> double
}.

Definition mBSDF_incvec (m : SDMat) (i : double) : option FVECT := ib_vec m i.
Definition mBSDF_outvec (m : SDMat) (o : double) : option FVECT := ob_vec m o.

(** [SDNode] and [SDTre]: a tensor tree; [stc] holds the Y, u' and v'
    trees, of which the code dereferences the first and tests the
    second. *)
Record SDNode := { ndim : Z }.
Record SDTre := { stc_0 : SDNode; stc_1 : option SDNode }.

(** The method table a component points to; the code only compares the
    pointer with the addresses of the two known tables. *)
Inductive SDFunc := SDhandleMtx | SDhandleTre | SDhandleOther.

Definition SDFunc_eqb (f g : SDFunc) : bool :=
  match f, g with
  | SDhandleMtx, SDhandleMtx | SDhandleTre, SDhandleTre
  | SDhandleOther, SDhandleOther => true
  | _, _ => false
  end.

(** [void *dist]: the component's data.  The code reads it through a
    cast, [(const SDMat * )dist] or [(const SDTre * )dist]; the two
    fields are what the memory pointed to yields under each cast. *)
Record dist_ptr := { as_SDMat : SDMat; as_SDTre : SDTre }.

Record SDComponent := { func : SDFunc; dist : dist_ptr }.

(** [SDSpectralDF]: the components of one hemisphere, [comp[0]] first. *)
Record SDSpectralDF := {
  minProjSA : double;
  maxHemi : double;
  comp_0 : SDComponent;
  comp_rest : list SDComponent
}.

Record SDData := {
  rLambFront : SDValue;
  rLambBack : SDValue;
  tLambFront : SDValue;
  tLambBack : SDValue;
  rf : option SDSpectralDF;
  rb : option SDSpectralDF;
  tf : option SDSpectralDF;
  tb : option SDSpectralDF
}.

(** ** Flags *)

Definition F_IN_COLOR : Z := 1.
Definition F_ISOTROPIC : Z := 2.
Definition F_MATRIX : Z := 4.
Definition F_TTREE : Z := 8.

Definition int_of_bool (b : bool) : Z := if b then 1 else 0.

Definition is_Some {A} (o : option A) : bool :=
  match o with Some _ => true | None => false end.

(** ** getBSDFtype

    [flags] is [None] for a NULL pointer and [Some f] for a pointer to
    an [int] holding [f]; the second component of the result is what the
    [int] holds on return. *)
Definition getBSDFtype (bsdf : SDData) (flags : option Z) : string * option Z :=
  let df := tb bsdf in
  let flags := option_map (fun _ => 0) flags in
  let df := match df with None => tf bsdf | Some _ => df end in
  let df := match df with None => rf bsdf | Some _ => df end in
  let df := match df with None => rb bsdf | Some _ => df end in
  match df with
  | None => ("Pure_Lambertian"%string, flags)
  | Some df =>
    if SDFunc_eqb (func (comp_0 df)) SDhandleMtx then
      let m := as_SDMat (dist (comp_0 df)) in
      let flags := option_map (fun f => Z.lor f F_MATRIX) flags in
      let flags :=
        option_map (fun f => Z.lor f (F_IN_COLOR * int_of_bool (is_Some (chroma m))))
                   flags in
      if ninc m =? 145 then ("Klems_Full"%string, flags)
      else if ninc m =? 73 then ("Klems_Half"%string, flags)
      else if ninc m =? 41 then ("Klems_Quarter"%string, flags)
      else ("Unknown_Matrix"%string, flags)
    else if SDFunc_eqb (func (comp_0 df)) SDhandleTre then
      let t := as_SDTre (dist (comp_0 df)) in
      let flags := option_map (fun f => Z.lor f F_TTREE) flags in
      let flags :=
        option_map (fun f => Z.lor f (F_IN_COLOR * int_of_bool (is_Some (stc_1 t))))
                   flags in
      if ndim (stc_0 t) =? 4 then ("Anisotropic_Tensor_Tree"%string, flags)
      else if ndim (stc_0 t) =? 3 then
        ("Isotropic_Tensor_Tree"%string, option_map (fun f => Z.lor f F_ISOTROPIC) flags)
      else ("Unknown_Tensor_Tree"%string, flags)
    else ("Unknown"%string, flags)
  end.

(** ** Output and library calls

    A run is observed through the list of its events, in order: what it
    prints on the standard output, the calls of the library's evaluator,
    and the diagnostics of [SDreportError] on the standard error. *)

Inductive printf_arg :=
| arg_s (s : string)
| arg_f (x : double).

Inductive event :=
| ev_printf (format : string) (args : list printf_arg)
| ev_puts (s : string)
| ev_SDevalBSDF (inVec outVec : FVECT)
| ev_stderr (ec : SDError).

Definition TAB : string := String "009"%char EmptyString.
Definition NL : string := String "010"%char EmptyString.

(** ["%s\t%4.1f %4.1f %4.1f\t\t"] *)
Definition fmt_lambertian : string := "%s" ++ TAB ++ "%4.1f %4.1f %4.1f" ++ TAB ++ TAB.
(** ["%5.1f%%\t\t%.2f deg\n"] *)
Definition fmt_direction : string := "%5.1f%%" ++ TAB ++ TAB ++ "%.2f deg" ++ NL.
(** ["0%\t\t180"] *)
Definition txt_no_direction : string := "0%" ++ TAB ++ TAB ++ "180".
(** ["%s\t%.1f\t%.1f\t%.1f\n"] *)
Definition fmt_errors : string :=
  "%s" ++ TAB ++ "%.1f" ++ TAB ++ "%.1f" ++ TAB ++ "%.1f" ++ NL.
(** ["%s\t0\t0\t0\n"] *)
Definition fmt_nothing2do : string := "%s" ++ TAB ++ "0" ++ TAB ++ "0" ++ TAB ++ "0" ++ NL.

(** A computation that prints and calls as it goes, and may leave the
    enclosing function with [return]: the events so far, and the value
    unless it returned. *)
Definition M (A : Type) : Type := (list event * option A)%type.

Definition ret {A} (a : A) : M A := ([], Some a).

Definition bind {A B} (c : M A) (f : A -> M B) : M B :=
  match c with
  | (l, Some a) => let (l', r) := f a in (l ++ l', r)
  | (l, None) => (l, None)
  end.

Definition return_now {A} : M A := ([], None).

Notation "x <- c ;; k" := (bind c (fun x => k))
  (at level 61, c at next level, right associativity).
Notation "' pat <- c ;; k" := (bind c (fun x => match x with pat => k end))
  (at level 61, pat pattern, c at next level, right associativity).

(** Modelled from the spec: [SDreportError] of the BSDF library is not
    among the sources.  An evaluation failure is a propagated error
    condition reported to the user as diagnostic text; the routine hands
    back the code it was given, and [SDEnone] (zero) is no error. *)
Definition SDreportError (ec : SDError) : M SDError :=
  (if ec =? SDEnone then [] else [ev_stderr ec], Some ec).

(** ** detailComponent *)

Definition detailComponent (nm : string) (lamb : SDValue) (df : option SDSpectralDF)
  : list event :=
  let Y := cieY lamb in
  let x := cx (spec lamb) in
  let y := cy (spec lamb) in
  ev_printf fmt_lambertian
    [arg_s nm;
     arg_f (d100 * Y * double_of_float x / double_of_float y)%D;
     arg_f (d100 * Y)%D;
     arg_f (d100 * Y * double_of_float (fsub (fsub f1 x) y) / double_of_float y)%D]
  :: match df with
     | Some df =>
       [ev_printf fmt_direction
          [arg_f (d100 * maxHemi df)%D;
           arg_f (dsqrt (minProjSA df / M_PI) * (d360 / M_PI))%D]]
     | None => [ev_puts txt_no_direction]
     end.

(** ** checkReciprocity *)

(** The four accumulators of the function. *)
Record errstat := { emin : double; emax : double; esum : double; ntested : Z }.

Section CheckReciprocity.

(** [FTINY] and [FHUGE] come from fvect.h and [SDevalBSDF] from the
    BSDF library, none of them among the sources.  bsdf.h declares
    [SDevalBSDF(SDValue *value, const FVECT inVec, const FVECT outVec,
    const SDData *sd)]: the error code is the result and the value is
    stored through the first argument, which the source names [vrev]. *)
Variables FTINY FHUGE : double.
Variable SDevalBSDF : FVECT -> FVECT -> SDData -> SDError * SDValue.

Definition call_SDevalBSDF (inVec outVec : FVECT) (sd : SDData) : M (SDError * SDValue) :=
  ([ev_SDevalBSDF inVec outVec], Some (SDevalBSDF inVec outVec sd)).

(** The four updates at the end of the inner loop. *)
Definition accumulate (st : errstat) (rerr : double) : errstat :=
  {| emin := if (rerr <? emin st)%D then rerr else emin st;
     emax := if (emax st <? rerr)%D then rerr else emax st;
     esum := (esum st + rerr)%D;
     ntested := ntested st + 1 |}.

(** The statements of the inner loop after the forward value passed
    the threshold: evaluate in reverse, leave on an error, take the
    relative error. *)
Definition reverse_test (bsdf : SDData) (vin vout : FVECT) (rerr : double)
           (st : errstat) : M errstat :=
  '(ec, vrev) <- call_SDevalBSDF vout vin bsdf ;;
  ec <- SDreportError ec ;;
  if ec =? 0 then
    let rerr := (d100 * fabs (rerr - cieY vrev) / rerr)%D in
    ret (accumulate st rerr)
  else return_now.

(** [while (o--)]: [o] is the value tested, the body runs with
    [o - 1]. *)
Fixpoint loop_o (m : SDMat) (bsdf : SDData) (vin : FVECT) (i : Z)
         (o : nat) (st : errstat) : M errstat :=
  match o with
  | O => ret st
  | S o' =>
    match mBSDF_outvec m (double_of_int (Z.of_nat o') + d_half)%D with
    | None => loop_o m bsdf vin i o' st
    | Some vout =>
      let rerr := mBSDF_value m (Z.of_nat o') i in
      if (rerr <=? FTINY)%D then loop_o m bsdf vin i o' st
      else
        st <- reverse_test bsdf vin vout rerr st ;;
        loop_o m bsdf vin i o' st
    end
  end.

(** [while (i--)] *)
Fixpoint loop_i (m : SDMat) (bsdf : SDData) (i : nat) (st : errstat) : M errstat :=
  match i with
  | O => ret st
  | S i' =>
    match mBSDF_incvec m (double_of_int (Z.of_nat i') + d_half)%D with
    | None => loop_i m bsdf i' st
    | Some vin =>
      st <- loop_o m bsdf vin (Z.of_nat i') (Z.to_nat (nout m)) st ;;
      loop_i m bsdf i' st
    end
  end.

Definition errstat_init : errstat :=
  {| emin := FHUGE; emax := d0; esum := d0; ntested := 0 |}.

Definition print_nothing2do (nm : string) : list event :=
  [ev_printf fmt_nothing2do [arg_s nm]].

Definition print_errors (nm : string) (st : errstat) : list event :=
  [ev_printf fmt_errors
     [arg_s nm; arg_f (emin st);
      arg_f (esum st / double_of_int (ntested st))%D; arg_f (emax st)]].

(** The end of the function, from [if (ntested)] on, after the
    sampling [c]. *)
Definition report (nm : string) (c : M errstat) : list event :=
  match c with
  | (log, None) => log
  | (log, Some st) =>
    log ++ (if ntested st =? 0 then print_nothing2do nm else print_errors nm st)
  end.

(** The matrix samples of one component. *)
Definition sample_matrix (df : SDSpectralDF) (bsdf : SDData) : M errstat :=
  let m := as_SDMat (dist (comp_0 df)) in
  loop_i m bsdf (Z.to_nat (ninc m)) errstat_init.

(** The loops are entered with [ninc] and [nout] as they are; the
    counts of a loaded matrix are not negative, and the number of
    pairs fits an [int]. *)
Definition checkReciprocity (nm : string) (side1 side2 : Z) (bsdf : SDData) (fl : Z)
  : list event :=
  let df := tf bsdf in
  let df :=
    if side1 =? side2 then
      if side1 >? 0 then rf bsdf else rb bsdf
    else if negb (is_Some (tf bsdf)) || negb (is_Some (tb bsdf)) then None
    else df in
  match df with
  | None => print_nothing2do nm
  | Some df =>
    report nm (if Z.land fl F_MATRIX =? 0 then ret errstat_init
               else sample_matrix df bsdf)
  end.

End CheckReciprocity.

(** ** The check as the specification words it

    The definitions of this part follow the specification: the bin pairs
    in the documented order, the pairs that are tested, the relative
    error of a tested pair, and the running statistics.  They are
    compared with the loops above. *)

Section Specification.

Variables FTINY FHUGE : double.
Variable SDevalBSDF : FVECT -> FVECT -> SDData -> SDError * SDValue.

(** [n-1, ..., 1, 0] *)
Fixpoint countdown (n : nat) : list Z :=
  match n with
  | O => []
  | S n' => Z.of_nat n' :: countdown n'
  end.

(** The pairs [(i, o)] in the documented order: [i] from [ninc-1] down
    to 0, and within, [o] from [nout-1] down to 0. *)
Definition bin_pairs (m : SDMat) : list (Z * Z) :=
  flat_map (fun i => map (fun o => (i, o)) (countdown (Z.to_nat (nout m))))
           (countdown (Z.to_nat (ninc m))).

(** A pair that is tested: both directions were reconstructed at the
    bin centres and the forward value is not within the threshold. *)
Record tested := { t_in : FVECT; t_out : FVECT; t_forward : double }.

Definition test_of_pair (m : SDMat) (p : Z * Z) : option tested :=
  let (i, o) := p in
  match mBSDF_incvec m (double_of_int i + d_half)%D,
        mBSDF_outvec m (double_of_int o + d_half)%D with
  | Some vin, Some vout =>
    let v := mBSDF_value m o i in
    if (v <=? FTINY)%D then None
    else Some {| t_in := vin; t_out := vout; t_forward := v |}
  | _, _ => None
  end.

Fixpoint tested_pairs (m : SDMat) (order : list (Z * Z)) : list tested :=
  match order with
  | [] => []
  | p :: order' =>
    match test_of_pair m p with
    | Some t => t :: tested_pairs m order'
    | None => tested_pairs m order'
    end
  end.

(** The reverse evaluation of a tested pair: the outgoing direction is
    the query's incoming direction and the incoming direction is the
    query's outgoing direction. *)
Definition reverse_eval (bsdf : SDData) (t : tested) : SDError * SDValue :=
  SDevalBSDF (t_out t) (t_in t) bsdf.

Definition reverse_call (t : tested) : event :=
  ev_SDevalBSDF (t_out t) (t_in t).

Definition eval_fails (bsdf : SDData) (t : tested) : bool :=
  negb (fst (reverse_eval bsdf t) =? SDEnone).

(** 100 |forward - reverse| / forward *)
Definition relative_error (forward reverse : double) : double :=
  (d100 * fabs (forward - reverse) / forward)%D.

Definition error_of (bsdf : SDData) (t : tested) : double :=
  relative_error (t_forward t) (cieY (snd (reverse_eval bsdf t))).

(** The running minimum and maximum from a start value, and the sum. *)
Definition lower (a e : double) : double := if (e <? a)%D then e else a.
Definition higher (a e : double) : double := if (a <? e)%D then e else a.

Definition running_min (start : double) (l : list double) : double :=
  fold_left lower l start.
Definition running_max (start : double) (l : list double) : double :=
  fold_left higher l start.
Definition sum_errors (l : list double) : double := fold_left dadd l d0.
Definition mean_error (l : list double) : double :=
  (sum_errors l / double_of_int (Z.of_nat (List.length l)))%D.

(** The minimum and the maximum over a list with at least one entry. *)
Definition minimum_over (l : list double) : option double :=
  match l with
  | [] => None
  | e :: l' => Some (running_min e l')
  end.
Definition maximum_over (l : list double) : option double :=
  match l with
  | [] => None
  | e :: l' => Some (running_max e l')
  end.

(** The tested pairs up to the first whose evaluation fails, and the
    code of that failure. *)
Fixpoint evaluated_pairs (bsdf : SDData) (l : list tested) : list tested :=
  match l with
  | [] => []
  | t :: l' => t :: (if eval_fails bsdf t then [] else evaluated_pairs bsdf l')
  end.

Fixpoint first_failure (bsdf : SDData) (l : list tested) : option SDError :=
  match l with
  | [] => None
  | t :: l' =>
    if eval_fails bsdf t then Some (fst (reverse_eval bsdf t))
    else first_failure bsdf l'
  end.

(** The check with the bin pairs visited in a given order: the step
    for one pair is the body of the inner loop. *)
Definition visit_pair (m : SDMat) (bsdf : SDData) (p : Z * Z) (st : errstat)
  : M errstat :=
  match test_of_pair m p with
  | None => ret st
  | Some t =>
    reverse_test SDevalBSDF bsdf (t_in t) (t_out t) (t_forward t) st
  end.

Fixpoint visit_pairs (m : SDMat) (bsdf : SDData) (order : list (Z * Z))
         (st : errstat) : M errstat :=
  match order with
  | [] => ret st
  | p :: order' =>
    st <- visit_pair m bsdf p st ;;
    visit_pairs m bsdf order' st
  end.

Definition check_in_order (nm : string) (m : SDMat) (bsdf : SDData)
           (order : list (Z * Z)) : list event :=
  report nm (visit_pairs m bsdf order (errstat_init FHUGE)).

(** The line of the statistics for the relative errors [E] of the
    tested pairs. *)
Definition statistics_line (nm : string) (E : list double) : event :=
  ev_printf fmt_errors
    [arg_s nm; arg_f (running_min FHUGE E); arg_f (mean_error E);
     arg_f (running_max d0 E)].

(** The events of the check of matrix [m], told by the lists above: the
    reverse calls of the tested pairs of [m] in the documented order,
    up to a first failure; then the diagnostic of that failure, or the
    line of zeros when no pair is tested, or the statistics of the
    relative errors. *)
Definition check_of_matrix (nm : string) (m : SDMat) (bsdf : SDData) : list event :=
  let T := tested_pairs m (bin_pairs m) in
  match first_failure bsdf T with
  | Some ec => map reverse_call (evaluated_pairs bsdf T) ++ [ev_stderr ec]
  | None =>
    map reverse_call T ++
    match T with
    | [] => [ev_printf fmt_nothing2do [arg_s nm]]
    | _ :: _ => [statistics_line nm (map (error_of bsdf) T)]
    end
  end.

End Specification.

(** The counts of a loaded matrix are not negative, and the number of
    bin pairs fits an [int]: the range in which the loops above are the
    loops of the source. *)
Definition loadable (m : SDMat) : Prop :=
  0 <= ninc m /\ 0 <= nout m /\ ninc m * nout m < 2 ^ 31.

(** ** What a run printed and called *)

(** The (minimum, mean, maximum) of every line printed with the format
    of the statistics. *)
Fixpoint printed_errors (out : list event) : list (double * double * double) :=
  match out with
  | [] => []
  | ev_printf fmt [arg_s _; arg_f a; arg_f b; arg_f c] :: out' =>
    if String.eqb fmt fmt_errors then (a, b, c) :: printed_errors out'
    else printed_errors out'
  | _ :: out' => printed_errors out'
  end.

Definition min_max (s : double * double * double) : double * double :=
  let '(a, _, c) := s in (a, c).

(** The evaluator calls of a run, in order. *)
Fixpoint evaluator_calls (out : list event) : list (FVECT * FVECT) :=
  match out with
  | [] => []
  | ev_SDevalBSDF v1 v2 :: out' => (v1, v2) :: evaluator_calls out'
  | _ :: out' => evaluator_calls out'
  end.

(** The event of an evaluator call with the given directions. *)
Definition call_event (c : FVECT * FVECT) : event := ev_SDevalBSDF (fst c) (snd c).

(** The slot that the specification names for a pair of sides. *)
Definition operative_slot (side1 side2 : Z) (bsdf : SDData) : option SDSpectralDF :=
  if side1 =? side2 then
    if side1 >? 0 then rf bsdf else rb bsdf
  else
    match tf bsdf, tb bsdf with
    | Some df, Some _ => Some df
    | _, _ => None
    end.

(** The first slot that is present, in the order tb, tf, rf, rb. *)
Definition first_present (bsdf : SDData) : option SDSpectralDF :=
  match tb bsdf, tf bsdf, rf bsdf, rb bsdf with
  | Some df, _, _, _ => Some df
  | None, Some df, _, _ => Some df
  | None, None, Some df, _ => Some df
  | None, None, None, df => df
  end.

Definition has_flag (fl flag : Z) : bool := negb (Z.land fl flag =? 0).

(** ** Classes of doubles used in the statements *)

Definition is_nan (x : double) : bool :=
  match x with S754_nan => true | _ => false end.

(** Not a NaN, and the sign bit is clear: +0, a positive number or
    +infinity. *)
Definition positive_sign (x : double) : bool :=
  match x with
  | S754_zero s | S754_infinity s | S754_finite s _ _ => negb s
  | S754_nan => false
  end.

(** A zero or a number, of either sign: not a NaN, not an infinity. *)
Definition is_finite (x : double) : bool :=
  match x with S754_zero _ | S754_finite _ _ _ => true | _ => false end.

(** A NaN, or a double with a clear sign bit. *)
Definition plus_or_nan (x : double) : bool := is_nan x || positive_sign x.

Definition no_nan (l : list double) : bool := forallb (fun e => negb (is_nan e)) l.

Definition not_nan (e : double) : bool := negb (is_nan e).

(** ** Exact values

    The number that a double stands for, as a rational, to compare what
    the code computes with the exact value of a formula. *)

Definition pow2 (e : Z) : Q := (2 ^ e)%Q.

Definition magnitude (x : double) : Q :=
  match x with
  | S754_finite _ m e => (inject_Z (Z.pos m) * pow2 e)%Q
  | _ => 0%Q
  end.

Definition sign_of (x : double) : bool :=
  match x with
  | S754_zero s | S754_infinity s | S754_finite s _ _ => s
  | S754_nan => false
  end.

(** The value of a zero or a number; 0 for an infinity and for a NaN. *)
Definition value (x : double) : Q :=
  if sign_of x then (- magnitude x)%Q else magnitude x.

(** A normal double: a number whose mantissa has its 53 bits. *)
Definition is_normal (x : double) : bool :=
  match x with
  | S754_finite _ m _ => 2 ^ 52 <=? Z.pos m
  | _ => false
  end.

(** The position of a fraction r/d of [0,1) against 0 and 1/2, as the
    round bit and the sticky bit of a shifted mantissa tell it, and as
    a location tells it. *)
Definition bits_of_fraction (rb sb : bool) (r d : Z) : Prop :=
  0 <= r < d
  /\ (if rb then d <= 2 * r else 2 * r < d)
  /\ (if sb then r <> 0 /\ 2 * r <> d else r = 0 \/ 2 * r = d).

Definition fraction_at (l : location) (r d : Z) : Prop :=
  0 <= r < d
  /\ match l with
     | loc_Exact => r = 0
     | loc_Inexact Lt => r <> 0 /\ 2 * r < d
     | loc_Inexact Eq => 2 * r = d
     | loc_Inexact Gt => d < 2 * r
     end.

(** ** The Lambertian percentages as the specification words them

    X% = 100 Y (cx / cy), Y% = 100 Y and Z% = 100 Y (1 - cx - cy) / cy,
    as exact values and as evaluated in double precision with the
    grouping of the formulas. *)

Definition X_percent (lamb : SDValue) : Q :=
  (100 * value (cieY lamb) * (value (cx (spec lamb)) / value (cy (spec lamb))))%Q.
Definition Y_percent (lamb : SDValue) : Q := (100 * value (cieY lamb))%Q.
Definition Z_percent (lamb : SDValue) : Q :=
  (100 * value (cieY lamb) * (1 - value (cx (spec lamb)) - value (cy (spec lamb)))
   / value (cy (spec lamb)))%Q.

Definition X_percent_double (lamb : SDValue) : double :=
  (d100 * cieY lamb * (double_of_float (cx (spec lamb)) / double_of_float (cy (spec lamb))))%D.
Definition Z_percent_double (lamb : SDValue) : double :=
  (d100 * cieY lamb
   * (dlit 1 0 - double_of_float (cx (spec lamb)) - double_of_float (cy (spec lamb)))
   / double_of_float (cy (spec lamb)))%D.

(** [1.f - cx - cy] as the code computes it, in single precision. *)
Definition one_minus_cx_cy (x y : float) : float := fsub (fsub f1 x) y.

(** ** What "%.1f" prints

    For a finite double, the exact value times ten rounded to the
    nearest integer, ties to even: the number printed, in tenths. *)

Definition round_half_even (n d : Z) : Z :=
  let q := n / d in
  match Z.compare (2 * (n mod d)) d with
  | Lt => q
  | Gt => q + 1
  | Eq => if Z.even q then q else q + 1
  end.

Definition printed_tenths (x : double) : option Z :=
  match x with
  | S754_zero _ => Some 0
  | S754_finite s m e =>
    let t := if 0 <=? e then 10 * Z.pos m * 2 ^ e
             else round_half_even (10 * Z.pos m) (2 ^ (- e)) in
    Some (if s then - t else t)
  | _ => None
  end.

(** ** checkXML and main

    A run of [checkXML] is observed through the list of its actions:
    what it prints itself, the calls of the library routines that clear,
    load and free the dataset, and the events of the three functions
    above. *)

Inductive xml_arg :=
| xarg_s (s : string)
| xarg_null
| xarg_d (n : Z)
| xarg_g (x : double).

Inductive action :=
| act_printf (format : string) (args : list xml_arg)
| act_puts (s : string)
| act_fprintf_stderr (format : string) (args : list xml_arg)
| act_SDclearBSDF (fname : string)
| act_SDloadFile (pth : string)
| act_SDfreeBSDF
| act_event (e : event).

(** A loaded [SDData]: the fields that only [checkXML] reads, and in
    [sd] the fields read by the three functions above. *)
Record SDLoaded := {
  makr : string;
  matn : string;
  dim : double * double * double;
  mgf : option string;
  sd : SDData
}.

(** ["File: '%s'\n"] and the other formats of [checkXML] *)
Definition fmt_file : string := "File: '%s'" ++ NL.
Definition fmt_cannot_find : string := "Cannot find file '%s'" ++ NL.
Definition fmt_manufacturer : string := "Manufacturer: '%s'" ++ NL.
Definition fmt_name : string := "BSDF Name: '%s'" ++ NL.
Definition fmt_dimensions : string :=
  "Dimensions (W x H x Thickness): %g x %g x %g cm" ++ NL.
Definition fmt_type : string := "Type: %s" ++ NL.
Definition fmt_color : string := "Color: %d" ++ NL.
Definition fmt_geometry : string := "Has Geometry: %d" ++ NL.
Definition txt_lambertian_header : string :=
  "Component" ++ TAB ++ "Lambertian XYZ %" ++ TAB ++ "Max. Dir" ++ TAB ++ "Min. Angle".
Definition txt_reciprocity_header : string :=
  "Component" ++ TAB ++ "Reciprocity Error (min/avg/max %)".
(** ["Usage: %s bsdf.xml ..\n"] *)
Definition fmt_usage : string := "Usage: %s bsdf.xml .." ++ NL.
(** The line of 53 equal signs that [main] puts before each file. *)
Definition txt_separator : string :=
  "=====================================================".

Section CheckXML.

Variables FTINY FHUGE : double.
Variable SDevalBSDF : FVECT -> FVECT -> SDData -> SDError * SDValue.

(** [getpath(fname, getrlibpath(), R_OK)]: the readable file found for
    the name along the library path, NULL when there is none. *)
Variable getpath : string -> option string.

(** [SDloadFile(&myBSDF, pth)] on the structure that
    [SDclearBSDF(&myBSDF, fname)] has cleared: the error code and the
    structure as the call leaves it. *)
Variable SDloadFile : string -> string -> SDError * SDLoaded.

(** What the [int flags] of [checkXML] holds before [getBSDFtype]
    writes it: the variable is not initialised. *)
Variable flags_uninit : Z.

(** The report of a loaded dataset: the statements of [checkXML] from
    the manufacturer line to the last reciprocity check. *)
Definition report_loaded (myBSDF : SDLoaded) : list action :=
  let '(d_0, d_1, d_2) := dim myBSDF in
  let typ := getBSDFtype (sd myBSDF) (Some flags_uninit) in
  let flags := match snd typ with Some f => f | None => flags_uninit end in
  [act_printf fmt_manufacturer [xarg_s (makr myBSDF)];
   act_printf fmt_name [xarg_s (matn myBSDF)];
   act_printf fmt_dimensions
     [xarg_g (d100 * d_0)%D; xarg_g (d100 * d_1)%D; xarg_g (d100 * d_2)%D];
   act_printf fmt_type [xarg_s (fst typ)];
   act_printf fmt_color [xarg_d (int_of_bool (negb (Z.land flags F_IN_COLOR =? 0)))];
   act_printf fmt_geometry [xarg_d (int_of_bool (is_Some (mgf myBSDF)))];
   act_puts txt_lambertian_header]
  ++ map act_event
       (detailComponent "Internal Refl" (rLambFront (sd myBSDF)) (rf (sd myBSDF)))
  ++ map act_event
       (detailComponent "External Refl" (rLambBack (sd myBSDF)) (rb (sd myBSDF)))
  ++ map act_event
       (detailComponent "Int->Ext Trans" (tLambFront (sd myBSDF)) (tf (sd myBSDF)))
  ++ map act_event
       (detailComponent "Ext->Int Trans" (tLambBack (sd myBSDF)) (tb (sd myBSDF)))
  ++ [act_puts txt_reciprocity_header]
  ++ map act_event
       (checkReciprocity FTINY FHUGE SDevalBSDF "Front Refl" 1 1 (sd myBSDF) flags)
  ++ map act_event
       (checkReciprocity FTINY FHUGE SDevalBSDF "Back Refl" (-1) (-1) (sd myBSDF) flags)
  ++ map act_event
       (checkReciprocity FTINY FHUGE SDevalBSDF "Transmission" (-1) 1 (sd myBSDF) flags).

(** The actions and the value returned: 1 when the file was reported,
    0 when it was not found or not loaded. *)
Definition checkXML (fname : string) : list action * Z :=
  let start := [act_printf fmt_file [xarg_s fname]; act_SDclearBSDF fname] in
  match getpath fname with
  | None => (start ++ [act_fprintf_stderr fmt_cannot_find [xarg_s fname]], 0)
  | Some pth =>
    let (ec, myBSDF) := SDloadFile fname pth in
    if ec =? 0 then
      (start ++ [act_SDloadFile pth] ++ report_loaded myBSDF ++ [act_SDfreeBSDF], 1)
    else
      (start ++ [act_SDloadFile pth] ++ map act_event (fst (SDreportError ec))
             ++ [act_SDfreeBSDF], 0)
  end.

(** [for (i = 1; i < argc; i++)] over the arguments left. *)
Fixpoint main_loop (files : list string) : list action * Z :=
  match files with
  | [] => ([], 0)
  | fname :: files' =>
    let (out, ok) := checkXML fname in
    if ok =? 0 then (act_puts txt_separator :: out, 1)
    else
      let (out', r) := main_loop files' in
      (act_puts txt_separator :: out ++ out', r)
  end.

(** [argc] is the length of [argv]; with no argument at all [argv[0]]
    is the NULL pointer. *)
Definition main (argv : list string) : list action * Z :=
  if Z.of_nat (List.length argv) <? 2 then
    ([act_fprintf_stderr fmt_usage
        [match argv with a :: _ => xarg_s a | [] => xarg_null end]], 1)
  else main_loop (tl argv).

End CheckXML.

(** ** What a run of checkXML did *)

(** The events of the three functions among the actions. *)
Fixpoint events_of (out : list action) : list event :=
  match out with
  | [] => []
  | act_event e :: out' => e :: events_of out'
  | _ :: out' => events_of out'
  end.

(** The names for which a dataset was cleared, in order. *)
Fixpoint cleared_files (out : list action) : list string :=
  match out with
  | [] => []
  | act_SDclearBSDF fname :: out' => fname :: cleared_files out'
  | _ :: out' => cleared_files out'
  end.

(** The number of times the dataset was freed. *)
Fixpoint count_free (out : list action) : nat :=
  match out with
  | [] => O
  | act_SDfreeBSDF :: out' => S (count_free out')
  | _ :: out' => count_free out'
  end.

(** The number of separator lines. *)
Fixpoint count_separators (out : list action) : nat :=
  match out with
  | [] => O
  | act_puts s :: out' =>
    if String.eqb s txt_separator then S (count_separators out') else count_separators out'
  | _ :: out' => count_separators out'
  end.

(** A file that is found and loads without error. *)
Definition loads (getpath : string -> option string)
           (SDloadFile : string -> string -> SDError * SDLoaded) (fname : string) : bool :=
  match getpath fname with
  | None => false
  | Some pth => fst (SDloadFile fname pth) =? SDEnone
  end.

(** The files up to and including the first that does not load. *)
Fixpoint up_to_first_failure (getpath : string -> option string)
         (SDloadFile : string -> string -> SDError * SDLoaded)
         (files : list string) : list string :=
  match files with
  | [] => []
  | fname :: files' =>
    fname :: (if loads getpath SDloadFile fname
              then up_to_first_failure getpath SDloadFile files' else [])
  end.

(** The representation that the first slot present starts with. *)
Definition first_func (bsdf : SDData) : option SDFunc :=
  option_map (fun df => func (comp_0 df)) (first_present bsdf).

Definition matrix_names : list string :=
  ["Klems_Full"; "Klems_Half"; "Klems_Quarter"; "Unknown_Matrix"]%string.
Definition tree_names : list string :=
  ["Anisotropic_Tensor_Tree"; "Isotropic_Tensor_Tree"; "Unknown_Tensor_Tree"]%string.

Definition name_in (names : list string) (name : string) : bool :=
  existsb (String.eqb name) names.

(** Whether the first slot present has colour data, under the cast of
    its representation. *)
Definition in_color (bsdf : SDData) : bool :=
  match first_present bsdf with
  | None => false
  | Some df =>
    match func (comp_0 df) with
    | SDhandleMtx => is_Some (chroma (as_SDMat (dist (comp_0 df))))
    | SDhandleTre => is_Some (stc_1 (as_SDTre (dist (comp_0 df))))
    | SDhandleOther => false
    end
  end.

(** The tenths that "%.1f" prints for an exact value. *)
Definition tenths_of (q : Q) : Z := round_half_even (10 * Qnum q) (Z.pos (Qden q)).

(** * Worked instances

    Small datasets on which the functions are run.  [FTINY] is 1e-6 and
    [FHUGE] is 1e10, the values of Radiance's fvect.h. *)

Definition Radiance_FTINY : double := S754_finite false 4722366482869645 (-72).
Definition Radiance_FHUGE : double := S754_finite false 5242880000000000 (-19).

Definition d1 : double := dlit 1 0.                                    (* 1.0 *)
Definition d2 : double := dlit 2 0.                                    (* 2.0 *)
Definition d_0_9465 : double := S754_finite false 8525314094612349 (-53). (* 0.9465 *)
Definition d_0_003 : double := S754_finite false 6917529027641082 (-61).  (* 0.003 *)
Definition d_1e9 : double := dlit 1000000000 0.                        (* 1e9 *)
Definition f_0_3 : float := S754_finite false 10066330 (-25).          (* 0.3f *)

(** A basis that reconstructs every bin; the direction records the
    fractional index it was asked for. *)
Definition ex_vec (z : double) (ndx : double) : option FVECT := Some (ndx, d0, z).

Definition ex_matrix (ni no : Z) (value : Z -> Z -> double) : SDMat :=
  {| ninc := ni; nout := no;
     ib_vec := ex_vec d1; ob_vec := ex_vec d1;
     chroma := None; mBSDF_value := value |}.

Definition ex_tree (n : Z) : SDTre := {| stc_0 := {| ndim := n |}; stc_1 := None |}.

(** A matrix component: the data is a matrix, and reads as a tree
    without dimensions under the other cast. *)
Definition ex_matrix_comp (m : SDMat) : SDSpectralDF :=
  {| minProjSA := d1; maxHemi := d_half;
     comp_0 := {| func := SDhandleMtx;
                  dist := {| as_SDMat := m; as_SDTre := ex_tree 0 |} |};
     comp_rest := [] |}.

(** A tree component; [m] is what its data reads as under the matrix
    cast. *)
Definition ex_tree_comp (t : SDTre) (m : SDMat) : SDSpectralDF :=
  {| minProjSA := d1; maxHemi := d_half;
     comp_0 := {| func := SDhandleTre;
                  dist := {| as_SDMat := m; as_SDTre := t |} |};
     comp_rest := [] |}.

Definition ex_lamb : SDValue :=
  {| cieY := d_half; spec := {| cx := f_0_3; cy := f_0_3 |} |}.

Definition ex_data (rf' rb' tf' tb' : option SDSpectralDF) : SDData :=
  {| rLambFront := ex_lamb; rLambBack := ex_lamb;
     tLambFront := ex_lamb; tLambBack := ex_lamb;
     rf := rf'; rb := rb'; tf := tf'; tb := tb' |}.

(** No component at all. *)
Definition ex_lambertian : SDData := ex_data None None None None.

(** Front reflection only, as a matrix. *)
Definition ex_front (m : SDMat) : SDData :=
  ex_data (Some (ex_matrix_comp m)) None None None.

(** An evaluator that always succeeds with the same value. *)
Definition ex_eval (r : double) : FVECT -> FVECT -> SDData -> SDError * SDValue :=
  fun _ _ _ => (SDEnone, {| cieY := r; spec := {| cx := f_0_3; cy := f_0_3 |} |}).

(** An evaluator that fails with code 5 when the query's incoming
    direction is that of bin centre 1.5, and gives 1.0 elsewhere. *)
Definition ex_eval_failing : FVECT -> FVECT -> SDData -> SDError * SDValue :=
  fun inVec _ _ =>
    (if SFeqb (fst (fst inVec)) (dlit 3 (-1)) then 5 else SDEnone,
     {| cieY := d1; spec := {| cx := f_0_3; cy := f_0_3 |} |}).

(** Every entry is 1.0. *)
Definition ex_ones (ni no : Z) : SDMat := ex_matrix ni no (fun _ _ => d1).

(** One incoming bin, three outgoing bins with 1.0, 2.0 and 0.5. *)
Definition ex_row : SDMat :=
  ex_matrix 1 3 (fun o _ => if o =? 0 then d1 else if o =? 1 then d2 else d_half).

(** A matrix in transmission (back to front) and a tree in front
    reflection, whose data reads as a 1 x 1 matrix under the matrix
    cast. *)
Definition ex_mixed : SDData :=
  ex_data (Some (ex_tree_comp (ex_tree 3) (ex_ones 1 1))) None None
          (Some (ex_matrix_comp (ex_ones 41 41))).

(** A tree of the given dimension in front reflection. *)
Definition ex_front_tree (n : Z) : SDData :=
  ex_data (Some (ex_tree_comp (ex_tree n) (ex_ones 0 0))) None None None.

(** The front reflection check of [ex_front m] with the matrix flag, its
    tested pairs and their relative errors. *)
Definition ex_check (SDevalBSDF : FVECT -> FVECT -> SDData -> SDError * SDValue)
           (m : SDMat) : list event :=
  checkReciprocity Radiance_FTINY Radiance_FHUGE SDevalBSDF
                   "Front Refl" 1 1 (ex_front m) F_MATRIX.

Definition ex_tested (m : SDMat) : list tested :=
  tested_pairs Radiance_FTINY m (bin_pairs m).

Definition ex_errors (SDevalBSDF : FVECT -> FVECT -> SDData -> SDError * SDValue)
           (m : SDMat) : list double :=
  map (error_of SDevalBSDF (ex_front m)) (ex_tested m).

(** The three pairs of [ex_row] from the first outgoing bin to the
    last. *)
Definition ex_ascending : list (Z * Z) := [(0, 0); (0, 1); (0, 2)].

(** Every entry is zero. *)
Definition ex_zeros (ni no : Z) : SDMat := ex_matrix ni no (fun _ _ => d0).

(** One incoming bin, two outgoing bins with +infinity and 1.0. *)
Definition ex_with_infinity : SDMat :=
  ex_matrix 1 2 (fun o _ => if o =? 0 then S754_infinity false else d1).

(** A Lambertian value with chromaticity (0.3, 0). *)
Definition ex_lamb_zero_cy : SDValue :=
  {| cieY := d_half; spec := {| cx := f_0_3; cy := S754_zero false |} |}.

(** A library path in which every name but "missing.xml" is found.
    "broken.xml" does not load (code 3), "tree.xml" holds an isotropic
    tensor tree in front reflection, and any other file a 2 x 2 matrix of
    ones in front reflection. *)
Definition ex_loaded (d : SDData) : SDLoaded :=
  {| makr := "maker"; matn := "sample"; dim := (d1, d1, d_half); mgf := None; sd := d |}.

Definition ex_getpath (fname : string) : option string :=
  if String.eqb fname "missing.xml" then None else Some ("/lib/" ++ fname)%string.

Definition ex_SDloadFile (fname pth : string) : SDError * SDLoaded :=
  if String.eqb fname "broken.xml" then (3, ex_loaded ex_lambertian)
  else if String.eqb fname "tree.xml" then (SDEnone, ex_loaded (ex_front_tree 3))
  else (SDEnone, ex_loaded (ex_front (ex_ones 2 2))).

Definition ex_checkXML : string -> list action * Z :=
  checkXML Radiance_FTINY Radiance_FHUGE (ex_eval d1) ex_getpath ex_SDloadFile 0.

Definition ex_main : list string -> list action * Z :=
  main Radiance_FTINY Radiance_FHUGE (ex_eval d1) ex_getpath ex_SDloadFile 0.

(** The program name and four file names, of which the third does not
    load. *)
Definition ex_argv : list string :=
  ["checkBSDF"; "a.xml"; "tree.xml"; "broken.xml"; "b.xml"]%string.

(** A 1 x 2 matrix of ones in front reflection, nothing in back
    reflection, and a 2 x 1 matrix of ones in both transmissions. *)
Definition ex_sides : SDData :=
  ex_data (Some (ex_matrix_comp (ex_ones 1 2))) None
          (Some (ex_matrix_comp (ex_ones 2 1))) (Some (ex_matrix_comp (ex_ones 2 1))).

(** The directions of the instances at bin centres 0.5 and 1.5. *)
Definition ex_dir_0 : FVECT := (dlit 1 (-1), d0, d1).
Definition ex_dir_1 : FVECT := (dlit 3 (-1), d0, d1).

(** Two Lambertian values of chromaticity (0.1f, 0.7f), with Y close to
    0.1995 and Y = 0.09975. *)
Definition f_0_1 : float := S754_finite false 13421773 (-27).          (* 0.1f *)
Definition f_0_7 : float := S754_finite false 11744051 (-24).          (* 0.7f *)
Definition ex_lamb_X : SDValue :=
  {| cieY := S754_finite false 7187744775771000 (-55);
     spec := {| cx := f_0_1; cy := f_0_7 |} |}.
Definition ex_lamb_Z : SDValue :=
  {| cieY := S754_finite false 7187745005283312 (-56);
     spec := {| cx := f_0_1; cy := f_0_7 |} |}.

(** * Properties *)

(** ** Comparison of doubles

    [SFcompare] orders the doubles that are not NaN by sign, then by
    exponent, then by mantissa.  The lemmas go through the cases of the
    operands; the two tactics below split the doubles of the context by
    constructor and sign, and the comparisons of exponents and mantissas
    by their outcome. *)

Ltac float_cases :=
  unfold dlt, dle, SFltb, SFleb;
  repeat match goal with
         | x : double |- _ => destruct x as [[]|[]| |[] ? ?]
         end;
  cbn; try discriminate; try reflexivity;
  change (Pos.compare_cont Eq) with Pos.compare.

Ltac order_cases :=
  repeat match goal with
         | |- context [Z.compare ?a ?b] => destruct (Z.compare_spec a b)
         | |- context [Pos.compare ?a ?b] => destruct (Pos.compare_spec a b)
         end;
  cbn; try discriminate; try reflexivity; try lia.

Lemma dlt_trans (a b c : double) :
  dlt a b = true -> dlt b c = true -> dlt a c = true.
Proof. float_cases; order_cases. Qed.

Lemma dlt_asym (a b : double) : dlt a b = true -> dlt b a = false.
Proof. float_cases; order_cases. Qed.

Lemma dlt_not_nan (a b : double) :
  dlt a b = true -> is_nan a = false /\ is_nan b = false.
Proof. float_cases; auto. Qed.

Lemma dle_not_nan (a b : double) :
  dle a b = true -> is_nan a = false /\ is_nan b = false.
Proof. float_cases; auto. Qed.

(** Among the doubles with a clear sign bit, two that are not ordered
    either way are the same double. *)
Lemma dlt_total_positive (a b : double) :
  positive_sign a = true -> positive_sign b = true ->
  dlt a b = false -> dlt b a = false -> a = b.
Proof.
  float_cases. intros _ _.
  order_cases. intros; subst; reflexivity.
Qed.

Lemma dle_trans (a b c : double) :
  dle a b = true -> dle b c = true -> dle a c = true.
Proof. float_cases; order_cases. Qed.

Lemma dle_refl (a : double) : is_nan a = false -> dle a a = true.
Proof.
  float_cases; rewrite Z.compare_refl, Pos.compare_refl; reflexivity.
Qed.

(** Of two numbers one is below the other, or they compare. *)
Lemma dlt_false_dle (a b : double) :
  is_nan a = false -> is_nan b = false -> dlt a b = false -> dle b a = true.
Proof. float_cases; order_cases. Qed.

Lemma dlt_dle (a b : double) : dlt a b = true -> dle a b = true.
Proof.
  unfold dlt, dle, SFltb, SFleb.
  destruct (SFcompare a b) as [[]|]; try discriminate; reflexivity.
Qed.

Lemma dlt_not_dle (a b : double) : dlt a b = true -> dle b a = false.
Proof. float_cases; order_cases. Qed.

Lemma positive_sign_not_nan (x : double) : positive_sign x = true -> is_nan x = false.
Proof. float_cases. Qed.

Lemma dle_zero_positive (x : double) : positive_sign x = true -> dle d0 x = true.
Proof. float_cases. Qed.

(** ** Signs of rounded results *)

Lemma binary_round_aux_sign (prec emax : Z) (m e : Z) (l : location) :
  plus_or_nan (binary_round_aux prec emax false m e l) = true.
Proof.
  unfold binary_round_aux.
  destruct (shr_fexp prec emax m e l) as [mrs' e'].
  destruct (shr_fexp prec emax _ e' loc_Exact) as [mrs'' e''].
  destruct (shr_m mrs''); try reflexivity.
  destruct (Z.leb e'' (emax - prec)); reflexivity.
Qed.

Lemma iter_pos_invariant {A} (P : A -> Prop) (f : A -> A) :
  (forall x, P x -> P (f x)) -> forall p x, P x -> P (SpecFloat.iter_pos f p x).
Proof.
  intros Hf p; induction p as [p IH|p IH|]; intros x Hx; simpl; auto.
Qed.

Lemma shr_1_nonneg (mrs : shr_record) : 0 <= shr_m mrs -> 0 <= shr_m (shr_1 mrs).
Proof.
  destruct mrs as [m r s]; simpl.
  destruct m as [|p|p]; simpl; try lia; destruct p; simpl; lia.
Qed.

Lemma shr_fexp_nonneg (prec emax m e : Z) (l : location) :
  0 <= m -> 0 <= shr_m (fst (shr_fexp prec emax m e l)).
Proof.
  intros Hm; unfold shr_fexp, shr.
  assert (H0 : 0 <= shr_m (shr_record_of_loc m l))
    by (destruct l as [|[]]; simpl; exact Hm).
  destruct (fexp prec emax (Zdigits2 m + e) - e) as [|p|p]; simpl; auto.
  apply (iter_pos_invariant (fun mrs => 0 <= shr_m mrs)); auto using shr_1_nonneg.
Qed.

Lemma round_nearest_even_nonneg (m : Z) (l : location) :
  0 <= m -> 0 <= round_nearest_even m l.
Proof.
  intros Hm; destruct l as [|[]]; simpl; try lia.
  destruct (Z.even m); lia.
Qed.

(** Rounding a non-negative mantissa never gives a NaN. *)
Lemma binary_round_aux_not_nan (prec emax : Z) (s : bool) (m e : Z) (l : location) :
  0 <= m -> is_nan (binary_round_aux prec emax s m e l) = false.
Proof.
  intros Hm; unfold binary_round_aux.
  pose proof (shr_fexp_nonneg prec emax m e l Hm) as H1.
  destruct (shr_fexp prec emax m e l) as [mrs' e']; simpl in H1.
  pose proof (shr_fexp_nonneg prec emax _ e' loc_Exact
                (round_nearest_even_nonneg _ (loc_of_shr_record mrs') H1)) as H2.
  destruct (shr_fexp prec emax _ e' loc_Exact) as [mrs'' e'']; simpl in H2.
  destruct (shr_m mrs''); try reflexivity; try lia.
  destruct (Z.leb e'' (emax - prec)); reflexivity.
Qed.

Lemma binary_round_not_nan (prec emax : Z) (s : bool) (m : positive) (e : Z) :
  is_nan (binary_round prec emax s m e) = false.
Proof.
  unfold binary_round. destruct (shl_align _ _ _) as [mz ez].
  apply binary_round_aux_not_nan. lia.
Qed.

(** Under a clear sign bit the result has a clear sign bit. *)
Lemma binary_round_aux_positive (prec emax m e : Z) (l : location) :
  0 <= m -> positive_sign (binary_round_aux prec emax false m e l) = true.
Proof.
  intros Hm.
  pose proof (binary_round_aux_sign prec emax m e l) as Hs.
  pose proof (binary_round_aux_not_nan prec emax false m e l Hm) as Hn.
  unfold plus_or_nan in Hs. rewrite Hn in Hs. exact Hs.
Qed.

Lemma fabs_sign (x : double) : plus_or_nan (fabs x) = true.
Proof. destruct x; reflexivity. Qed.

Lemma dmul_sign (x y : double) :
  plus_or_nan x = true -> plus_or_nan y = true -> plus_or_nan (dmul x y) = true.
Proof.
  destruct x as [sx|sx| |sx mx ex], y as [sy|sy| |sy my ey];
    try reflexivity; try (destruct sx; try discriminate); try (destruct sy; try discriminate);
    try reflexivity.
  intros _ _. apply binary_round_aux_sign.
Qed.

Lemma ddiv_sign (x y : double) :
  plus_or_nan x = true -> plus_or_nan y = true -> plus_or_nan (ddiv x y) = true.
Proof.
  destruct x as [sx|sx| |sx mx ex], y as [sy|sy| |sy my ey];
    try reflexivity; try (destruct sx; try discriminate); try (destruct sy; try discriminate);
    try reflexivity.
  intros _ _. unfold ddiv, SFdiv.
  destruct (SFdiv_core_binary 53 1024 (Z.pos mx) ex (Z.pos my) ey) as [[mz ez] lz].
  apply binary_round_aux_sign.
Qed.

Lemma dadd_positive (x y : double) :
  positive_sign x = true -> positive_sign y = true -> positive_sign (dadd x y) = true.
Proof.
  destruct x as [sx|sx| |sx mx ex], y as [sy|sy| |sy my ey];
    try discriminate; destruct sx; try discriminate; destruct sy; try discriminate;
    try reflexivity.
  intros _ _. unfold dadd, SFadd, cond_Zopp, binary_normalize.
  rewrite <- Pos2Z.inj_add.
  unfold binary_round.
  destruct (shl_align _ _ _) as [mz ez].
  apply binary_round_aux_positive. lia.
Qed.

(** ** The conversion of a count to double *)

Lemma digits2_pos_iter_xO (p k : positive) :
  digits2_pos (Pos.iter xO p k) = (digits2_pos p + k)%positive.
Proof.
  induction k as [|k IH] using Pos.peano_ind.
  - simpl. lia.
  - rewrite Pos.iter_succ. simpl. rewrite IH. lia.
Qed.

Lemma digits2_pos_bound (p : positive) :
  forall n, 0 <= n -> Z.pos p < 2 ^ n -> Z.pos (digits2_pos p) <= n.
Proof.
  induction p as [p IH|p IH|]; intros n Hn Hp; simpl.
  - assert (n <> 0) by (intros ->; simpl in Hp; lia).
    assert (Hpow : 2 ^ n = 2 * 2 ^ (n - 1))
      by (rewrite <- Z.pow_succ_r by lia; f_equal; lia).
    specialize (IH (n - 1)). rewrite Pos2Z.inj_succ. lia.
  - assert (n <> 0) by (intros ->; simpl in Hp; lia).
    assert (Hpow : 2 ^ n = 2 * 2 ^ (n - 1))
      by (rewrite <- Z.pow_succ_r by lia; f_equal; lia).
    specialize (IH (n - 1)). rewrite Pos2Z.inj_succ. lia.
  - assert (n <> 0) by (intros ->; simpl in Hp; lia). lia.
Qed.

Lemma double_of_int_finite (n : Z) :
  0 < n < 2 ^ 31 -> exists m e, double_of_int n = S754_finite false m e.
Proof.
  intros [Hn Hlt]. destruct n as [|p|p]; try lia.
  pose proof (digits2_pos_bound p 31 ltac:(lia) Hlt) as Hd.
  unfold double_of_int, binary_normalize, binary_round.
  set (d := digits2_pos p) in *.
  assert (Hfexp : fexp 53 1024 (Z.pos d + 0) = Z.pos d - 53).
  { unfold fexp, SpecFloat.emin. lia. }
  rewrite Hfexp.
  unfold shl_align.
  assert (Hk : exists k, Z.pos d - 53 - 0 = Z.neg k /\ (d + k = 53)%positive).
  { exists (Z.to_pos (53 - Z.pos d)). split; lia. }
  destruct Hk as [k [Hk Hdk]]. rewrite Hk.
  set (mz := PosDef.Pos.iter xO p k).
  assert (Hshr : shr_fexp 53 1024 (Z.pos mz) (Z.pos d - 53) loc_Exact
                 = ({| shr_m := Z.pos mz; shr_r := false; shr_s := false |}, Z.pos d - 53)).
  { unfold shr_fexp. cbn [Zdigits2]. unfold mz.
    change (PosDef.Pos.iter xO p k) with (Pos.iter xO p k).
    rewrite digits2_pos_iter_xO. fold d. rewrite Hdk.
    assert (H0 : fexp 53 1024 (53 + (Z.pos d - 53)) - (Z.pos d - 53) = 0)
      by (unfold fexp, SpecFloat.emin; lia).
    rewrite H0. reflexivity. }
  unfold binary_round_aux.
  rewrite Hshr. cbn [shr_m loc_of_shr_record round_nearest_even].
  rewrite Hshr. cbn [shr_m].
  assert (Hle : (Z.pos d - 53 <=? 1024 - 53) = true) by (apply Z.leb_le; lia).
  rewrite Hle. eauto.
Qed.


Lemma ddiv_positive (x y : double) (m : positive) (e : Z) :
  positive_sign x = true -> y = S754_finite false m e ->
  positive_sign (ddiv x y) = true.
Proof.
  intros Hx ->.
  destruct x as [sx|sx| |sx mx ex]; try discriminate; destruct sx; try discriminate;
    try reflexivity.
  unfold ddiv, SFdiv, SFdiv_core_binary.
  set (s := ex - e - _).
  set (m' := match s with 0 => Z.pos mx | Z.pos _ => Z.shiftl (Z.pos mx) s | Z.neg _ => 0 end).
  assert (Hm' : 0 <= m').
  { unfold m'. destruct s; try lia. apply Z.shiftl_nonneg. lia. }
  pose proof (Z.div_pos m' (Z.pos m) Hm' ltac:(lia)) as Hq.
  unfold Z.div in Hq.
  destruct (Z.div_eucl m' (Z.pos m)) as [q r]. cbn [xorb].
  apply binary_round_aux_positive. exact Hq.
Qed.

(** ** The loops and the list of tested pairs *)

Lemma bind_ret_l {A B} (a : A) (f : A -> M B) : bind (ret a) f = f a.
Proof. unfold bind, ret. destruct (f a); reflexivity. Qed.

Lemma bind_assoc {A B C} (c : M A) (f : A -> M B) (g : B -> M C) :
  bind (bind c f) g = bind c (fun a => bind (f a) g).
Proof.
  destruct c as [l [a|]]; simpl; try reflexivity.
  destruct (f a) as [l' [b|]]; simpl; try reflexivity.
  destruct (g b) as [l'' r]. rewrite app_assoc. reflexivity.
Qed.

Section Loops.

Variables FTINY FHUGE : double.
Variable SDevalBSDF : FVECT -> FVECT -> SDData -> SDError * SDValue.

Lemma reverse_test_spec (bsdf : SDData) (t : tested) (st : errstat) :
  reverse_test SDevalBSDF bsdf (t_in t) (t_out t) (t_forward t) st =
  if eval_fails SDevalBSDF bsdf t
  then ([reverse_call t; ev_stderr (fst (reverse_eval SDevalBSDF bsdf t))], None)
  else ([reverse_call t], Some (accumulate st (error_of SDevalBSDF bsdf t))).
Proof.
  unfold reverse_test, call_SDevalBSDF, SDreportError, eval_fails, error_of,
    reverse_eval, reverse_call, relative_error, SDEnone, bind, ret, return_now.
  destruct (SDevalBSDF (t_out t) (t_in t) bsdf) as [ec vrev]; simpl.
  destruct (ec =? 0); reflexivity.
Qed.

Lemma visit_pairs_app (m : SDMat) (bsdf : SDData) (l1 l2 : list (Z * Z)) (st : errstat) :
  visit_pairs FTINY SDevalBSDF m bsdf (l1 ++ l2) st =
  bind (visit_pairs FTINY SDevalBSDF m bsdf l1 st)
       (visit_pairs FTINY SDevalBSDF m bsdf l2).
Proof.
  revert st; induction l1 as [|p l1 IH]; intros st; cbn [visit_pairs app].
  - rewrite bind_ret_l; reflexivity.
  - rewrite bind_assoc.
    destruct (visit_pair FTINY SDevalBSDF m bsdf p st) as [l [st'|]];
      cbn [bind]; try reflexivity.
    rewrite IH. reflexivity.
Qed.

Lemma visit_pair_untested (m : SDMat) (bsdf : SDData) (p : Z * Z) (st : errstat) :
  test_of_pair FTINY m p = None ->
  visit_pair FTINY SDevalBSDF m bsdf p st = ret st.
Proof. unfold visit_pair; intros ->; reflexivity. Qed.

(** The inner loop visits the pairs of one row. *)
Lemma loop_o_visit (m : SDMat) (bsdf : SDData) (vin : FVECT) (i : Z) (o : nat)
      (st : errstat) :
  mBSDF_incvec m (double_of_int i + d_half)%D = Some vin ->
  loop_o FTINY SDevalBSDF m bsdf vin i o st =
  visit_pairs FTINY SDevalBSDF m bsdf (map (fun o => (i, o)) (countdown o)) st.
Proof.
  intros Hin; revert st; induction o as [|o IH]; intros st;
    cbn [loop_o countdown map visit_pairs]; try reflexivity.
  unfold visit_pair, test_of_pair. rewrite Hin.
  destruct (mBSDF_outvec m _) as [vout|].
  - destruct (mBSDF_value m (Z.of_nat o) i <=? FTINY)%D.
    + rewrite bind_ret_l. apply IH.
    + cbn [t_in t_out t_forward].
      destruct (reverse_test _ _ _ _ _ _) as [l [st'|]]; cbn [bind]; try reflexivity.
      rewrite IH; reflexivity.
  - rewrite bind_ret_l. apply IH.
Qed.

(** A row whose incoming direction is not reconstructed is skipped. *)
Lemma visit_row_skipped (m : SDMat) (bsdf : SDData) (i : Z) (os : list Z) (st : errstat) :
  mBSDF_incvec m (double_of_int i + d_half)%D = None ->
  visit_pairs FTINY SDevalBSDF m bsdf (map (fun o => (i, o)) os) st = ret st.
Proof.
  intros Hin; induction os as [|o os IH]; cbn [map visit_pairs]; try reflexivity.
  rewrite visit_pair_untested, bind_ret_l; [exact IH|].
  unfold test_of_pair; rewrite Hin; reflexivity.
Qed.

Lemma loop_i_visit (m : SDMat) (bsdf : SDData) (i : nat) (st : errstat) :
  loop_i FTINY SDevalBSDF m bsdf i st =
  visit_pairs FTINY SDevalBSDF m bsdf
    (flat_map (fun i => map (fun o => (i, o)) (countdown (Z.to_nat (nout m))))
              (countdown i)) st.
Proof.
  revert st; induction i as [|i IH]; intros st;
    cbn [loop_i countdown flat_map]; try reflexivity.
  rewrite visit_pairs_app.
  destruct (mBSDF_incvec m _) as [vin|] eqn:Hin.
  - rewrite (loop_o_visit _ _ _ _ _ _ Hin).
    destruct (visit_pairs _ _ _ _ _ _) as [l [st'|]]; cbn [bind]; try reflexivity.
    rewrite IH; reflexivity.
  - rewrite (visit_row_skipped _ _ _ _ _ Hin), bind_ret_l. apply IH.
Qed.

(** The matrix branch of the function is the check over the bin pairs
    in the documented order. *)
Lemma sample_matrix_visit (df : SDSpectralDF) (bsdf : SDData) :
  sample_matrix FTINY FHUGE SDevalBSDF df bsdf =
  visit_pairs FTINY SDevalBSDF (as_SDMat (dist (comp_0 df))) bsdf
              (bin_pairs (as_SDMat (dist (comp_0 df)))) (errstat_init FHUGE).
Proof. unfold sample_matrix, bin_pairs. apply loop_i_visit. Qed.

Lemma fold_accumulate (errs : list double) (st : errstat) :
  fold_left accumulate errs st =
  {| emin := running_min (emin st) errs;
     emax := running_max (emax st) errs;
     esum := fold_left dadd errs (esum st);
     ntested := ntested st + Z.of_nat (List.length errs) |}.
Proof.
  revert st; induction errs as [|e errs IH]; intros st.
  - destruct st; cbn. f_equal. lia.
  - cbn [fold_left List.length]. rewrite IH. unfold running_min, running_max.
    cbn [fold_left accumulate emin emax esum ntested]. unfold lower, higher.
    f_equal. lia.
Qed.

(** The visit of a list of pairs, told by the pairs that are tested:
    the evaluator is called for the tested pairs up to the first
    failure; after a failure the diagnostic is the last event and the
    function has returned; without one the accumulators have taken one
    relative error per tested pair. *)
Lemma visit_pairs_spec (m : SDMat) (bsdf : SDData) (order : list (Z * Z)) (st : errstat) :
  let T := tested_pairs FTINY m order in
  visit_pairs FTINY SDevalBSDF m bsdf order st =
  match first_failure SDevalBSDF bsdf T with
  | Some ec =>
    (map reverse_call (evaluated_pairs SDevalBSDF bsdf T) ++ [ev_stderr ec], None)
  | None =>
    (map reverse_call T,
     Some (fold_left accumulate (map (error_of SDevalBSDF bsdf) T) st))
  end.
Proof.
  revert st; induction order as [|p order IH]; intros st;
    cbn [tested_pairs visit_pairs]; try reflexivity.
  unfold visit_pair at 1.
  destruct (test_of_pair FTINY m p) as [t|].
  - rewrite reverse_test_spec.
    cbn [first_failure evaluated_pairs map fold_left].
    destruct (eval_fails SDevalBSDF bsdf t); cbn [bind]; try reflexivity.
    rewrite IH. cbn zeta.
    destruct (first_failure _ _ _); reflexivity.
  - rewrite bind_ret_l. apply IH.
Qed.

End Loops.


(** ** The classifier *)

(** The slots are tried in the order tb, tf, rf, rb: the result depends
    on the dataset through the first slot present only. *)
Lemma getBSDFtype_first_present (bsdf bsdf' : SDData) (flags : option Z) :
  first_present bsdf = first_present bsdf' ->
  getBSDFtype bsdf flags = getBSDFtype bsdf' flags.
Proof.
  unfold getBSDFtype, first_present.
  destruct (tb bsdf), (tf bsdf), (rf bsdf), (rb bsdf),
           (tb bsdf'), (tf bsdf'), (rf bsdf'), (rb bsdf');
    intros H; try discriminate H; try (injection H as ->); reflexivity.
Qed.

(** With [Hdf] saying which slot of [bsdf] is the first present, the
    function is run up to its test of that slot's first component. *)
Ltac first_slot bsdf Hdf :=
  unfold first_present in Hdf; unfold getBSDFtype;
  destruct (tb bsdf), (tf bsdf), (rf bsdf), (rb bsdf); try discriminate Hdf;
  try (injection Hdf as ->); cbn [option_map].

(** C4, as the code has it: the classifier looks at the first slot that
    is present in the order tb, tf, rf, rb.  With the four slots absent
    the type is "Pure_Lambertian" and the flags are cleared.  When the
    first component of that slot is a matrix, the type is "Klems_Full"
    for 145 rows, "Klems_Half" for 73, "Klems_Quarter" for 41 and
    "Unknown_Matrix" for any other count; the matrix flag is set, the
    colour flag is set exactly when the matrix has chroma data, and the
    tree and isotropic flags are clear.  The names are spelt with
    underscores. *)
Theorem C4_matrix_classification (bsdf : SDData) (f0 : Z) :
  (tb bsdf = None -> tf bsdf = None -> rf bsdf = None -> rb bsdf = None ->
   getBSDFtype bsdf (Some f0) = ("Pure_Lambertian"%string, Some 0))
  /\
  (forall df, first_present bsdf = Some df -> func (comp_0 df) = SDhandleMtx ->
     let m := as_SDMat (dist (comp_0 df)) in
     exists fl,
       getBSDFtype bsdf (Some f0) =
       (if ninc m =? 145 then "Klems_Full"%string
        else if ninc m =? 73 then "Klems_Half"%string
        else if ninc m =? 41 then "Klems_Quarter"%string
        else "Unknown_Matrix"%string, Some fl)
       /\ has_flag fl F_MATRIX = true
       /\ has_flag fl F_IN_COLOR = is_Some (chroma m)
       /\ has_flag fl F_TTREE = false
       /\ has_flag fl F_ISOTROPIC = false)
  /\
  (forall bsdf', first_present bsdf' = first_present bsdf ->
     getBSDFtype bsdf' (Some f0) = getBSDFtype bsdf (Some f0)).
Proof.
  split; [|split].
  - intros H1 H2 H3 H4. unfold getBSDFtype. rewrite H1, H2, H3, H4. reflexivity.
  - intros df Hdf Hf m.
    exists (Z.lor (Z.lor 0 F_MATRIX) (F_IN_COLOR * int_of_bool (is_Some (chroma m)))).
    split.
    + first_slot bsdf Hdf; rewrite Hf; cbn [SDFunc_eqb]; fold m;
        destruct (ninc m =? 145), (ninc m =? 73), (ninc m =? 41); reflexivity.
    + destruct (chroma m); cbn; repeat split; reflexivity.
  - intros bsdf' H. apply getBSDFtype_first_present, H.
Qed.

(** C5, as the code has it: when the first component of the selected
    slot is a tensor tree, the type is "Anisotropic_Tensor_Tree" for a
    primary tree of dimension 4, "Isotropic_Tensor_Tree" for dimension
    3 and "Unknown_Tensor_Tree" otherwise; the tree flag is set, the
    isotropic flag is set exactly for dimension 3, the colour flag is set
    exactly when the second tree is present, and the matrix flag is
    clear.  The names are spelt with underscores. *)
Theorem C5_tree_classification (bsdf : SDData) (f0 : Z) (df : SDSpectralDF) :
  first_present bsdf = Some df -> func (comp_0 df) = SDhandleTre ->
  let t := as_SDTre (dist (comp_0 df)) in
  exists fl,
    getBSDFtype bsdf (Some f0) =
    (if ndim (stc_0 t) =? 4 then "Anisotropic_Tensor_Tree"%string
     else if ndim (stc_0 t) =? 3 then "Isotropic_Tensor_Tree"%string
     else "Unknown_Tensor_Tree"%string, Some fl)
    /\ has_flag fl F_TTREE = true
    /\ has_flag fl F_ISOTROPIC = (ndim (stc_0 t) =? 3)
    /\ has_flag fl F_IN_COLOR = is_Some (stc_1 t)
    /\ has_flag fl F_MATRIX = false.
Proof.
  intros Hdf Hf t.
  destruct (Z.eqb_spec (ndim (stc_0 t)) 4) as [H4|H4].
  - replace (ndim (stc_0 t) =? 3) with false by (symmetry; apply Z.eqb_neq; lia).
    exists (Z.lor (Z.lor 0 F_TTREE) (F_IN_COLOR * int_of_bool (is_Some (stc_1 t)))).
    split.
    + first_slot bsdf Hdf; rewrite Hf; cbn [SDFunc_eqb]; fold t;
        rewrite (proj2 (Z.eqb_eq _ _) H4); reflexivity.
    + destruct (stc_1 t); cbn; repeat split; reflexivity.
  - exists (Z.lor (Z.lor (Z.lor 0 F_TTREE) (F_IN_COLOR * int_of_bool (is_Some (stc_1 t))))
                  (if ndim (stc_0 t) =? 3 then F_ISOTROPIC else 0)).
    split.
    + first_slot bsdf Hdf; rewrite Hf; cbn [SDFunc_eqb]; fold t;
        rewrite (proj2 (Z.eqb_neq _ _) H4);
        destruct (ndim (stc_0 t) =? 3); cbn [option_map]; rewrite ?Z.lor_0_r; reflexivity.
    + destruct (ndim (stc_0 t) =? 3), (stc_1 t); cbn; repeat split; reflexivity.
Qed.

(** ** Rounding: the error of a product and of a quotient

    The rounding routine of the arithmetic shifts a mantissa to the
    precision, keeps a round bit and a sticky bit, and rounds to nearest
    with ties to even.  The result, when it is a number, is within half
    a unit in its last place of the exact value; for a normal result
    that is 2^-53 of its magnitude. *)

Lemma shr_1_step (m : Z) (rb sb : bool) (r d : Z) :
  0 <= m -> bits_of_fraction rb sb r d ->
  exists m' rb' sb' r',
    shr_1 {| shr_m := m; shr_r := rb; shr_s := sb |}
    = {| shr_m := m'; shr_r := rb'; shr_s := sb' |}
    /\ 0 <= m'
    /\ bits_of_fraction rb' sb' r' (2 * d)
    /\ m * d + r = m' * (2 * d) + r'.
Proof.
  unfold bits_of_fraction. intros Hm Hb.
  destruct m as [|[p|p|]|p]; [| | | |lia].
  - exists 0, false, (rb || sb), r.
    destruct rb, sb; cbn [shr_1 orb] in *; repeat split; lia.
  - exists (Z.pos p), true, (rb || sb), (d + r).
    destruct rb, sb; cbn [shr_1 orb] in *; repeat split; lia.
  - exists (Z.pos p), false, (rb || sb), r.
    destruct rb, sb; cbn [shr_1 orb] in *; repeat split; lia.
  - exists 0, true, (rb || sb), (d + r).
    destruct rb, sb; cbn [shr_1 orb] in *; repeat split; lia.
Qed.

Lemma iter_pos_nat {A} (f : A -> A) (n : positive) :
  forall x, SpecFloat.iter_pos f n x = Nat.iter (Pos.to_nat n) f x.
Proof.
  induction n as [n IH|n IH|]; intros x; cbn [SpecFloat.iter_pos].
  - rewrite !IH, Pos2Nat.inj_xI, <- Nat.iter_succ_r.
    replace (S (2 * Pos.to_nat n))%nat with (Pos.to_nat n + S (Pos.to_nat n))%nat by lia.
    rewrite Nat.iter_add. reflexivity.
  - rewrite !IH, Pos2Nat.inj_xO.
    replace (2 * Pos.to_nat n)%nat with (Pos.to_nat n + Pos.to_nat n)%nat by lia.
    rewrite Nat.iter_add. reflexivity.
  - reflexivity.
Qed.

Lemma shr_steps (k : nat) (m : Z) (rb sb : bool) (r d : Z) :
  0 <= m -> bits_of_fraction rb sb r d ->
  exists m' rb' sb' r',
    Nat.iter k shr_1 {| shr_m := m; shr_r := rb; shr_s := sb |}
    = {| shr_m := m'; shr_r := rb'; shr_s := sb' |}
    /\ 0 <= m'
    /\ bits_of_fraction rb' sb' r' (2 ^ Z.of_nat k * d)
    /\ m * d + r = m' * (2 ^ Z.of_nat k * d) + r'.
Proof.
  intros Hm Hb. induction k as [|k IH].
  - exists m, rb, sb, r. change (Z.of_nat 0) with 0. rewrite Z.pow_0_r, Z.mul_1_l.
    repeat split; auto; apply Hb.
  - destruct IH as (m1 & rb1 & sb1 & r1 & Hi & Hm1 & Hb1 & He).
    rewrite Nat.iter_succ, Hi.
    destruct (shr_1_step m1 rb1 sb1 r1 _ Hm1 Hb1) as (m2 & rb2 & sb2 & r2 & Hs & Hm2 & Hb2 & He2).
    exists m2, rb2, sb2, r2. rewrite Hs.
    replace (2 ^ Z.of_nat (S k) * d) with (2 * (2 ^ Z.of_nat k * d))
      by (rewrite Nat2Z.inj_succ, Z.pow_succ_r by lia; ring).
    repeat split; auto; try lia; apply Hb2.
Qed.

Lemma fraction_at_bits (m : Z) (l : location) (r d : Z) :
  fraction_at l r d ->
  bits_of_fraction (shr_r (shr_record_of_loc m l)) (shr_s (shr_record_of_loc m l)) r d
  /\ shr_m (shr_record_of_loc m l) = m.
Proof.
  unfold fraction_at, bits_of_fraction.
  destruct l as [|[]]; cbn [shr_record_of_loc shr_r shr_s shr_m]; intros H;
    repeat split; lia.
Qed.

Lemma Zdigits2_upper (p : positive) : Z.pos p < 2 ^ Z.pos (digits2_pos p).
Proof.
  induction p as [p IH|p IH|]; cbn [digits2_pos]; rewrite ?Pos2Z.inj_succ, ?Z.pow_succ_r by lia;
    lia.
Qed.

Lemma shr_fexp_spec (M E : Z) (l : location) (r d : Z) :
  0 <= M -> fraction_at l r d ->
  exists m1 rb sb r1 k,
    shr_fexp 53 1024 M E l = ({| shr_m := m1; shr_r := rb; shr_s := sb |}, E + k)
    /\ k = Z.max 0 (fexp 53 1024 (Zdigits2 M + E) - E)
    /\ 0 <= m1
    /\ bits_of_fraction rb sb r1 (2 ^ k * d)
    /\ M * d + r = m1 * (2 ^ k * d) + r1.
Proof.
  intros HM Hl. destruct (fraction_at_bits M l r d Hl) as [Hb Hm].
  unfold shr_fexp, shr.
  destruct (shr_record_of_loc M l) as [m0 rb0 sb0]. cbn [shr_m shr_r shr_s] in *. subst m0.
  destruct (fexp 53 1024 (Zdigits2 M + E) - E) as [|p|p] eqn:Hn.
  - exists M, rb0, sb0, r, 0. rewrite Z.add_0_r, Z.pow_0_r, Z.mul_1_l.
    repeat split; auto; apply Hb.
  - rewrite iter_pos_nat.
    destruct (shr_steps (Pos.to_nat p) M rb0 sb0 r d HM Hb)
      as (m1 & rb1 & sb1 & r1 & Hi & Hm1 & Hb1 & He).
    rewrite positive_nat_Z in Hb1, He.
    exists m1, rb1, sb1, r1, (Z.pos p). rewrite Hi.
    repeat split; auto; try lia; apply Hb1.
  - exists M, rb0, sb0, r, 0. rewrite Z.add_0_r, Z.pow_0_r, Z.mul_1_l.
    repeat split; auto; try lia; apply Hb.
Qed.

Lemma round_nearest_even_error (m1 : Z) (rb sb : bool) (r1 d1 : Z) :
  bits_of_fraction rb sb r1 d1 ->
  let m2 := round_nearest_even m1 (loc_of_shr_record
                                     {| shr_m := m1; shr_r := rb; shr_s := sb |}) in
  (m2 = m1 \/ m2 = m1 + 1)
  /\ 2 * Z.abs (m2 * d1 - (m1 * d1 + r1)) <= d1.
Proof.
  unfold bits_of_fraction. intros Hb.
  destruct rb, sb; cbn [loc_of_shr_record round_nearest_even] in *;
    try destruct (Z.even m1); split; auto; nia.
Qed.

Lemma fexp_cases (z : Z) : fexp 53 1024 z = Z.max (z - 53) (-1074).
Proof. reflexivity. Qed.

Lemma binary_round_aux_error (s : bool) (M E : Z) (l : location) (r d : Z)
      (s' : bool) (m : positive) (e : Z) :
  0 <= M -> fraction_at l r d ->
  binary_round_aux 53 1024 s M E l = S754_finite s' m e ->
  s' = s
  /\ exists k, 0 <= k /\ e = E + k
               /\ 2 * Z.abs (Z.pos m * (2 ^ k * d) - (M * d + r)) <= 2 ^ k * d.
Proof.
  intros HM Hl. unfold binary_round_aux.
  destruct (shr_fexp_spec M E l r d HM Hl) as (m1 & rb & sb & r1 & k & -> & Hk & Hm1 & Hb1 & He).
  cbn [shr_m].
  pose proof (round_nearest_even_error m1 rb sb r1 _ Hb1) as Hr. cbn zeta in Hr.
  set (m2 := round_nearest_even m1 _) in *.
  destruct Hr as [Hm2 Herr].
  assert (Hd : 0 < d) by (destruct Hl; lia).
  assert (Hk0 : 0 <= k) by lia.
  assert (Hpk : 0 < 2 ^ k) by (apply Z.pow_pos_nonneg; lia).
  (* m1 is below 2^53 *)
  assert (Hm1lt : m1 < 2 ^ 53).
  { destruct M as [|pM|pM]; [| |lia].
    - assert (m1 * (2 ^ k * d) < d) by (destruct Hl as [Hr _]; unfold bits_of_fraction in Hb1; lia).
      assert (m1 < 1) by nia. lia.
    - pose proof (Zdigits2_upper pM) as Hu. cbn [Zdigits2] in Hk.
      set (dM := Z.pos (digits2_pos pM)) in *.
      rewrite fexp_cases in Hk.
      assert (HdM : dM <= 53 + k) by lia.
      assert (Hpow : 2 ^ dM <= 2 ^ (53 + k)) by (apply Z.pow_le_mono_r; lia).
      rewrite Z.pow_add_r in Hpow by lia.
      assert (Hlt : m1 * (2 ^ k * d) < (Z.pos pM + 1) * d)
        by (destruct Hl as [Hr _]; unfold bits_of_fraction in Hb1; nia).
      assert (m1 * 2 ^ k < Z.pos pM + 1) by nia.
      nia. }
  (* the exponent after the first shift is in range *)
  assert (HEk : -1074 <= E + k).
  { rewrite fexp_cases in Hk. lia. }
  assert (Hm2lo : 0 <= m2) by lia.
  destruct (shr_fexp_spec m2 (E + k) loc_Exact 0 1 Hm2lo ltac:(unfold fraction_at; lia))
    as (m3 & rb3 & sb3 & r3 & k2 & -> & Hk2 & Hm3 & Hb3 & He3).
  cbn [shr_m].
  destruct m3 as [|p3|p3]; [discriminate| |lia].
  destruct (E + k + k2 <=? 1024 - 53); [|discriminate].
  intros [= <- <- <-]. split; [reflexivity|].
  (* the second shift is by 0, or by 1 from 2^53 *)
  assert (Hk2' : k2 = 0 \/ (k2 = 1 /\ m2 = 2 ^ 53)).
  { destruct m2 as [|p2|p2]; [left| |lia].
    - cbn [Zdigits2] in Hk2. rewrite fexp_cases in Hk2. lia.
    - cbn [Zdigits2] in Hk2. rewrite fexp_cases in Hk2.
      destruct (Z_lt_le_dec (Z.pos p2) (2 ^ 53)) as [Hlt|Hge].
      + pose proof (digits2_pos_bound p2 53 ltac:(lia) Hlt). left. lia.
      + right. assert (Hp2 : Z.pos p2 = 2 ^ 53) by lia.
        assert (Hdig : Z.pos (digits2_pos p2) = 54).
        { assert (p2 = Z.to_pos (2 ^ 53)) as -> by lia. reflexivity. }
        rewrite Hdig in Hk2. split; [lia|exact Hp2]. }
  destruct Hk2' as [->|[-> Hm2']].
  - exists k. rewrite Z.pow_0_r, Z.mul_1_l, Z.mul_1_r, Z.add_0_r in *.
    unfold bits_of_fraction in Hb3.
    assert (Z.pos p3 = m2) by lia.
    split; [lia|split; [lia|]]. rewrite H. rewrite He. exact Herr.
  - exists (k + 1). unfold bits_of_fraction in Hb3.
    change (2 ^ 1) with 2 in *.
    assert (Hp3 : 2 * Z.pos p3 = m2) by lia.
    split; [lia|split; [lia|]].
    rewrite Z.pow_add_r by lia. change (2 ^ 1) with 2.
    replace (Z.pos p3 * (2 ^ k * 2 * d)) with (m2 * (2 ^ k * d)) by (rewrite <- Hp3; ring).
    rewrite He. nia.
Qed.

Lemma pow2_pos (e : Z) : (0 < pow2 e)%Q.
Proof. apply Qpower_0_lt. reflexivity. Qed.

Lemma pow2_add (a b : Z) : (pow2 (a + b) == pow2 a * pow2 b)%Q.
Proof. apply Qpower_plus. discriminate. Qed.

Lemma pow2_inject (k : Z) : 0 <= k -> (inject_Z (2 ^ k) == pow2 k)%Q.
Proof. intros H. unfold pow2. rewrite Zpower_Qpower by exact H. reflexivity. Qed.

(** From the bound in units of the result to a bound on values. *)
Lemma half_unit_bound (m : positive) (E k : Z) (N d : Z) :
  0 <= k -> 0 < d ->
  2 * Z.abs (Z.pos m * (2 ^ k * d) - N) <= 2 ^ k * d ->
  (Qabs (inject_Z N / inject_Z d * pow2 E - inject_Z (Z.pos m) * pow2 (E + k))
   <= (1 # 2) * pow2 (E + k))%Q.
Proof.
  intros Hk Hd H.
  rewrite pow2_add, <- (pow2_inject k Hk).
  assert (Hdq : (0 < inject_Z d)%Q)
    by (change 0%Q with (inject_Z 0); rewrite <- Zlt_Qlt; exact Hd).
  assert (HE : (0 < pow2 E)%Q) by apply pow2_pos.
  set (P := pow2 E) in *.
  assert (Heq : (inject_Z N / inject_Z d * P - inject_Z (Z.pos m) * (P * inject_Z (2 ^ k))
                 == (inject_Z (N - Z.pos m * (2 ^ k * d)) / inject_Z d) * P)%Q).
  { unfold Z.sub. rewrite inject_Z_plus, inject_Z_opp, !inject_Z_mult. field. lra. }
  rewrite Heq, Qabs_Qmult, (Qabs_pos P) by lra.
  assert (Hq : (Qabs (inject_Z (N - Z.pos m * (2 ^ k * d)) / inject_Z d)
                <= (1 # 2) * inject_Z (2 ^ k))%Q).
  { unfold Qdiv. rewrite Qabs_Qmult, (Qabs_pos (/ inject_Z d)).
    2:{ apply Qlt_le_weak, Qinv_lt_0_compat, Hdq. }
    change (Qabs (inject_Z (N - Z.pos m * (2 ^ k * d))))
      with (inject_Z (Z.abs (N - Z.pos m * (2 ^ k * d)))).
    apply Qle_shift_div_r; [exact Hdq|].
    assert (Hz : 2 * Z.abs (N - Z.pos m * (2 ^ k * d)) <= 2 ^ k * d)
      by (rewrite <- Z.abs_opp; replace (- (N - Z.pos m * (2 ^ k * d)))
            with (Z.pos m * (2 ^ k * d) - N) by ring; exact H).
    rewrite Zle_Qle in Hz. rewrite !inject_Z_mult in Hz.
    change (inject_Z 2) with 2%Q in Hz. lra. }
  setoid_replace ((1 # 2) * (P * inject_Z (2 ^ k)))%Q
    with (((1 # 2) * inject_Z (2 ^ k)) * P)%Q by ring.
  apply Qmult_le_compat_r; [exact Hq|lra].
Qed.

Lemma value_finite (s : bool) (m : positive) (e : Z) :
  value (S754_finite s m e)
  = if s then (- (inject_Z (Z.pos m) * pow2 e))%Q else (inject_Z (Z.pos m) * pow2 e)%Q.
Proof. reflexivity. Qed.

Lemma Qabs_signed (b : bool) (p q : Q) :
  (Qabs ((if b then - p else p) - (if b then - q else q)) == Qabs (p - q))%Q.
Proof.
  destruct b; [|reflexivity].
  setoid_replace (- p - - q)%Q with (- (p - q))%Q by ring.
  apply Qabs_opp.
Qed.

(** A normal result: half a unit in the last place is at most 2^-53 of
    the magnitude. *)
Lemma normal_half_unit (s : bool) (m : positive) (e : Z) :
  is_normal (S754_finite s m e) = true ->
  ((1 # 2) * pow2 e <= pow2 (-53) * Qabs (value (S754_finite s m e)))%Q.
Proof.
  cbn [is_normal]. intros H. apply Z.leb_le in H.
  assert (Hp : (0 < pow2 e)%Q) by apply pow2_pos.
  assert (Hm : (inject_Z (2 ^ 52) <= inject_Z (Z.pos m))%Q) by (rewrite <- Zle_Qle; exact H).
  assert (Habs : (Qabs (value (S754_finite s m e)) == inject_Z (Z.pos m) * pow2 e)%Q).
  { rewrite value_finite. destruct s; rewrite ?Qabs_opp; apply Qabs_pos.
    - apply Qmult_le_0_compat; [|lra]. change 0%Q with (inject_Z 0). rewrite <- Zle_Qle. lia.
    - apply Qmult_le_0_compat; [|lra]. change 0%Q with (inject_Z 0). rewrite <- Zle_Qle. lia. }
  rewrite Habs.
  assert (H53 : (pow2 (-53) * inject_Z (2 ^ 52) == 1 # 2)%Q) by reflexivity.
  setoid_replace (pow2 (-53) * (inject_Z (Z.pos m) * pow2 e))%Q
    with ((pow2 (-53) * inject_Z (Z.pos m)) * pow2 e)%Q by ring.
  apply Qmult_le_compat_r; [|lra].
  rewrite <- H53. apply Qmult_le_l; [reflexivity|exact Hm].
Qed.

(** The product: the result is within half a unit in its last place. *)
Lemma dmul_half_unit (x y : double) (s : bool) (m : positive) (e : Z) :
  dmul x y = S754_finite s m e ->
  (Qabs (value x * value y - value (S754_finite s m e)) <= (1 # 2) * pow2 e)%Q.
Proof.
  destruct x as [sx|sx| |sx mx ex], y as [sy|sy| |sy my ey]; try discriminate.
  unfold dmul, SFmul. intros H.
  destruct (binary_round_aux_error _ (Z.pos (mx * my)) (ex + ey) loc_Exact 0 1 _ _ _
              ltac:(lia) ltac:(unfold fraction_at; lia) H) as (-> & k & Hk & -> & Hb).
  pose proof (half_unit_bound m (ex + ey) k (Z.pos (mx * my)) 1 Hk ltac:(lia)) as Hq.
  rewrite !Z.mul_1_r, Z.add_0_r in Hb. rewrite Z.mul_1_r in Hq. specialize (Hq Hb).
  assert (Hv : (value (S754_finite sx mx ex) * value (S754_finite sy my ey)
                == if xorb sx sy
                   then - (inject_Z (Z.pos (mx * my)) / inject_Z 1 * pow2 (ex + ey))
                   else inject_Z (Z.pos (mx * my)) / inject_Z 1 * pow2 (ex + ey))%Q).
  { rewrite !value_finite.
    destruct sx, sy; cbn [xorb]; rewrite pow2_add, Pos2Z.inj_mul, inject_Z_mult; field. }
  rewrite Hv, value_finite, Qabs_signed. exact Hq.
Qed.

Lemma new_location_fraction (d r : Z) :
  0 <= r < d -> fraction_at (new_location d r) r d.
Proof.
  intros Hr. unfold fraction_at, new_location, new_location_even, new_location_odd.
  split; [exact Hr|].
  destruct (Z.even d) eqn:Hev.
  - destruct (Z.eqb_spec r 0) as [H0|H0]; [exact H0|].
    destruct (Z.compare_spec (2 * r) d); lia.
  - destruct (Z.eqb_spec r 0) as [H0|H0]; [exact H0|].
    assert (Hodd : Z.odd d = true) by (rewrite <- Z.negb_even, Hev; reflexivity).
    apply Z.odd_spec in Hodd. destruct Hodd as [c Hc].
    destruct (Z.compare_spec (2 * r + 1) d); lia.
Qed.

(** The quotient: the result is within half a unit in its last place. *)
Lemma ddiv_half_unit (x y : double) (s : bool) (m : positive) (e : Z) :
  ddiv x y = S754_finite s m e ->
  (Qabs (value x / value y - value (S754_finite s m e)) <= (1 # 2) * pow2 e)%Q.
Proof.
  destruct x as [sx|sx| |sx mx ex], y as [sy|sy| |sy my ey]; try discriminate.
  unfold ddiv, SFdiv, SFdiv_core_binary.
  set (e' := Z.min _ (ex - ey)).
  set (sh := ex - ey - e').
  assert (Hsh : 0 <= sh) by (unfold sh, e'; lia).
  set (m' := match sh with 0 => Z.pos mx | Z.pos _ => Z.shiftl (Z.pos mx) sh | Z.neg _ => 0 end).
  assert (Hm' : m' = Z.pos mx * 2 ^ sh).
  { unfold m'. destruct sh as [|p|p]; [rewrite Z.pow_0_r; lia| |lia].
    apply Z.shiftl_mul_pow2. lia. }
  pose proof (Z_div_mod m' (Z.pos my) ltac:(lia)) as Hdiv.
  destruct (Z.div_eucl m' (Z.pos my)) as [q r]. destruct Hdiv as [Hqr Hr].
  assert (Hq : 0 <= q).
  { assert (0 <= m') by (rewrite Hm'; apply Z.mul_nonneg_nonneg; [lia|apply Z.pow_nonneg; lia]).
    nia. }
  intros H.
  destruct (binary_round_aux_error _ q e' _ r (Z.pos my) _ _ _ Hq
              (new_location_fraction _ _ Hr) H) as (-> & k & Hk & -> & Hb).
  pose proof (half_unit_bound m e' k (q * Z.pos my + r) (Z.pos my) Hk ltac:(lia) Hb) as Hbound.
  replace (q * Z.pos my + r) with m' in Hbound by lia.
  assert (Hv : (value (S754_finite sx mx ex) / value (S754_finite sy my ey)
                == if xorb sx sy
                   then - (inject_Z m' / inject_Z (Z.pos my) * pow2 e')
                   else inject_Z m' / inject_Z (Z.pos my) * pow2 e')%Q).
  { rewrite !value_finite.
    assert (Hex : (pow2 ex == pow2 sh * pow2 e' * pow2 ey)%Q).
    { rewrite <- !pow2_add. replace (sh + e' + ey) with ex by (unfold sh; lia). reflexivity. }
    assert (Hpy : (0 < pow2 ey)%Q) by apply pow2_pos.
    assert (Hmy : (0 < inject_Z (Z.pos my))%Q) by reflexivity.
    destruct sx, sy; cbn [xorb];
      rewrite Hm', inject_Z_mult, (pow2_inject sh Hsh), Hex; field; split; lra. }
  rewrite Hv, value_finite, Qabs_signed. exact Hbound.
Qed.

(** In relative terms, for a normal result. *)
Lemma dmul_relative (x y : double) :
  is_normal (dmul x y) = true ->
  (Qabs (value x * value y - value (dmul x y)) <= pow2 (-53) * Qabs (value (dmul x y)))%Q.
Proof.
  destruct (dmul x y) as [| | |s m e] eqn:H; try discriminate. intros Hn.
  eapply Qle_trans; [apply (dmul_half_unit x y s m e H)|apply normal_half_unit, Hn].
Qed.

Lemma ddiv_relative (x y : double) :
  is_normal (ddiv x y) = true ->
  (Qabs (value x / value y - value (ddiv x y)) <= pow2 (-53) * Qabs (value (ddiv x y)))%Q.
Proof.
  destruct (ddiv x y) as [| | |s m e] eqn:H; try discriminate. intros Hn.
  eapply Qle_trans; [apply (ddiv_half_unit x y s m e H)|apply normal_half_unit, Hn].
Qed.

(** ** Promotion of a binary32 number *)

Lemma binary_round_aux_exact (s : bool) (p : positive) (E : Z) :
  fexp 53 1024 (Z.pos (digits2_pos p) + E) <= E -> E <= 971 ->
  binary_round_aux 53 1024 s (Z.pos p) E loc_Exact = S754_finite s p E.
Proof.
  intros Hf HE. unfold binary_round_aux, shr_fexp, shr. cbn [Zdigits2 shr_record_of_loc].
  destruct (fexp 53 1024 (Z.pos (digits2_pos p) + E) - E) as [|n|n] eqn:Hn; try lia;
    cbn [shr_m loc_of_shr_record round_nearest_even Zdigits2 shr_record_of_loc];
    rewrite Hn; cbn [shr_m];
    replace (E <=? 1024 - 53) with true by (symmetry; apply Z.leb_le; lia); reflexivity.
Qed.

Lemma iter_xO_value (p k : positive) : Z.pos (Pos.iter xO p k) = Z.pos p * 2 ^ Z.pos k.
Proof.
  induction k as [|k IH] using Pos.peano_ind.
  - cbn. lia.
  - rewrite Pos.iter_succ, Pos2Z.inj_xO, IH, Pos2Z.inj_succ, Z.pow_succ_r by lia. ring.
Qed.

Lemma double_of_float_exact (x : float) :
  valid_binary 24 128 x = true ->
  (value (double_of_float x) == value x)%Q
  /\ is_finite (double_of_float x) = is_finite x.
Proof.
  destruct x as [s|s| |s m e]; try (split; reflexivity).
  cbn [valid_binary]. unfold bounded, canonical_mantissa. intros H.
  apply andb_true_iff in H. destruct H as [Hc He].
  apply Z.eqb_eq in Hc. apply Z.leb_le in He.
  change (fexp 24 128 (Z.pos (digits2_pos m) + e))
    with (Z.max (Z.pos (digits2_pos m) + e - 24) (-149)) in Hc.
  change (128 - 24) with 104 in He.
  cbn [double_of_float]. unfold binary_round, shl_align.
  set (dm := Z.pos (digits2_pos m)) in *.
  rewrite fexp_cases.
  destruct (Z.max (dm + e - 53) (-1074) - e) as [|k|k] eqn:Hk; try lia.
  assert (Hdig : Z.pos (digits2_pos (Pos.iter xO m k)) = dm + Z.pos k)
    by (rewrite digits2_pos_iter_xO; unfold dm; lia).
  rewrite binary_round_aux_exact.
  - split; [|reflexivity]. rewrite !value_finite.
    assert (Hv : (inject_Z (Z.pos (Pos.iter xO m k)) * pow2 (Z.max (dm + e - 53) (-1074))
                  == inject_Z (Z.pos m) * pow2 e)%Q).
    { rewrite iter_xO_value, inject_Z_mult, (pow2_inject (Z.pos k)) by lia.
      replace e with (Z.pos k + Z.max (dm + e - 53) (-1074)) at 2 by lia.
      rewrite pow2_add. ring. }
    destruct s; rewrite Hv; reflexivity.
  - rewrite Hdig, fexp_cases. lia.
  - lia.
Qed.

(** ** Three roundings in a row *)

Lemma relative_step (u exact r : Q) :
  (Qabs (exact - r) <= u * Qabs r)%Q -> ~ (r == 0)%Q ->
  exists delta, (Qabs delta <= u)%Q /\ (exact == r * (1 + delta))%Q.
Proof.
  intros H Hr. exists ((exact - r) / r)%Q. split.
  - unfold Qdiv. rewrite Qabs_Qmult, Qabs_Qinv.
    assert (Hpos : (0 < Qabs r)%Q).
    { destruct (Qlt_le_dec 0 r) as [Hlt|Hle].
      - rewrite Qabs_pos by lra. exact Hlt.
      - rewrite Qabs_neg by exact Hle.
        destruct (Qle_lt_or_eq _ _ Hle) as [Hlt|Heq]; [lra|contradiction]. }
    apply Qle_shift_div_r; [exact Hpos|exact H].
  - field. exact Hr.
Qed.

Lemma three_roundings (d1 d2 d3 : Q) :
  (Qabs d1 <= pow2 (-53))%Q -> (Qabs d2 <= pow2 (-53))%Q -> (Qabs d3 <= pow2 (-53))%Q ->
  (Qabs ((1 + d1) * (1 + d2) * (1 + d3) - 1) <= pow2 (-51))%Q.
Proof.
  intros H1 H2 H3.
  assert (Hu : (pow2 (-53) == 1 # 9007199254740992)%Q) by reflexivity.
  assert (Hv : (pow2 (-51) == 1 # 2251799813685248)%Q) by reflexivity.
  rewrite Hu in *. rewrite Hv. clear Hu Hv.
  apply Qabs_Qle_condition in H1, H2, H3. apply Qabs_Qle_condition.
  destruct H1, H2, H3.
  set (u := (1 # 9007199254740992)%Q) in *.
  assert (Hp12 : (- (2 * u + u * u) <= (1 + d1) * (1 + d2) - 1 <= 2 * u + u * u)%Q).
  { unfold u in *. split; nra. }
  unfold u in *. split; nra.
Qed.

Lemma normal_nonzero (x : double) : is_normal x = true -> ~ (value x == 0)%Q.
Proof.
  destruct x as [| | |s m e]; try discriminate. intros _.
  rewrite value_finite.
  assert (Hp : (0 < pow2 e)%Q) by apply pow2_pos.
  assert (Hm : (0 < inject_Z (Z.pos m))%Q) by reflexivity.
  assert (Hv : (0 < inject_Z (Z.pos m) * pow2 e)%Q) by (apply Qmult_lt_0_compat; assumption).
  destruct s; lra.
Qed.

Lemma normal_quotient_divisor (x y : double) :
  is_normal (ddiv x y) = true -> ~ (value y == 0)%Q.
Proof.
  destruct x as [sx|sx| |sx mx ex], y as [sy|sy| |sy my ey]; try discriminate.
  intros _. rewrite value_finite.
  assert (Hp : (0 < pow2 ey)%Q) by apply pow2_pos.
  assert (Hm : (0 < inject_Z (Z.pos my))%Q) by reflexivity.
  assert (Hv : (0 < inject_Z (Z.pos my) * pow2 ey)%Q) by (apply Qmult_lt_0_compat; assumption).
  destruct sy; lra.
Qed.

Lemma value_d100 : (value d100 == 100)%Q.
Proof. reflexivity. Qed.

(** 100 a b / c computed from left to right, each result normal. *)
Lemma percentage_error (a b c : double) :
  is_normal (dmul d100 a) = true ->
  is_normal (dmul (dmul d100 a) b) = true ->
  is_normal (ddiv (dmul (dmul d100 a) b) c) = true ->
  (Qabs (100 * value a * value b / value c - value (ddiv (dmul (dmul d100 a) b) c))
   <= pow2 (-51) * Qabs (value (ddiv (dmul (dmul d100 a) b) c)))%Q.
Proof.
  intros H1 H2 H3.
  set (p1 := dmul d100 a) in *. set (p2 := dmul p1 b) in *. set (q := ddiv p2 c) in *.
  destruct (relative_step _ _ _ (dmul_relative d100 a H1) (normal_nonzero _ H1))
    as (d1 & Hd1 & E1).
  destruct (relative_step _ _ _ (dmul_relative p1 b H2) (normal_nonzero _ H2))
    as (d2 & Hd2 & E2).
  destruct (relative_step _ _ _ (ddiv_relative p2 c H3) (normal_nonzero _ H3))
    as (d3 & Hd3 & E3).
  fold p1 in E1. fold p2 in E2. fold q in E3.
  pose proof (normal_quotient_divisor p2 c H3) as Hc.
  rewrite value_d100 in E1.
  assert (HF : (100 * value a * value b / value c - value q
                == value q * ((1 + d1) * (1 + d2) * (1 + d3) - 1))%Q).
  { rewrite E1.
    setoid_replace (value p1 * (1 + d1) * value b / value c)%Q
      with ((value p1 * value b) * (1 + d1) / value c)%Q by (field; exact Hc).
    rewrite E2.
    setoid_replace (value p2 * (1 + d2) * (1 + d1) / value c)%Q
      with ((value p2 / value c) * (1 + d2) * (1 + d1))%Q by (field; exact Hc).
    rewrite E3. ring. }
  rewrite HF, Qabs_Qmult, Qmult_comm.
  apply Qmult_le_compat_r; [|apply Qabs_nonneg].
  apply three_roundings; assumption.
Qed.

(** ** The Lambertian summary *)

(** C8: the summary prints the name and three percentages, then, with
    a component, 100 maxHemi and sqrt(minProjSA / pi) (360 / pi), and
    without one the fixed text with 0% and 180.  The percentages are
    computed in double precision from left to right: Y% is 100 Y, X% is
    ((100 Y) cx) / cy and Z% is ((100 Y) d) / cy, where d is 1 - cx - cy
    computed in single precision.  When the results of these operations
    are normal doubles, Y% is within 2^-53 of the exact 100 Y, X% within
    2^-51 of the exact 100 Y cx / cy, and Z% within 2^-51 of the exact
    100 Y d / cy, relative to the double printed (cx, cy and d valid
    single-precision numbers). *)
Theorem C8_lambertian_summary (nm : string) (lamb : SDValue) (df : option SDSpectralDF) :
  let Y := cieY lamb in
  let x := cx (spec lamb) in
  let y := cy (spec lamb) in
  let d := one_minus_cx_cy x y in
  let Y_pct := dmul d100 Y in
  let X_pct := ddiv (dmul Y_pct (double_of_float x)) (double_of_float y) in
  let Z_pct := ddiv (dmul Y_pct (double_of_float d)) (double_of_float y) in
  detailComponent nm lamb df
  = [ev_printf fmt_lambertian [arg_s nm; arg_f X_pct; arg_f Y_pct; arg_f Z_pct];
     match df with
     | Some df =>
       ev_printf fmt_direction
         [arg_f (dmul d100 (maxHemi df));
          arg_f (dmul (dsqrt (ddiv (minProjSA df) M_PI)) (ddiv d360 M_PI))]
     | None => ev_puts ("0%" ++ TAB ++ TAB ++ "180")
     end]
  /\ (is_normal Y_pct = true ->
      (Qabs (Y_percent lamb - value Y_pct) <= pow2 (-53) * Qabs (value Y_pct))%Q)
  /\ (valid_binary 24 128 x = true -> valid_binary 24 128 y = true ->
      is_normal Y_pct = true -> is_normal (dmul Y_pct (double_of_float x)) = true ->
      is_normal X_pct = true ->
      (Qabs (X_percent lamb - value X_pct) <= pow2 (-51) * Qabs (value X_pct))%Q)
  /\ (valid_binary 24 128 y = true -> valid_binary 24 128 d = true ->
      is_normal Y_pct = true -> is_normal (dmul Y_pct (double_of_float d)) = true ->
      is_normal Z_pct = true ->
      (Qabs (100 * value Y * value d / value y - value Z_pct)
       <= pow2 (-51) * Qabs (value Z_pct))%Q).
Proof.
  intros Y x y d Y_pct X_pct Z_pct.
  split; [destruct df; reflexivity|].
  split; [|split].
  - intros Hn. unfold Y_percent. fold Y. rewrite <- value_d100.
    apply dmul_relative, Hn.
  - intros Hx Hy H1 H2 H3.
    destruct (double_of_float_exact x Hx) as [Ex _].
    destruct (double_of_float_exact y Hy) as [Ey _].
    pose proof (percentage_error Y (double_of_float x) (double_of_float y) H1 H2 H3) as H.
    fold Y_pct in H. fold X_pct in H. rewrite Ex, Ey in H.
    unfold X_percent. fold Y x y.
    assert (Hyn : ~ (value y == 0)%Q)
      by (rewrite <- Ey; exact (normal_quotient_divisor _ _ H3)).
    setoid_replace (100 * value Y * (value x / value y))%Q
      with (100 * value Y * value x / value y)%Q by (field; exact Hyn).
    exact H.
  - intros Hy Hd H1 H2 H3.
    destruct (double_of_float_exact y Hy) as [Ey _].
    destruct (double_of_float_exact d Hd) as [Ed _].
    pose proof (percentage_error Y (double_of_float d) (double_of_float y) H1 H2 H3) as H.
    fold Y_pct in H. fold Z_pct in H. rewrite Ey, Ed in H. exact H.
Qed.

(** The summary of a value with Y = 0.5 and chromaticity (0.3, 0.3),
    without a component: 50.0, 50.0 and 66.7 are printed, then the fixed
    text. *)
Example detailComponent_neutral :
  exists X Y Z,
    detailComponent "Internal Refl" ex_lamb None =
    [ev_printf fmt_lambertian [arg_s "Internal Refl"; arg_f X; arg_f Y; arg_f Z];
     ev_puts txt_no_direction]
    /\ printed_tenths X = Some 500
    /\ printed_tenths Y = Some 500
    /\ printed_tenths Z = Some 667.
Proof. do 3 eexists. split; [reflexivity|]. vm_compute. auto. Qed.

(** ** Events of a run *)

Lemma printed_errors_app (l1 l2 : list event) :
  printed_errors (l1 ++ l2) = printed_errors l1 ++ printed_errors l2.
Proof.
  induction l1 as [|e l1 IH]; try reflexivity.
  cbn [app printed_errors].
  destruct e as [fmt args| | |]; try exact IH.
  destruct args as [|[s|x] [|[s1|a] [|[s2|b] [|[s3|c] [|? ?]]]]]; try exact IH.
  destruct (String.eqb fmt fmt_errors); cbn [app]; rewrite IH; reflexivity.
Qed.

Lemma printed_errors_calls (T : list tested) :
  printed_errors (map reverse_call T) = [].
Proof. induction T as [|t T IH]; [reflexivity|exact IH]. Qed.

Lemma evaluator_calls_app (l1 l2 : list event) :
  evaluator_calls (l1 ++ l2) = evaluator_calls l1 ++ evaluator_calls l2.
Proof.
  induction l1 as [|e l1 IH]; try reflexivity.
  destruct e; cbn [app evaluator_calls]; rewrite IH; reflexivity.
Qed.

Lemma evaluator_calls_calls (T : list tested) :
  evaluator_calls (map reverse_call T) = map (fun t => (t_out t, t_in t)) T.
Proof.
  induction T as [|t T IH]; [reflexivity|].
  cbn [map reverse_call evaluator_calls]. rewrite <- IH. reflexivity.
Qed.

(** ** The running minimum and maximum *)

Lemma plus_or_nan_cases (x : double) :
  plus_or_nan x = true -> is_nan x = true \/ positive_sign x = true.
Proof. unfold plus_or_nan. apply orb_prop. Qed.

Lemma lower_comm (a e1 e2 : double) :
  plus_or_nan e1 = true -> plus_or_nan e2 = true ->
  lower (lower a e1) e2 = lower (lower a e2) e1.
Proof.
  intros H1 H2. unfold lower.
  destruct (dlt e1 a) eqn:H1a, (dlt e2 a) eqn:H2a; rewrite ?H1a, ?H2a; try reflexivity.
  - destruct (dlt e2 e1) eqn:H21, (dlt e1 e2) eqn:H12; try reflexivity.
    + rewrite (dlt_asym _ _ H21) in H12. discriminate.
    + apply dlt_total_positive; auto.
      * destruct (plus_or_nan_cases _ H1) as [Hn|]; auto.
        destruct (dlt_not_nan _ _ H1a); congruence.
      * destruct (plus_or_nan_cases _ H2) as [Hn|]; auto.
        destruct (dlt_not_nan _ _ H2a); congruence.
  - destruct (dlt e2 e1) eqn:H21; try reflexivity.
    rewrite (dlt_trans _ _ _ H21 H1a) in H2a. discriminate.
  - destruct (dlt e1 e2) eqn:H12; try reflexivity.
    rewrite (dlt_trans _ _ _ H12 H2a) in H1a. discriminate.
Qed.

Lemma higher_comm (a e1 e2 : double) :
  plus_or_nan e1 = true -> plus_or_nan e2 = true ->
  higher (higher a e1) e2 = higher (higher a e2) e1.
Proof.
  intros H1 H2. unfold higher.
  destruct (dlt a e1) eqn:H1a, (dlt a e2) eqn:H2a; rewrite ?H1a, ?H2a; try reflexivity.
  - destruct (dlt e1 e2) eqn:H12, (dlt e2 e1) eqn:H21; try reflexivity.
    + rewrite (dlt_asym _ _ H21) in H12. discriminate.
    + apply dlt_total_positive; auto.
      * destruct (plus_or_nan_cases _ H1) as [Hn|]; auto.
        destruct (dlt_not_nan _ _ H1a); congruence.
      * destruct (plus_or_nan_cases _ H2) as [Hn|]; auto.
        destruct (dlt_not_nan _ _ H2a); congruence.
  - destruct (dlt e1 e2) eqn:H12; try reflexivity.
    rewrite (dlt_trans _ _ _ H1a H12) in H2a. discriminate.
  - destruct (dlt e2 e1) eqn:H21; try reflexivity.
    rewrite (dlt_trans _ _ _ H2a H21) in H1a. discriminate.
Qed.

(** A fold whose steps commute on the entries of the list does not
    depend on their order. *)
Lemma fold_left_perm_on {A B} (f : A -> B -> A) (P : B -> Prop) :
  (forall a x y, P x -> P y -> f (f a x) y = f (f a y) x) ->
  forall l1 l2, Permutation l1 l2 -> Forall P l1 ->
  forall a, fold_left f l1 a = fold_left f l2 a.
Proof.
  intros Hcomm l1 l2 HP.
  induction HP as [|x l1 l2 HP IH|x y l|l1 l2 l3 HP1 IH1 HP2 IH2]; intros HF a.
  - reflexivity.
  - cbn [fold_left]. apply IH. inversion HF; assumption.
  - cbn [fold_left]. inversion HF as [|? ? Hy HF']; inversion HF' as [|? ? Hx _]; subst.
    rewrite (Hcomm a y x Hy Hx). reflexivity.
  - rewrite IH1 by assumption. apply IH2.
    eapply Permutation_Forall; eassumption.
Qed.

Lemma running_min_perm (a : double) (l1 l2 : list double) :
  Permutation l1 l2 -> Forall (fun e => plus_or_nan e = true) l1 ->
  running_min a l1 = running_min a l2.
Proof.
  intros HP HF. unfold running_min.
  apply (fold_left_perm_on lower (fun e => plus_or_nan e = true)); auto.
  intros; apply lower_comm; assumption.
Qed.

Lemma running_max_perm (a : double) (l1 l2 : list double) :
  Permutation l1 l2 -> Forall (fun e => plus_or_nan e = true) l1 ->
  running_max a l1 = running_max a l2.
Proof.
  intros HP HF. unfold running_max.
  apply (fold_left_perm_on higher (fun e => plus_or_nan e = true)); auto.
  intros; apply higher_comm; assumption.
Qed.

Lemma lower_not_nan (a e : double) :
  is_nan a = false -> is_nan (lower a e) = false.
Proof.
  intros Ha. unfold lower. destruct (dlt e a) eqn:H; auto.
  apply (dlt_not_nan _ _ H).
Qed.

Lemma higher_not_nan (a e : double) :
  is_nan a = false -> is_nan (higher a e) = false.
Proof.
  intros Ha. unfold higher. destruct (dlt a e) eqn:H; auto.
  apply (dlt_not_nan _ _ H).
Qed.

Lemma running_min_le_start (l : list double) :
  forall a, is_nan a = false -> dle (running_min a l) a = true.
Proof.
  induction l as [|x l IH]; intros a Ha; cbn [running_min fold_left].
  - apply dle_refl, Ha.
  - apply dle_trans with (lower a x).
    + apply IH, lower_not_nan, Ha.
    + unfold lower. destruct (dlt x a) eqn:H; [apply dlt_dle, H|apply dle_refl, Ha].
Qed.

Lemma running_min_le (l : list double) (e : double) :
  forall a, is_nan a = false -> is_nan e = false -> In e l ->
  dle (running_min a l) e = true.
Proof.
  induction l as [|x l IH]; intros a Ha He Hin; [contradiction|].
  cbn [running_min fold_left]. destruct Hin as [->|Hin].
  - apply dle_trans with (lower a e).
    + apply running_min_le_start, lower_not_nan, Ha.
    + unfold lower. destruct (dlt e a) eqn:H; [apply dle_refl, He|].
      apply dlt_false_dle; assumption.
  - apply IH; auto using lower_not_nan.
Qed.

Lemma running_max_ge_start (l : list double) :
  forall a, is_nan a = false -> dle a (running_max a l) = true.
Proof.
  induction l as [|x l IH]; intros a Ha; cbn [running_max fold_left].
  - apply dle_refl, Ha.
  - apply dle_trans with (higher a x).
    + unfold higher. destruct (dlt a x) eqn:H; [apply dlt_dle, H|apply dle_refl, Ha].
    + apply IH, higher_not_nan, Ha.
Qed.

Lemma running_max_ge (l : list double) (e : double) :
  forall a, is_nan a = false -> is_nan e = false -> In e l ->
  dle e (running_max a l) = true.
Proof.
  induction l as [|x l IH]; intros a Ha He Hin; [contradiction|].
  cbn [running_max fold_left]. destruct Hin as [->|Hin].
  - apply dle_trans with (higher a e).
    + unfold higher. destruct (dlt a e) eqn:H; [apply dle_refl, He|].
      apply dlt_false_dle; assumption.
    + apply running_max_ge_start, higher_not_nan, Ha.
  - apply IH; auto using higher_not_nan.
Qed.

Lemma running_min_nonneg (l : list double) :
  forall a, dle d0 a = true -> Forall (fun e => dle d0 e = true) l ->
  dle d0 (running_min a l) = true.
Proof.
  induction l as [|x l IH]; intros a Ha HF; cbn [running_min fold_left]; auto.
  inversion HF; subst. apply IH; auto.
  unfold lower. destruct (dlt x a); assumption.
Qed.

Lemma sum_positive (l : list double) :
  forall a, positive_sign a = true -> Forall (fun e => positive_sign e = true) l ->
  positive_sign (fold_left dadd l a) = true.
Proof.
  induction l as [|x l IH]; intros a Ha HF; cbn [fold_left]; auto.
  inversion HF; subst. apply IH; auto using dadd_positive.
Qed.

(** ** The running statistics and the minimum and maximum of a list *)

Lemma dle_antisym_positive (x y : double) :
  positive_sign x = true -> positive_sign y = true ->
  dle x y = true -> dle y x = true -> x = y.
Proof.
  intros Hx Hy Hxy Hyx. apply dlt_total_positive; auto.
  - destruct (dlt x y) eqn:H; [|reflexivity].
    rewrite (dlt_not_dle _ _ H) in Hyx. discriminate.
  - destruct (dlt y x) eqn:H; [|reflexivity].
    rewrite (dlt_not_dle _ _ H) in Hxy. discriminate.
Qed.

Lemma running_min_choice (l : list double) :
  forall a, running_min a l = a \/ In (running_min a l) l.
Proof.
  induction l as [|x l IH]; intros a; cbn [running_min fold_left]; [left; reflexivity|].
  destruct (IH (lower a x)) as [H|H]; [|right; right; exact H].
  unfold running_min in H. rewrite H. unfold lower.
  destruct (dlt x a); [right; left; reflexivity|left; reflexivity].
Qed.

(** When some entry is below the start value, the running minimum is the
    minimum over the list. *)
Lemma running_min_is_minimum (a e : double) (l : list double) :
  Forall (fun x => positive_sign x = true) (e :: l) ->
  existsb (fun x => dlt x a) (e :: l) = true ->
  running_min a (e :: l) = running_min e l.
Proof.
  intros HF HE.
  assert (Hpos : forall x, In x (e :: l) -> positive_sign x = true)
    by (apply Forall_forall; exact HF).
  assert (Hnn : forall x, In x (e :: l) -> is_nan x = false)
    by (intros x Hx; apply positive_sign_not_nan, Hpos, Hx).
  apply existsb_exists in HE. destruct HE as (x0 & Hx0 & Hlt).
  destruct (dlt_not_nan _ _ Hlt) as [_ Ha].
  assert (Hr : In (running_min a (e :: l)) (e :: l)).
  { destruct (running_min_choice (e :: l) a) as [H|H]; [|exact H].
    pose proof (running_min_le (e :: l) x0 a Ha (Hnn _ Hx0) Hx0) as Hle.
    rewrite H in Hle. rewrite (dlt_not_dle _ _ Hlt) in Hle. discriminate. }
  assert (Hr' : In (running_min e l) (e :: l)).
  { destruct (running_min_choice l e) as [H|H]; [left; symmetry; exact H|right; exact H]. }
  apply dle_antisym_positive.
  - apply Hpos, Hr.
  - apply Hpos, Hr'.
  - exact (running_min_le (e :: l) _ a Ha (Hnn _ Hr') Hr').
  - assert (He : is_nan e = false) by (apply Hnn; left; reflexivity).
    destruct Hr as [Hr|Hr].
    + rewrite <- Hr. apply running_min_le_start, He.
    + exact (running_min_le l _ e He (Hnn _ (or_intror Hr)) Hr).
Qed.

Lemma running_max_is_maximum (e : double) (l : list double) :
  positive_sign e = true -> running_max d0 (e :: l) = running_max e l.
Proof.
  intros He. cbn [running_max fold_left]. unfold running_max. f_equal.
  destruct e as [s|s| |s m x]; try discriminate; destruct s; try discriminate; reflexivity.
Qed.

(** ** The sign of a relative error *)

Lemma above_threshold_sign (FTINY v : double) :
  dle d0 FTINY = true -> dle v FTINY = false -> plus_or_nan v = true.
Proof. float_cases. Qed.

Lemma relative_error_sign (FTINY v r : double) :
  dle d0 FTINY = true -> dle v FTINY = false ->
  plus_or_nan (relative_error v r) = true.
Proof.
  intros H0 Hv. unfold relative_error.
  apply ddiv_sign; [apply dmul_sign; [reflexivity|apply fabs_sign]|].
  eapply above_threshold_sign; eassumption.
Qed.

(** ** Relative errors that are numbers *)

Lemma dsub_not_nan (sv : bool) (mv : positive) (ev : Z) (r : double) :
  is_nan r = false -> is_nan (dsub (S754_finite sv mv ev) r) = false.
Proof.
  destruct r as [sr|sr| |sr mr er]; try discriminate; try reflexivity. intros _.
  unfold dsub, SFsub, binary_normalize.
  destruct (_ - _) as [|p|p]; try reflexivity; apply binary_round_not_nan.
Qed.

Lemma fabs_not_nan (x : double) : is_nan x = false -> is_nan (fabs x) = false.
Proof. destruct x; auto. Qed.

Lemma dmul_100_not_nan (x : double) : is_nan x = false -> is_nan (dmul d100 x) = false.
Proof.
  destruct x as [sx|sx| |sx mx ex]; try discriminate; try reflexivity. intros _.
  apply binary_round_aux_not_nan. lia.
Qed.

Lemma ddiv_finite_not_nan (x : double) (sv : bool) (mv : positive) (ev : Z) :
  is_nan x = false -> is_nan (ddiv x (S754_finite sv mv ev)) = false.
Proof.
  destruct x as [sx|sx| |sx mx ex]; try discriminate; try reflexivity. intros _.
  unfold ddiv, SFdiv, SFdiv_core_binary.
  set (s := ex - ev - _).
  set (m' := match s with 0 => Z.pos mx | Z.pos _ => Z.shiftl (Z.pos mx) s | Z.neg _ => 0 end).
  assert (Hm' : 0 <= m').
  { unfold m'. destruct s; try lia. apply Z.shiftl_nonneg. lia. }
  pose proof (Z.div_pos m' (Z.pos mv) Hm' ltac:(lia)) as Hq.
  unfold Z.div in Hq.
  destruct (Z.div_eucl m' (Z.pos mv)) as [q r].
  apply binary_round_aux_not_nan. exact Hq.
Qed.

(** The relative error of a finite forward value above the threshold and
    a reverse value that is not NaN is not NaN. *)
Lemma relative_error_not_nan (FTINY v r : double) :
  dle d0 FTINY = true -> dle v FTINY = false ->
  is_finite v = true -> is_nan r = false ->
  is_nan (relative_error v r) = false.
Proof.
  intros H0 Hv Hf Hr.
  destruct v as [sv|sv| |sv mv ev]; try discriminate.
  - exfalso. revert H0 Hv. clear. float_cases.
  - unfold relative_error.
    apply ddiv_finite_not_nan, dmul_100_not_nan, fabs_not_nan, dsub_not_nan, Hr.
Qed.

(** ** The reciprocity check *)

Section Reciprocity.

Variables FTINY FHUGE : double.
Variable SDevalBSDF : FVECT -> FVECT -> SDData -> SDError * SDValue.

Lemma checkReciprocity_slot (nm : string) (side1 side2 : Z) (bsdf : SDData) (fl : Z) :
  checkReciprocity FTINY FHUGE SDevalBSDF nm side1 side2 bsdf fl =
  match operative_slot side1 side2 bsdf with
  | None => print_nothing2do nm
  | Some df =>
    if has_flag fl F_MATRIX
    then report nm (sample_matrix FTINY FHUGE SDevalBSDF df bsdf)
    else print_nothing2do nm
  end.
Proof.
  unfold checkReciprocity, operative_slot, has_flag.
  destruct (side1 =? side2).
  - destruct (if side1 >? 0 then rf bsdf else rb bsdf); try reflexivity.
    destruct (Z.land fl F_MATRIX =? 0); reflexivity.
  - destruct (tf bsdf), (tb bsdf); cbn [is_Some negb orb]; try reflexivity.
    destruct (Z.land fl F_MATRIX =? 0); reflexivity.
Qed.

Lemma check_in_order_spec (nm : string) (m : SDMat) (bsdf : SDData)
      (order : list (Z * Z)) :
  let T := tested_pairs FTINY m order in
  let E := map (error_of SDevalBSDF bsdf) T in
  check_in_order FTINY FHUGE SDevalBSDF nm m bsdf order =
  match first_failure SDevalBSDF bsdf T with
  | Some ec => map reverse_call (evaluated_pairs SDevalBSDF bsdf T) ++ [ev_stderr ec]
  | None =>
    map reverse_call T ++
    match T with
    | [] => print_nothing2do nm
    | _ :: _ => [statistics_line FHUGE nm E]
    end
  end.
Proof.
  intros T E. unfold check_in_order. rewrite visit_pairs_spec. fold T.
  destruct (first_failure SDevalBSDF bsdf T); cbn [report]; try reflexivity.
  rewrite fold_accumulate. fold E. cbn [ntested errstat_init Z.add].
  f_equal. unfold E. destruct T as [|t T']; try reflexivity.
Qed.

Lemma checkReciprocity_matrix (nm : string) (side1 side2 : Z) (bsdf : SDData) (fl : Z)
      (df : SDSpectralDF) :
  operative_slot side1 side2 bsdf = Some df ->
  has_flag fl F_MATRIX = true ->
  let m := as_SDMat (dist (comp_0 df)) in
  checkReciprocity FTINY FHUGE SDevalBSDF nm side1 side2 bsdf fl =
  check_in_order FTINY FHUGE SDevalBSDF nm m bsdf (bin_pairs m).
Proof.
  intros Hdf Hfl m. rewrite checkReciprocity_slot, Hdf, Hfl.
  rewrite sample_matrix_visit. reflexivity.
Qed.

(** *** Bin pairs and tested pairs *)

Lemma In_countdown (n : nat) (z : Z) : In z (countdown n) <-> 0 <= z < Z.of_nat n.
Proof.
  induction n as [|n IH]; cbn [countdown In].
  - lia.
  - rewrite IH. lia.
Qed.

Lemma In_bin_pairs (m : SDMat) (i o : Z) :
  0 <= i < ninc m -> 0 <= o < nout m -> In (i, o) (bin_pairs m).
Proof.
  intros Hi Ho. unfold bin_pairs. apply in_flat_map. exists i. split.
  - apply In_countdown. lia.
  - apply in_map, In_countdown. lia.
Qed.

Lemma length_countdown (n : nat) : List.length (countdown n) = n.
Proof. induction n as [|n IH]; cbn [countdown List.length]; congruence. Qed.

Lemma length_bin_pairs (m : SDMat) :
  List.length (bin_pairs m) = (Z.to_nat (ninc m) * Z.to_nat (nout m))%nat.
Proof.
  unfold bin_pairs.
  induction (Z.to_nat (ninc m)) as [|n IH]; cbn [countdown flat_map]; try reflexivity.
  rewrite length_app, length_map, length_countdown, IH. reflexivity.
Qed.

Lemma In_tested_pairs (m : SDMat) (order : list (Z * Z)) (p : Z * Z) (t : tested) :
  In p order -> test_of_pair FTINY m p = Some t -> In t (tested_pairs FTINY m order).
Proof.
  intros Hp Ht. induction order as [|q order IH]; cbn [tested_pairs]; [contradiction|].
  destruct Hp as [->|Hp].
  - rewrite Ht. left; reflexivity.
  - destruct (test_of_pair FTINY m q); [right|]; auto.
Qed.

Lemma length_tested_pairs (m : SDMat) (order : list (Z * Z)) :
  (List.length (tested_pairs FTINY m order) <= List.length order)%nat.
Proof.
  induction order as [|q order IH]; cbn [tested_pairs List.length]; [lia|].
  destruct (test_of_pair FTINY m q); cbn [List.length]; lia.
Qed.

Lemma tested_forward (m : SDMat) (order : list (Z * Z)) (t : tested) :
  In t (tested_pairs FTINY m order) -> dle (t_forward t) FTINY = false.
Proof.
  induction order as [|[i o] order IH]; cbn [tested_pairs]; [contradiction|].
  destruct (test_of_pair FTINY m (i, o)) as [t'|] eqn:Ht; auto.
  intros [Heq|Hin]; auto. subst t'.
  unfold test_of_pair in Ht.
  destruct (mBSDF_incvec m _); try discriminate.
  destruct (mBSDF_outvec m _); try discriminate.
  destruct (dle (mBSDF_value m o i) FTINY) eqn:Hv; try discriminate.
  injection Ht as <-. exact Hv.
Qed.

Lemma tested_pairs_perm (m : SDMat) (o1 o2 : list (Z * Z)) :
  Permutation o1 o2 -> Permutation (tested_pairs FTINY m o1) (tested_pairs FTINY m o2).
Proof.
  induction 1 as [|p l1 l2 _ IH|p q l|l1 l2 l3 _ IH1 _ IH2]; cbn [tested_pairs].
  - constructor.
  - destruct (test_of_pair FTINY m p); auto.
  - destruct (test_of_pair FTINY m p), (test_of_pair FTINY m q);
      auto using Permutation_refl, perm_swap.
  - eapply Permutation_trans; eassumption.
Qed.

(** *** Failing evaluations *)

Lemma first_failure_none (bsdf : SDData) (T : list tested) :
  first_failure SDevalBSDF bsdf T = None <->
  Forall (fun t => eval_fails SDevalBSDF bsdf t = false) T.
Proof.
  induction T as [|t T IH]; cbn [first_failure].
  - split; auto.
  - destruct (eval_fails SDevalBSDF bsdf t) eqn:Hf.
    + split; [discriminate|]. intros H; inversion H; congruence.
    + rewrite IH. split; [auto|]. intros H; inversion H; auto.
Qed.

Lemma first_failure_perm (bsdf : SDData) (T1 T2 : list tested) :
  Permutation T1 T2 ->
  first_failure SDevalBSDF bsdf T1 = None -> first_failure SDevalBSDF bsdf T2 = None.
Proof.
  intros HP. rewrite !first_failure_none. apply Permutation_Forall, HP.
Qed.

Lemma first_failure_at (bsdf : SDData) (pre post : list tested) (t : tested) :
  Forall (fun t' => eval_fails SDevalBSDF bsdf t' = false) pre ->
  eval_fails SDevalBSDF bsdf t = true ->
  first_failure SDevalBSDF bsdf (pre ++ t :: post)
  = Some (fst (reverse_eval SDevalBSDF bsdf t))
  /\ evaluated_pairs SDevalBSDF bsdf (pre ++ t :: post) = pre ++ [t].
Proof.
  intros Hpre Ht. induction Hpre as [|t' pre Ht' _ IH];
    cbn [app first_failure evaluated_pairs].
  - rewrite Ht. auto.
  - rewrite Ht'. destruct IH as [-> ->]. auto.
Qed.

Lemma first_failing_split (bsdf : SDData) (T : list tested) :
  Exists (fun t => eval_fails SDevalBSDF bsdf t = true) T ->
  exists pre t post,
    T = pre ++ t :: post
    /\ Forall (fun t' => eval_fails SDevalBSDF bsdf t' = false) pre
    /\ eval_fails SDevalBSDF bsdf t = true.
Proof.
  induction T as [|t T IH]; intros HE; [inversion HE|].
  destruct (eval_fails SDevalBSDF bsdf t) eqn:Ht.
  - exists [], t, T. auto.
  - assert (HE' : Exists (fun t => eval_fails SDevalBSDF bsdf t = true) T)
      by (inversion HE; [congruence|assumption]).
    destruct (IH HE') as (pre & t' & post & -> & Hpre & Ht').
    exists (t :: pre), t', post. auto.
Qed.

(** *** Relative errors and what is printed *)

Lemma errors_sign (m : SDMat) (bsdf : SDData) (order : list (Z * Z)) :
  dle d0 FTINY = true ->
  Forall (fun e => plus_or_nan e = true)
         (map (error_of SDevalBSDF bsdf) (tested_pairs FTINY m order)).
Proof.
  intros H0. apply Forall_forall. intros e He.
  apply in_map_iff in He. destruct He as (t & <- & Ht).
  unfold error_of. eapply relative_error_sign; [exact H0|].
  eapply tested_forward; exact Ht.
Qed.

(** With finite forward values and reverse values that are not NaN, no
    relative error is NaN. *)
Lemma errors_no_nan (m : SDMat) (bsdf : SDData) (order : list (Z * Z)) :
  dle d0 FTINY = true ->
  (forall t, In t (tested_pairs FTINY m order) ->
             is_finite (t_forward t) = true
             /\ is_nan (cieY (snd (reverse_eval SDevalBSDF bsdf t))) = false) ->
  no_nan (map (error_of SDevalBSDF bsdf) (tested_pairs FTINY m order)) = true.
Proof.
  intros H0 HT. apply forallb_forall. intros e He.
  apply in_map_iff in He. destruct He as (t & <- & Ht).
  destruct (HT t Ht) as [Hf Hr].
  apply negb_true_iff. unfold error_of.
  eapply relative_error_not_nan; eauto using tested_forward.
Qed.

(** What the check in a given order prints as statistics. *)
Lemma printed_check_in_order (nm : string) (m : SDMat) (bsdf : SDData)
      (order : list (Z * Z)) :
  let T := tested_pairs FTINY m order in
  let E := map (error_of SDevalBSDF bsdf) T in
  printed_errors (check_in_order FTINY FHUGE SDevalBSDF nm m bsdf order) =
  match first_failure SDevalBSDF bsdf T, T with
  | None, _ :: _ => [(running_min FHUGE E, mean_error E, running_max d0 E)]
  | _, _ => []
  end.
Proof.
  intros T E. rewrite check_in_order_spec. fold T. fold E.
  destruct (first_failure SDevalBSDF bsdf T);
    rewrite printed_errors_app, printed_errors_calls; [reflexivity|].
  destruct T; reflexivity.
Qed.

(** *** The claims on the check *)

(** C3: with equal sides the check works on rf for the front side and
    on rb for the back side, and prints the line of zeros when that slot
    is absent; with different sides it works on tf, and prints the line
    of zeros when tf or tb is absent.  To work on a slot is to test the
    bin pairs of the matrix of that slot's first component: the events
    are the reverse calls for the tested pairs of that matrix and the
    line that closes them.  Without the matrix flag the check prints the
    line of zeros, never a statistic. *)
Theorem C3_operative_component (nm : string) (side1 side2 : Z) (bsdf : SDData) (fl : Z) :
  let out := checkReciprocity FTINY FHUGE SDevalBSDF nm side1 side2 bsdf fl in
  let on_matrix df :=
    has_flag fl F_MATRIX = true -> loadable (as_SDMat (dist (comp_0 df))) ->
    out = check_of_matrix FTINY FHUGE SDevalBSDF nm (as_SDMat (dist (comp_0 df))) bsdf in
  (side1 = side2 -> side1 > 0 ->
     match rf bsdf with
     | None => out = [ev_printf fmt_nothing2do [arg_s nm]]
     | Some df => on_matrix df
     end)
  /\ (side1 = side2 -> side1 <= 0 ->
     match rb bsdf with
     | None => out = [ev_printf fmt_nothing2do [arg_s nm]]
     | Some df => on_matrix df
     end)
  /\ (side1 <> side2 ->
     match tf bsdf, tb bsdf with
     | Some df, Some _ => on_matrix df
     | _, _ => out = [ev_printf fmt_nothing2do [arg_s nm]]
     end)
  /\ (has_flag fl F_MATRIX = false ->
     out = [ev_printf fmt_nothing2do [arg_s nm]] /\ printed_errors out = []).
Proof.
  intros out on_matrix. unfold on_matrix. clear on_matrix.
  assert (Hm : forall df,
             report nm (sample_matrix FTINY FHUGE SDevalBSDF df bsdf)
             = check_of_matrix FTINY FHUGE SDevalBSDF nm (as_SDMat (dist (comp_0 df))) bsdf).
  { intros df. rewrite sample_matrix_visit.
    exact (check_in_order_spec nm (as_SDMat (dist (comp_0 df))) bsdf
                               (bin_pairs (as_SDMat (dist (comp_0 df))))). }
  assert (Hout : out = match operative_slot side1 side2 bsdf with
                        | None => print_nothing2do nm
                        | Some df =>
                          if has_flag fl F_MATRIX
                          then report nm (sample_matrix FTINY FHUGE SDevalBSDF df bsdf)
                          else print_nothing2do nm
                        end) by apply checkReciprocity_slot.
  clearbody out. unfold operative_slot in Hout.
  split; [|split; [|split]].
  - intros -> Hs. rewrite Z.eqb_refl in Hout.
    replace (side2 >? 0) with true in Hout by (symmetry; apply Z.gtb_lt; lia).
    destruct (rf bsdf) as [df|]; [|exact Hout].
    intros Hfl _. rewrite Hfl in Hout. rewrite Hout. apply Hm.
  - intros -> Hs. rewrite Z.eqb_refl in Hout.
    replace (side2 >? 0) with false in Hout
      by (symmetry; rewrite Z.gtb_ltb; apply Z.ltb_ge; lia).
    destruct (rb bsdf) as [df|]; [|exact Hout].
    intros Hfl _. rewrite Hfl in Hout. rewrite Hout. apply Hm.
  - intros Hs.
    replace (side1 =? side2) with false in Hout by (symmetry; apply Z.eqb_neq, Hs).
    destruct (tf bsdf) as [df|], (tb bsdf); try exact Hout.
    intros Hfl _. rewrite Hfl in Hout. rewrite Hout. apply Hm.
  - intros Hfl. rewrite Hfl in Hout. rewrite Hout.
    destruct (if side1 =? side2 then _ else _); split; reflexivity.
Qed.

(** C10: the check looks at the matrix flag it is given and at nothing
    else of the representation.  With the flag set it reads the data of
    the operative slot's first component as a matrix and tests the bin
    pairs of that matrix, whatever method table the component points to:
    the events are the reverse calls for the tested pairs of the data
    read as a matrix and the line that closes them (the counts read
    being in the range of a loaded matrix).  With the flag clear it
    prints the line of zeros, also for a matrix component.  The flag the
    classifier hands over is set exactly when the first slot present in
    the order tb, tf, rf, rb starts with a matrix component. *)
Theorem C10_dispatch_on_flag (nm : string) (side1 side2 : Z) (bsdf : SDData)
        (df : SDSpectralDF) :
  operative_slot side1 side2 bsdf = Some df ->
  (forall fl, has_flag fl F_MATRIX = true ->
     loadable (as_SDMat (dist (comp_0 df))) ->
     checkReciprocity FTINY FHUGE SDevalBSDF nm side1 side2 bsdf fl =
     check_of_matrix FTINY FHUGE SDevalBSDF nm (as_SDMat (dist (comp_0 df))) bsdf)
  /\ (forall fl, has_flag fl F_MATRIX = false ->
     checkReciprocity FTINY FHUGE SDevalBSDF nm side1 side2 bsdf fl
     = [ev_printf fmt_nothing2do [arg_s nm]])
  /\ (forall f0 fl, snd (getBSDFtype bsdf (Some f0)) = Some fl ->
     (has_flag fl F_MATRIX = true <->
      exists df1, first_present bsdf = Some df1 /\ func (comp_0 df1) = SDhandleMtx)).
Proof.
  intros Hdf. split; [|split].
  - intros fl Hfl _. rewrite checkReciprocity_slot, Hdf, Hfl, sample_matrix_visit.
    exact (check_in_order_spec nm (as_SDMat (dist (comp_0 df))) bsdf
                               (bin_pairs (as_SDMat (dist (comp_0 df))))).
  - intros fl Hfl. rewrite checkReciprocity_slot, Hdf, Hfl. reflexivity.
  - intros f0 fl H. split.
    + intros Hfl. destruct (first_present bsdf) as [df1|] eqn:Hfp.
      * exists df1. split; [reflexivity|].
        revert H Hfl. first_slot bsdf Hfp.
        all: destruct (func (comp_0 df1)); cbn [SDFunc_eqb]; try reflexivity.
        all: try (cbn [snd]; intros [= <-]; discriminate).
        all: set (t1 := as_SDTre (dist (comp_0 df1))).
        all: destruct (ndim (stc_0 t1) =? 4); [|destruct (ndim (stc_0 t1) =? 3)];
          cbn [snd option_map]; intros [= <-]; destruct (stc_1 t1); cbn; discriminate.
      * exfalso. revert H Hfl. first_slot bsdf Hfp.
        cbn [snd]. intros [= <-]. discriminate.
    + intros (df1 & Hdf1 & Hf). revert H. first_slot bsdf Hdf1.
      all: rewrite Hf; cbn [SDFunc_eqb].
      all: set (m1 := as_SDMat (dist (comp_0 df1))).
      all: destruct (ninc m1 =? 145), (ninc m1 =? 73), (ninc m1 =? 41); cbn [snd];
        intros [= <-]; destruct (chroma m1); reflexivity.
Qed.

(** C1: in the matrix check, every bin pair whose two directions are
    reconstructed and whose forward value exceeds the threshold is
    tested; the evaluator is called for the tested pairs in turn, up to
    a first failure, with the reconstructed outgoing direction as the
    query's incoming direction and the reconstructed incoming direction
    as the query's outgoing direction; and the reverse value in the
    relative error of a pair is the value of that call. *)
Theorem C1_reverse_direction_pair (nm : string) (side1 side2 : Z) (bsdf : SDData)
        (fl : Z) (df : SDSpectralDF) :
  operative_slot side1 side2 bsdf = Some df ->
  has_flag fl F_MATRIX = true ->
  let m := as_SDMat (dist (comp_0 df)) in
  loadable m ->
  let T := tested_pairs FTINY m (bin_pairs m) in
  let out := checkReciprocity FTINY FHUGE SDevalBSDF nm side1 side2 bsdf fl in
  (forall i o vin vout,
     0 <= i < ninc m -> 0 <= o < nout m ->
     mBSDF_incvec m (dadd (double_of_int i) d_half) = Some vin ->
     mBSDF_outvec m (dadd (double_of_int o) d_half) = Some vout ->
     dlt FTINY (mBSDF_value m o i) = true ->
     In {| t_in := vin; t_out := vout; t_forward := mBSDF_value m o i |} T)
  /\ evaluator_calls out
     = map (fun t => (t_out t, t_in t)) (evaluated_pairs SDevalBSDF bsdf T)
  /\ (first_failure SDevalBSDF bsdf T = None -> T <> [] ->
     out = map (fun t => ev_SDevalBSDF (t_out t) (t_in t)) T ++
           [statistics_line FHUGE nm
              (map (fun t => relative_error
                               (t_forward t)
                               (cieY (snd (SDevalBSDF (t_out t) (t_in t) bsdf)))) T)]).
Proof.
  intros Hdf Hfl m Hm T out. unfold out.
  rewrite (checkReciprocity_matrix nm side1 side2 bsdf fl df Hdf Hfl).
  fold m. rewrite check_in_order_spec. fold T.
  split; [|split].
  - intros i o vin vout Hi Ho Hin Hout Hv.
    apply (In_tested_pairs m (bin_pairs m) (i, o)).
    + apply In_bin_pairs; assumption.
    + unfold test_of_pair. rewrite Hin, Hout, (dlt_not_dle _ _ Hv). reflexivity.
  - destruct (first_failure SDevalBSDF bsdf T) as [ec|] eqn:Hff.
    + rewrite evaluator_calls_app, evaluator_calls_calls. apply app_nil_r.
    + rewrite evaluator_calls_app, evaluator_calls_calls.
      assert (He : evaluated_pairs SDevalBSDF bsdf T = T).
      { clear -Hff. induction T as [|t T' IH]; [reflexivity|].
        cbn [first_failure evaluated_pairs] in *.
        destruct (eval_fails SDevalBSDF bsdf t); [discriminate|].
        rewrite IH by assumption. reflexivity. }
      rewrite He. clear He Hff.
      destruct T as [|t T']; cbn [evaluator_calls print_nothing2do statistics_line];
        apply app_nil_r.
  - intros Hff HT. rewrite Hff. destruct T as [|t T']; [contradiction|]. reflexivity.
Qed.

(** C2, as the code has it: a pair whose forward value is within the
    threshold is not tested and contributes nothing; every tested pair
    contributes the relative error 100 |forward - reverse| / forward.
    Provided no evaluation fails: with no tested pair the line of zeros
    is printed; and when no relative error is a NaN and at least one is
    below FHUGE, the line printed carries the minimum over the tested
    pairs, the sum divided by the count, and the maximum over the tested
    pairs. *)
Theorem C2_statistics (nm : string) (side1 side2 : Z) (bsdf : SDData)
        (fl : Z) (df : SDSpectralDF) :
  dle d0 FTINY = true ->
  operative_slot side1 side2 bsdf = Some df ->
  has_flag fl F_MATRIX = true ->
  let m := as_SDMat (dist (comp_0 df)) in
  loadable m ->
  let T := tested_pairs FTINY m (bin_pairs m) in
  first_failure SDevalBSDF bsdf T = None ->
  let E := map (fun t =>
                  ddiv (dmul d100 (fabs (dsub (t_forward t)
                                              (cieY (snd (reverse_eval SDevalBSDF bsdf t))))))
                       (t_forward t)) T in
  let out := checkReciprocity FTINY FHUGE SDevalBSDF nm side1 side2 bsdf fl in
  (forall i o, dle (mBSDF_value m o i) FTINY = true -> test_of_pair FTINY m (i, o) = None)
  /\ (T = [] -> out = [ev_printf fmt_nothing2do [arg_s nm]])
  /\ (no_nan E = true -> existsb (fun e => dlt e FHUGE) E = true ->
      exists lo hi,
        minimum_over E = Some lo
        /\ maximum_over E = Some hi
        /\ out = map reverse_call T ++
                [ev_printf fmt_errors
                   [arg_s nm;
                    arg_f lo;
                    arg_f (ddiv (sum_errors E) (double_of_int (Z.of_nat (List.length E))));
                    arg_f hi]]).
Proof.
  intros H0 Hdf Hfl m Hm T Hff E out.
  assert (Hout : out = map reverse_call T ++
                       match T with
                       | [] => print_nothing2do nm
                       | _ :: _ => [statistics_line FHUGE nm E]
                       end).
  { unfold out. rewrite (checkReciprocity_matrix nm side1 side2 bsdf fl df Hdf Hfl).
    fold m. rewrite check_in_order_spec. fold T. rewrite Hff. reflexivity. }
  split; [|split].
  - intros i o Hv. unfold test_of_pair.
    destruct (mBSDF_incvec m _); [|reflexivity].
    destruct (mBSDF_outvec m _); [|reflexivity].
    rewrite Hv. reflexivity.
  - intros HT. rewrite Hout, HT. reflexivity.
  - intros Hnan Hlow.
    pose proof (errors_sign m bsdf (bin_pairs m) H0) as HS.
    change (Forall (fun e => plus_or_nan e = true) E) in HS.
    assert (Hpos : Forall (fun e => positive_sign e = true) E).
    { apply Forall_forall. intros e He.
      pose proof (proj1 (Forall_forall _ _) HS e He) as H1.
      pose proof (proj1 (forallb_forall _ _) Hnan e He) as H2.
      apply negb_true_iff in H2.
      destruct (plus_or_nan_cases _ H1); congruence. }
    rewrite Hout. unfold statistics_line, mean_error.
    destruct T as [|t T']; [discriminate Hlow|].
    cbn [map] in E. set (e := error_of SDevalBSDF bsdf t) in *.
    set (l := map (error_of SDevalBSDF bsdf) T') in *.
    exists (running_min e l), (running_max e l).
    split; [reflexivity|split; [reflexivity|]].
    assert (HE : E = e :: l) by reflexivity.
    clearbody E. subst E.
    rewrite (running_min_is_minimum FHUGE e l Hpos Hlow).
    rewrite (running_max_is_maximum e l) by (inversion Hpos; assumption).
    reflexivity.
Qed.

(** C7: when the evaluation of a tested pair fails, the events of the
    check are the evaluator calls for the tested pairs up to the first
    failing one and the diagnostic of that failure; no later pair is
    evaluated and nothing is printed on the standard output, neither a
    statistic nor the line of zeros. *)
Theorem C7_abort_on_failure (nm : string) (side1 side2 : Z) (bsdf : SDData)
        (fl : Z) (df : SDSpectralDF) :
  operative_slot side1 side2 bsdf = Some df ->
  has_flag fl F_MATRIX = true ->
  let m := as_SDMat (dist (comp_0 df)) in
  loadable m ->
  let T := tested_pairs FTINY m (bin_pairs m) in
  existsb (eval_fails SDevalBSDF bsdf) T = true ->
  exists pre t post,
    T = pre ++ t :: post
    /\ forallb (fun t' => negb (eval_fails SDevalBSDF bsdf t')) pre = true
    /\ eval_fails SDevalBSDF bsdf t = true
    /\ checkReciprocity FTINY FHUGE SDevalBSDF nm side1 side2 bsdf fl
       = map reverse_call pre ++
         [reverse_call t; ev_stderr (fst (reverse_eval SDevalBSDF bsdf t))].
Proof.
  intros Hdf Hfl m Hm T HE.
  assert (HE' : Exists (fun t => eval_fails SDevalBSDF bsdf t = true) T).
  { apply Exists_exists. apply existsb_exists in HE. exact HE. }
  destruct (first_failing_split bsdf T HE') as (pre & t & post & HT & Hpre & Ht).
  exists pre, t, post. repeat split; try assumption.
  { apply forallb_forall. intros t' Ht'. apply negb_true_iff.
    exact (proj1 (Forall_forall _ _) Hpre t' Ht'). }
  rewrite (checkReciprocity_matrix nm side1 side2 bsdf fl df Hdf Hfl).
  fold m. rewrite check_in_order_spec. fold T. rewrite HT.
  destruct (first_failure_at bsdf pre post t Hpre Ht) as [-> ->].
  rewrite map_app, <- app_assoc. reflexivity.
Qed.

(** C6, as the code has it: visiting the bin pairs in any other order
    prints the same minimum and the same maximum, and prints a statistic
    in the same cases; each mean is the running sum of the same relative
    errors, added in the order of the visit, over the same count. *)
Theorem C6_min_max_order_independent (nm : string) (side1 side2 : Z) (bsdf : SDData)
        (fl : Z) (df : SDSpectralDF) (order : list (Z * Z)) :
  dle d0 FTINY = true ->
  operative_slot side1 side2 bsdf = Some df ->
  has_flag fl F_MATRIX = true ->
  let m := as_SDMat (dist (comp_0 df)) in
  loadable m ->
  Permutation order (bin_pairs m) ->
  let permuted := check_in_order FTINY FHUGE SDevalBSDF nm m bsdf order in
  let documented := checkReciprocity FTINY FHUGE SDevalBSDF nm side1 side2 bsdf fl in
  let E' := map (error_of SDevalBSDF bsdf) (tested_pairs FTINY m order) in
  let E := map (error_of SDevalBSDF bsdf) (tested_pairs FTINY m (bin_pairs m)) in
  map min_max (printed_errors permuted) = map min_max (printed_errors documented)
  /\ Permutation E' E
  /\ (forall a b c, In (a, b, c) (printed_errors permuted) -> b = mean_error E')
  /\ (forall a b c, In (a, b, c) (printed_errors documented) -> b = mean_error E).
Proof.
  intros H0 Hdf Hfl m Hm HP permuted documented E' E.
  unfold permuted, documented.
  rewrite (checkReciprocity_matrix nm side1 side2 bsdf fl df Hdf Hfl). fold m.
  rewrite !printed_check_in_order. fold E' E.
  pose proof (tested_pairs_perm m _ _ HP) as HT.
  assert (HE : Permutation E' E) by (apply Permutation_map, HT).
  split; [|split; [exact HE|split]].
  - destruct (first_failure SDevalBSDF bsdf (tested_pairs FTINY m order)) eqn:Hf1.
    + destruct (first_failure SDevalBSDF bsdf (tested_pairs FTINY m (bin_pairs m))) eqn:Hf2.
      * reflexivity.
      * rewrite (first_failure_perm bsdf _ _ (Permutation_sym HT) Hf2) in Hf1. discriminate.
    + rewrite (first_failure_perm bsdf _ _ HT Hf1).
      pose proof (errors_sign m bsdf order H0) as HS. fold E' in HS.
      rewrite (running_min_perm FHUGE E' E HE HS), (running_max_perm d0 E' E HE HS).
      destruct (tested_pairs FTINY m order) as [|t1 T1] eqn:H1,
               (tested_pairs FTINY m (bin_pairs m)) as [|t2 T2] eqn:H2; try reflexivity.
      * apply Permutation_nil in HT. discriminate.
      * apply Permutation_sym, Permutation_nil in HT. discriminate.
  - intros a b c.
    destruct (first_failure SDevalBSDF bsdf _); [contradiction|].
    destruct (tested_pairs FTINY m order); [contradiction|].
    intros [[= _ <- _]|[]]. reflexivity.
  - intros a b c.
    destruct (first_failure SDevalBSDF bsdf _); [contradiction|].
    destruct (tested_pairs FTINY m (bin_pairs m)); [contradiction|].
    intros [[= _ <- _]|[]]. reflexivity.
Qed.

(** C9, as the code has it: when a statistic is printed and no relative
    error is a NaN, the minimum is at most the maximum and the minimum,
    the mean and the maximum are not negative.  (The mean is the rounded
    sum divided by the count and need not lie between the two.) *)
Theorem C9_statistics_ordered (nm : string) (side1 side2 : Z) (bsdf : SDData)
        (fl : Z) (df : SDSpectralDF) :
  dle d0 FTINY = true -> dle d0 FHUGE = true ->
  operative_slot side1 side2 bsdf = Some df ->
  has_flag fl F_MATRIX = true ->
  let m := as_SDMat (dist (comp_0 df)) in
  loadable m ->
  no_nan (map (error_of SDevalBSDF bsdf) (tested_pairs FTINY m (bin_pairs m))) = true ->
  forall emin eavg emax,
    In (emin, eavg, emax)
       (printed_errors (checkReciprocity FTINY FHUGE SDevalBSDF nm side1 side2 bsdf fl)) ->
    dle emin emax = true
    /\ dle d0 emin = true /\ dle d0 eavg = true /\ dle d0 emax = true.
Proof.
  intros H0 HH Hdf Hfl m Hm Hnan' a b c.
  assert (Hnan : Forall (fun e => is_nan e = false)
                        (map (error_of SDevalBSDF bsdf) (tested_pairs FTINY m (bin_pairs m)))).
  { apply Forall_forall. intros e He.
    apply negb_true_iff, (proj1 (forallb_forall _ _) Hnan' e He). }
  clear Hnan'.
  rewrite (checkReciprocity_matrix nm side1 side2 bsdf fl df Hdf Hfl). fold m.
  rewrite printed_check_in_order.
  pose proof (errors_sign m bsdf (bin_pairs m) H0) as HS.
  pose proof (length_tested_pairs m (bin_pairs m)) as Hlen.
  rewrite length_bin_pairs in Hlen.
  set (T := tested_pairs FTINY m (bin_pairs m)) in *.
  set (E := map (error_of SDevalBSDF bsdf) T) in *.
  destruct (first_failure SDevalBSDF bsdf T); [contradiction|].
  assert (HlenE : List.length E = List.length T) by apply length_map.
  destruct T as [|t T'] eqn:HT; [contradiction|].
  intros [[= <- <- <-]|[]].
  assert (Hpos : Forall (fun e => positive_sign e = true) E).
  { apply Forall_forall. intros e He.
    pose proof (proj1 (Forall_forall _ _) HS e He) as H1.
    pose proof (proj1 (Forall_forall _ _) Hnan e He) as H2.
    destruct (plus_or_nan_cases _ H1); congruence. }
  assert (Hhead : In (error_of SDevalBSDF bsdf t) E) by (left; reflexivity).
  pose proof (proj1 (Forall_forall _ _) Hnan _ Hhead) as Hhn.
  destruct (dle_not_nan _ _ HH) as [_ HHn].
  repeat split.
  - apply dle_trans with (error_of SDevalBSDF bsdf t).
    + exact (running_min_le E _ FHUGE HHn Hhn Hhead).
    + exact (running_max_ge E _ d0 eq_refl Hhn Hhead).
  - apply (running_min_nonneg E FHUGE HH).
    eapply Forall_impl; [|exact Hpos]. intros e; apply dle_zero_positive.
  - apply dle_zero_positive. unfold mean_error.
    destruct (double_of_int_finite (Z.of_nat (List.length E))) as (mm & ee & Hfin).
    { destruct Hm as (Hi & Ho & Hio). rewrite HlenE. cbn [List.length] in *.
      split; [lia|]. nia. }
    eapply ddiv_positive; [|exact Hfin].
    apply (sum_positive E d0 eq_refl Hpos).
  - exact (running_max_ge_start E d0 eq_refl).
Qed.

End Reciprocity.

(** * The claims on the worked instances *)

(** The constants of the instances are doubles in normal form. *)
Example constants_valid :
  forallb (valid_binary 53 1024)
          [d_half; d1; d2; d100; d360; M_PI; d_0_9465; d_0_003; d_1e9;
           Radiance_FTINY; Radiance_FHUGE] = true.
Proof. reflexivity. Qed.

(** Transmission between two 41 x 41 matrices of ones with an evaluator
    that gives 1.0: the type is "Klems_Quarter" and the statistic is
    three zeros over 1681 pairs. *)
Example klems_quarter_reciprocal :
  getBSDFtype (ex_data None None (Some (ex_matrix_comp (ex_ones 41 41)))
                       (Some (ex_matrix_comp (ex_ones 41 41)))) (Some 0)
  = ("Klems_Quarter"%string, Some F_MATRIX)
  /\ printed_errors
       (checkReciprocity Radiance_FTINY Radiance_FHUGE (ex_eval d1) "Transmission" (-1) 1
                         (ex_data None None (Some (ex_matrix_comp (ex_ones 41 41)))
                                  (Some (ex_matrix_comp (ex_ones 41 41)))) F_MATRIX)
     = [(d0, d0, d0)]
  /\ List.length (ex_tested (ex_ones 41 41)) = 1681%nat.
Proof. vm_compute. repeat split. Qed.

(** The matrices of the instances are in the range of the loops. *)
Lemma loadable_ex_matrix (ni no : Z) (value : Z -> Z -> double) :
  0 <= ni -> 0 <= no -> ni * no < 2 ^ 31 -> loadable (ex_matrix ni no value).
Proof. intros; unfold loadable; cbn [ninc nout ex_matrix]; auto. Defined.

(** On a 2 x 2 matrix of ones with an evaluator that gives 1.0, the
    four calls pass the outgoing direction first. *)
Lemma C1_witness :
  operative_slot 1 1 (ex_front (ex_ones 2 2)) = Some (ex_matrix_comp (ex_ones 2 2))
  /\ has_flag F_MATRIX F_MATRIX = true
  /\ loadable (ex_ones 2 2)
  /\ evaluator_calls (ex_check (ex_eval d1) (ex_ones 2 2))
     = map (fun t => (t_out t, t_in t))
           (evaluated_pairs (ex_eval d1) (ex_front (ex_ones 2 2)) (ex_tested (ex_ones 2 2))).
Proof.
  assert (H1 : operative_slot 1 1 (ex_front (ex_ones 2 2))
               = Some (ex_matrix_comp (ex_ones 2 2))) by reflexivity.
  assert (H2 : has_flag F_MATRIX F_MATRIX = true) by reflexivity.
  assert (H3 : loadable (ex_ones 2 2)) by (apply loadable_ex_matrix; lia).
  split; [exact H1|split; [exact H2|split; [exact H3|]]].
  exact (proj1 (proj2 (C1_reverse_direction_pair
                         Radiance_FTINY Radiance_FHUGE (ex_eval d1) "Front Refl" 1 1
                         (ex_front (ex_ones 2 2)) F_MATRIX (ex_matrix_comp (ex_ones 2 2))
                         H1 H2 H3))).
Defined.

(** Two runs on which the line printed is not the triple of the
    claim.  With three tested pairs of which the second evaluation
    fails, one pair has been accumulated and nothing is printed.  With
    one pair of forward value 1.0 and reverse value 1e9, the relative
    error is 99999999900 and the minimum printed is FHUGE, 1e10, which
    is not the minimum over the tested pairs. *)
Lemma C2_counterexample :
  (map (eval_fails ex_eval_failing (ex_front (ex_ones 1 3))) (ex_tested (ex_ones 1 3))
   = [false; true; false]
   /\ ex_check ex_eval_failing (ex_ones 1 3)
      = map reverse_call (firstn 2 (ex_tested (ex_ones 1 3))) ++ [ev_stderr 5]
   /\ printed_errors (ex_check ex_eval_failing (ex_ones 1 3)) = [])
  /\
  (printed_errors (ex_check (ex_eval d_1e9) (ex_ones 1 1))
   = [(Radiance_FHUGE, dlit 99999999900 0, dlit 99999999900 0)]
   /\ ex_errors (ex_eval d_1e9) (ex_ones 1 1) = [dlit 99999999900 0]
   /\ minimum_over (ex_errors (ex_eval d_1e9) (ex_ones 1 1)) <> Some Radiance_FHUGE
   /\ dlt Radiance_FHUGE (dlit 99999999900 0) = true
   /\ printed_tenths Radiance_FHUGE = Some 100000000000
   /\ printed_tenths (dlit 99999999900 0) = Some 999999999000).
Proof.
  split.
  - vm_compute. repeat split.
  - split; [vm_compute; reflexivity|].
    split; [vm_compute; reflexivity|].
    split; [vm_compute; intros H; discriminate H|].
    vm_compute. repeat split.
Qed.

(** On [ex_row] with reverse value 0.003, the minimum and the maximum
    printed are those over the three relative errors. *)
Lemma C2_witness :
  dle d0 Radiance_FTINY = true
  /\ operative_slot 1 1 (ex_front ex_row) = Some (ex_matrix_comp ex_row)
  /\ has_flag F_MATRIX F_MATRIX = true
  /\ loadable ex_row
  /\ first_failure (ex_eval d_0_003) (ex_front ex_row) (ex_tested ex_row) = None
  /\ no_nan (ex_errors (ex_eval d_0_003) ex_row) = true
  /\ existsb (fun e => dlt e Radiance_FHUGE) (ex_errors (ex_eval d_0_003) ex_row) = true
  /\ exists lo hi,
      minimum_over (ex_errors (ex_eval d_0_003) ex_row) = Some lo
      /\ maximum_over (ex_errors (ex_eval d_0_003) ex_row) = Some hi
      /\ printed_errors (ex_check (ex_eval d_0_003) ex_row)
         = [(lo, mean_error (ex_errors (ex_eval d_0_003) ex_row), hi)].
Proof.
  assert (H0 : dle d0 Radiance_FTINY = true) by reflexivity.
  assert (H1 : operative_slot 1 1 (ex_front ex_row) = Some (ex_matrix_comp ex_row))
    by reflexivity.
  assert (H2 : has_flag F_MATRIX F_MATRIX = true) by reflexivity.
  assert (H3 : loadable ex_row) by (apply loadable_ex_matrix; lia).
  assert (H4 : first_failure (ex_eval d_0_003) (ex_front ex_row) (ex_tested ex_row) = None)
    by reflexivity.
  assert (H5 : no_nan (ex_errors (ex_eval d_0_003) ex_row) = true)
    by (vm_compute; reflexivity).
  assert (H6 : existsb (fun e => dlt e Radiance_FHUGE)
                       (ex_errors (ex_eval d_0_003) ex_row) = true)
    by (vm_compute; reflexivity).
  split; [exact H0|split; [exact H1|split; [exact H2|split; [exact H3|
    split; [exact H4|split; [exact H5|split; [exact H6|]]]]]]].
  destruct (proj2 (proj2 (C2_statistics Radiance_FTINY Radiance_FHUGE (ex_eval d_0_003)
                                        "Front Refl" 1 1 (ex_front ex_row) F_MATRIX
                                        (ex_matrix_comp ex_row) H0 H1 H2 H3 H4)) H5 H6)
    as (lo & hi & Hlo & Hhi & Hout).
  exists lo, hi. split; [exact Hlo|split; [exact Hhi|]].
  unfold ex_check. rewrite Hout, printed_errors_app, printed_errors_calls. reflexivity.
Defined.

(** In [ex_sides] the front reflection check calls the evaluator for the
    two pairs of the 1 x 2 matrix of rf, the transmission check for the
    two pairs of the 2 x 1 matrix of tf, and the back reflection check
    prints the line of zeros. *)
Lemma C3_witness :
  1 = 1 /\ 1 > 0 /\ (-1) = (-1) /\ (-1) <= 0 /\ (-1) <> 1
  /\ has_flag F_MATRIX F_MATRIX = true
  /\ loadable (ex_ones 1 2) /\ loadable (ex_ones 2 1)
  /\ checkReciprocity Radiance_FTINY Radiance_FHUGE (ex_eval d1)
                      "Front Refl" 1 1 ex_sides F_MATRIX
     = [ev_SDevalBSDF ex_dir_1 ex_dir_0; ev_SDevalBSDF ex_dir_0 ex_dir_0;
        ev_printf fmt_errors [arg_s "Front Refl"; arg_f d0; arg_f d0; arg_f d0]]
  /\ checkReciprocity Radiance_FTINY Radiance_FHUGE (ex_eval d1)
                      "Back Refl" (-1) (-1) ex_sides F_MATRIX
     = [ev_printf fmt_nothing2do [arg_s "Back Refl"]]
  /\ checkReciprocity Radiance_FTINY Radiance_FHUGE (ex_eval d1)
                      "Transmission" (-1) 1 ex_sides F_MATRIX
     = [ev_SDevalBSDF ex_dir_0 ex_dir_1; ev_SDevalBSDF ex_dir_0 ex_dir_0;
        ev_printf fmt_errors [arg_s "Transmission"; arg_f d0; arg_f d0; arg_f d0]].
Proof.
  assert (Hf : has_flag F_MATRIX F_MATRIX = true) by reflexivity.
  assert (H12 : loadable (ex_ones 1 2)) by (apply loadable_ex_matrix; lia).
  assert (H21 : loadable (ex_ones 2 1)) by (apply loadable_ex_matrix; lia).
  split; [reflexivity|split; [lia|split; [reflexivity|split; [lia|split; [lia|
    split; [exact Hf|split; [exact H12|split; [exact H21|]]]]]]]].
  split; [|split].
  - refine (eq_trans
              (proj1 (C3_operative_component
                        Radiance_FTINY Radiance_FHUGE (ex_eval d1) "Front Refl" 1 1
                        ex_sides F_MATRIX) eq_refl ltac:(lia) Hf H12) _).
    vm_compute. reflexivity.
  - exact (proj1 (proj2 (C3_operative_component
                           Radiance_FTINY Radiance_FHUGE (ex_eval d1) "Back Refl" (-1) (-1)
                           ex_sides F_MATRIX))
                 eq_refl ltac:(lia)).
  - refine (eq_trans
              (proj1 (proj2 (proj2 (C3_operative_component
                        Radiance_FTINY Radiance_FHUGE (ex_eval d1) "Transmission" (-1) 1
                        ex_sides F_MATRIX))) ltac:(lia) Hf H21) _).
    vm_compute. reflexivity.
Defined.

(** The names the classifier returns for no component, for a matrix of
    145 rows and for one of 7 rows are not the names with spaces. *)
Lemma C4_names_have_underscores :
  getBSDFtype ex_lambertian (Some 0) = ("Pure_Lambertian"%string, Some 0)
  /\ fst (getBSDFtype ex_lambertian (Some 0)) <> "Pure Lambertian"%string
  /\ getBSDFtype (ex_front (ex_ones 145 145)) (Some 0)
     = ("Klems_Full"%string, Some F_MATRIX)
  /\ fst (getBSDFtype (ex_front (ex_ones 145 145)) (Some 0)) <> "Klems Full"%string
  /\ getBSDFtype (ex_front (ex_ones 7 7)) (Some 0)
     = ("Unknown_Matrix"%string, Some F_MATRIX)
  /\ fst (getBSDFtype (ex_front (ex_ones 7 7)) (Some 0)) <> "Unknown Matrix"%string.
Proof. repeat split; intros H; discriminate H. Qed.

(** A matrix of 145 rows in front reflection, without chroma data. *)
Lemma C4_witness :
  first_present (ex_front (ex_ones 145 145)) = Some (ex_matrix_comp (ex_ones 145 145))
  /\ func (comp_0 (ex_matrix_comp (ex_ones 145 145))) = SDhandleMtx
  /\ exists fl,
      getBSDFtype (ex_front (ex_ones 145 145)) (Some 0) = ("Klems_Full"%string, Some fl)
      /\ has_flag fl F_MATRIX = true
      /\ has_flag fl F_IN_COLOR = false.
Proof.
  split; [reflexivity|split; [reflexivity|]].
  destruct (proj1 (proj2 (C4_matrix_classification (ex_front (ex_ones 145 145)) 0))
                  (ex_matrix_comp (ex_ones 145 145)) eq_refl eq_refl)
    as (fl & Hty & Hm & Hc & _).
  exists fl. split; [exact Hty|split; [exact Hm|exact Hc]].
Defined.

(** The names the classifier returns for trees of dimension 3, 4 and 5
    are not the names with spaces. *)
Lemma C5_names_have_underscores :
  getBSDFtype (ex_front_tree 3) (Some 0)
  = ("Isotropic_Tensor_Tree"%string, Some (Z.lor F_TTREE F_ISOTROPIC))
  /\ fst (getBSDFtype (ex_front_tree 3) (Some 0)) <> "Isotropic Tensor Tree"%string
  /\ getBSDFtype (ex_front_tree 4) (Some 0)
     = ("Anisotropic_Tensor_Tree"%string, Some F_TTREE)
  /\ fst (getBSDFtype (ex_front_tree 4) (Some 0)) <> "Anisotropic Tensor Tree"%string
  /\ getBSDFtype (ex_front_tree 5) (Some 0)
     = ("Unknown_Tensor_Tree"%string, Some F_TTREE)
  /\ fst (getBSDFtype (ex_front_tree 5) (Some 0)) <> "Unknown Tensor Tree"%string.
Proof. repeat split; intros H; discriminate H. Qed.

(** A tree of dimension 3 in front reflection, without a second tree. *)
Lemma C5_witness :
  first_present (ex_front_tree 3) = Some (ex_tree_comp (ex_tree 3) (ex_ones 0 0))
  /\ func (comp_0 (ex_tree_comp (ex_tree 3) (ex_ones 0 0))) = SDhandleTre
  /\ exists fl,
      getBSDFtype (ex_front_tree 3) (Some 0) = ("Isotropic_Tensor_Tree"%string, Some fl)
      /\ has_flag fl F_TTREE = true
      /\ has_flag fl F_ISOTROPIC = true.
Proof.
  split; [reflexivity|split; [reflexivity|]].
  destruct (C5_tree_classification (ex_front_tree 3) 0
              (ex_tree_comp (ex_tree 3) (ex_ones 0 0)) eq_refl eq_refl)
    as (fl & Hty & Ht & Hi & _).
  exists fl. split; [exact Hty|split; [exact Ht|exact Hi]].
Defined.

(** The ascending order is the documented order reversed. *)
Lemma ex_ascending_perm : Permutation ex_ascending (bin_pairs ex_row).
Proof. exact (Permutation_rev ex_ascending). Defined.

(** Three pairs with forward values 1.0, 2.0 and 0.5 and reverse value
    0.003: the relative errors are 99.7, 99.85 and 99.4.  In the order of
    the loops the mean is printed as 99.6, from the first outgoing bin to
    the last as 99.7; minimum and maximum are the same. *)
Lemma C6_mean_depends_on_order :
  Permutation ex_ascending (bin_pairs ex_row)
  /\ printed_errors (ex_check (ex_eval d_0_003) ex_row)
     = [(S754_finite false 6994653171259802 (-46),
         S754_finite false 7012245357304217 (-46),
         S754_finite false 7026319106139751 (-46))]
  /\ printed_errors (check_in_order Radiance_FTINY Radiance_FHUGE (ex_eval d_0_003)
                                    "Front Refl" ex_row (ex_front ex_row) ex_ascending)
     = [(S754_finite false 6994653171259802 (-46),
         S754_finite false 7012245357304219 (-46),
         S754_finite false 7026319106139751 (-46))]
  /\ printed_errors (check_in_order Radiance_FTINY Radiance_FHUGE (ex_eval d_0_003)
                                    "Front Refl" ex_row (ex_front ex_row) ex_ascending)
     <> printed_errors (ex_check (ex_eval d_0_003) ex_row)
  /\ printed_tenths (S754_finite false 7012245357304217 (-46)) = Some 996
  /\ printed_tenths (S754_finite false 7012245357304219 (-46)) = Some 997.
Proof.
  split; [exact ex_ascending_perm|].
  split; [vm_compute; reflexivity|].
  split; [vm_compute; reflexivity|].
  split; [vm_compute; intros H; discriminate H|].
  vm_compute. repeat split.
Qed.

(** On the same instance the minimum and the maximum printed do not
    depend on the order. *)
Lemma C6_witness :
  dle d0 Radiance_FTINY = true
  /\ operative_slot 1 1 (ex_front ex_row) = Some (ex_matrix_comp ex_row)
  /\ has_flag F_MATRIX F_MATRIX = true
  /\ loadable ex_row
  /\ Permutation ex_ascending (bin_pairs ex_row)
  /\ map min_max
         (printed_errors (check_in_order Radiance_FTINY Radiance_FHUGE (ex_eval d_0_003)
                                         "Front Refl" ex_row (ex_front ex_row) ex_ascending))
     = map min_max (printed_errors (ex_check (ex_eval d_0_003) ex_row)).
Proof.
  assert (H0 : dle d0 Radiance_FTINY = true) by reflexivity.
  assert (H1 : operative_slot 1 1 (ex_front ex_row) = Some (ex_matrix_comp ex_row))
    by reflexivity.
  assert (H2 : has_flag F_MATRIX F_MATRIX = true) by reflexivity.
  assert (H3 : loadable ex_row) by (apply loadable_ex_matrix; lia).
  split; [exact H0|split; [exact H1|split; [exact H2|split; [exact H3|
    split; [exact ex_ascending_perm|]]]]].
  exact (proj1 (C6_min_max_order_independent
                  Radiance_FTINY Radiance_FHUGE (ex_eval d_0_003) "Front Refl" 1 1
                  (ex_front ex_row) F_MATRIX (ex_matrix_comp ex_row) ex_ascending
                  H0 H1 H2 H3 ex_ascending_perm)).
Defined.

(** With three outgoing bins and an evaluator that fails at the second
    pair visited, the events are two calls and the diagnostic. *)
Lemma C7_witness :
  operative_slot 1 1 (ex_front (ex_ones 1 3)) = Some (ex_matrix_comp (ex_ones 1 3))
  /\ has_flag F_MATRIX F_MATRIX = true
  /\ loadable (ex_ones 1 3)
  /\ existsb (eval_fails ex_eval_failing (ex_front (ex_ones 1 3))) (ex_tested (ex_ones 1 3))
     = true
  /\ exists pre t post,
      ex_tested (ex_ones 1 3) = pre ++ t :: post
      /\ ex_check ex_eval_failing (ex_ones 1 3)
         = map reverse_call pre ++
           [reverse_call t;
            ev_stderr (fst (reverse_eval ex_eval_failing (ex_front (ex_ones 1 3)) t))].
Proof.
  assert (H1 : operative_slot 1 1 (ex_front (ex_ones 1 3))
               = Some (ex_matrix_comp (ex_ones 1 3))) by reflexivity.
  assert (H2 : has_flag F_MATRIX F_MATRIX = true) by reflexivity.
  assert (H3 : loadable (ex_ones 1 3)) by (apply loadable_ex_matrix; lia).
  assert (H4 : existsb (eval_fails ex_eval_failing (ex_front (ex_ones 1 3)))
                       (ex_tested (ex_ones 1 3)) = true) by reflexivity.
  split; [exact H1|split; [exact H2|split; [exact H3|split; [exact H4|]]]].
  destruct (C7_abort_on_failure
              Radiance_FTINY Radiance_FHUGE ex_eval_failing "Front Refl" 1 1
              (ex_front (ex_ones 1 3)) F_MATRIX (ex_matrix_comp (ex_ones 1 3))
              H1 H2 H3 H4) as (pre & t & post & HT & _ & _ & Hout).
  exists pre, t, post. split; [exact HT|exact Hout].
Defined.

(** With chromaticity (0.1f, 0.7f), the X% printed for Y close to 0.1995
    is 2.9 where the exact 100 Y cx / cy, a little below 2.85, prints as
    2.8, and so does 100 Y (cx / cy) evaluated in double precision; the
    Z% printed for Y = 0.09975 is 2.8, from 1 - cx - cy taken in single
    precision, where the exact 100 Y (1 - cx - cy) / cy, 2.8500002,
    prints as 2.9, and so does the formula in double precision. *)
Lemma C8_printed_digits_differ :
  (exists X Y Z,
      detailComponent "Internal Refl" ex_lamb_X None
      = [ev_printf fmt_lambertian [arg_s "Internal Refl"; arg_f X; arg_f Y; arg_f Z];
         ev_puts txt_no_direction]
      /\ printed_tenths X = Some 29
      /\ tenths_of (value X) = 29
      /\ tenths_of (X_percent ex_lamb_X) = 28
      /\ printed_tenths (X_percent_double ex_lamb_X) = Some 28)
  /\ (exists X Y Z,
      detailComponent "Internal Refl" ex_lamb_Z None
      = [ev_printf fmt_lambertian [arg_s "Internal Refl"; arg_f X; arg_f Y; arg_f Z];
         ev_puts txt_no_direction]
      /\ printed_tenths Z = Some 28
      /\ tenths_of (value Z) = 28
      /\ tenths_of (Z_percent ex_lamb_Z) = 29
      /\ printed_tenths (Z_percent_double ex_lamb_Z) = Some 29).
Proof.
  split; do 3 eexists; (split; [reflexivity|]); vm_compute; repeat split.
Qed.

(** For Y = 0.5 and chromaticity (0.3f, 0.3f) every operation gives a
    normal double; the exact X% and Y% are 50, and the doubles printed
    for X%, Y% and Z% are within the bounds. *)
Lemma C8_witness :
  let Y_pct := dmul d100 (cieY ex_lamb) in
  let x := double_of_float (cx (spec ex_lamb)) in
  let y := double_of_float (cy (spec ex_lamb)) in
  let d := one_minus_cx_cy (cx (spec ex_lamb)) (cy (spec ex_lamb)) in
  valid_binary 24 128 (cx (spec ex_lamb)) = true
  /\ valid_binary 24 128 (cy (spec ex_lamb)) = true
  /\ valid_binary 24 128 d = true
  /\ is_normal Y_pct = true
  /\ is_normal (dmul Y_pct x) = true
  /\ is_normal (ddiv (dmul Y_pct x) y) = true
  /\ is_normal (dmul Y_pct (double_of_float d)) = true
  /\ is_normal (ddiv (dmul Y_pct (double_of_float d)) y) = true
  /\ (X_percent ex_lamb == 50)%Q /\ (Y_percent ex_lamb == 50)%Q
  /\ (Qabs (Y_percent ex_lamb - value Y_pct) <= pow2 (-53) * Qabs (value Y_pct))%Q
  /\ (Qabs (X_percent ex_lamb - value (ddiv (dmul Y_pct x) y))
      <= pow2 (-51) * Qabs (value (ddiv (dmul Y_pct x) y)))%Q
  /\ (Qabs (100 * value (cieY ex_lamb) * value d / value (cy (spec ex_lamb))
            - value (ddiv (dmul Y_pct (double_of_float d)) y))
      <= pow2 (-51) * Qabs (value (ddiv (dmul Y_pct (double_of_float d)) y)))%Q.
Proof.
  intros Y_pct x y d.
  assert (Hx : valid_binary 24 128 (cx (spec ex_lamb)) = true) by reflexivity.
  assert (Hy : valid_binary 24 128 (cy (spec ex_lamb)) = true) by reflexivity.
  assert (Hd : valid_binary 24 128 d = true) by (vm_compute; reflexivity).
  assert (H1 : is_normal Y_pct = true) by reflexivity.
  assert (H2 : is_normal (dmul Y_pct x) = true) by (vm_compute; reflexivity).
  assert (H3 : is_normal (ddiv (dmul Y_pct x) y) = true) by (vm_compute; reflexivity).
  assert (H4 : is_normal (dmul Y_pct (double_of_float d)) = true)
    by (vm_compute; reflexivity).
  assert (H5 : is_normal (ddiv (dmul Y_pct (double_of_float d)) y) = true)
    by (vm_compute; reflexivity).
  split; [exact Hx|split; [exact Hy|split; [exact Hd|split; [exact H1|split; [exact H2|
    split; [exact H3|split; [exact H4|split; [exact H5|]]]]]]]].
  split; [vm_compute; reflexivity|split; [vm_compute; reflexivity|]].
  destruct (C8_lambertian_summary "Internal Refl" ex_lamb None) as (_ & HY & HX & HZ).
  split; [exact (HY H1)|split; [exact (HX Hx Hy H1 H2 H3)|exact (HZ Hy Hd H1 H4 H5)]].
Defined.

(** Six pairs with forward value 1.0 and reverse value 0.9465: every
    relative error is the double 5.35, printed as 5.3, and so are the
    minimum and the maximum; the mean is the next double above, printed
    as 5.4. *)
Lemma C9_mean_above_maximum :
  printed_errors (ex_check (ex_eval d_0_9465) (ex_ones 2 3))
  = [(S754_finite false 6023564501608038 (-50),
      S754_finite false 6023564501608039 (-50),
      S754_finite false 6023564501608038 (-50))]
  /\ dle (S754_finite false 6023564501608039 (-50))
         (S754_finite false 6023564501608038 (-50)) = false
  /\ printed_tenths (S754_finite false 6023564501608038 (-50)) = Some 53
  /\ printed_tenths (S754_finite false 6023564501608039 (-50)) = Some 54
  /\ no_nan (ex_errors (ex_eval d_0_9465) (ex_ones 2 3)) = true
  /\ List.length (ex_errors (ex_eval d_0_9465) (ex_ones 2 3)) = 6%nat.
Proof. vm_compute. repeat split. Qed.

(** On the same instance the minimum is at most the maximum and the
    mean is not negative. *)
Lemma C9_witness :
  dle d0 Radiance_FTINY = true
  /\ dle d0 Radiance_FHUGE = true
  /\ operative_slot 1 1 (ex_front (ex_ones 2 3)) = Some (ex_matrix_comp (ex_ones 2 3))
  /\ has_flag F_MATRIX F_MATRIX = true
  /\ loadable (ex_ones 2 3)
  /\ no_nan (ex_errors (ex_eval d_0_9465) (ex_ones 2 3)) = true
  /\ In (S754_finite false 6023564501608038 (-50),
         S754_finite false 6023564501608039 (-50),
         S754_finite false 6023564501608038 (-50))
        (printed_errors (ex_check (ex_eval d_0_9465) (ex_ones 2 3)))
  /\ dle (S754_finite false 6023564501608038 (-50))
         (S754_finite false 6023564501608038 (-50)) = true
  /\ dle d0 (S754_finite false 6023564501608039 (-50)) = true.
Proof.
  assert (H0 : dle d0 Radiance_FTINY = true) by reflexivity.
  assert (HH : dle d0 Radiance_FHUGE = true) by reflexivity.
  assert (H1 : operative_slot 1 1 (ex_front (ex_ones 2 3))
               = Some (ex_matrix_comp (ex_ones 2 3))) by reflexivity.
  assert (H2 : has_flag F_MATRIX F_MATRIX = true) by reflexivity.
  assert (H3 : loadable (ex_ones 2 3)) by (apply loadable_ex_matrix; lia).
  assert (H4 : no_nan (ex_errors (ex_eval d_0_9465) (ex_ones 2 3)) = true)
    by (vm_compute; reflexivity).
  assert (H5 : In (S754_finite false 6023564501608038 (-50),
                   S754_finite false 6023564501608039 (-50),
                   S754_finite false 6023564501608038 (-50))
                  (printed_errors (ex_check (ex_eval d_0_9465) (ex_ones 2 3))))
    by (vm_compute; left; reflexivity).
  split; [exact H0|split; [exact HH|split; [exact H1|split; [exact H2|
    split; [exact H3|split; [exact H4|split; [exact H5|]]]]]]].
  destruct (C9_statistics_ordered
              Radiance_FTINY Radiance_FHUGE (ex_eval d_0_9465) "Front Refl" 1 1
              (ex_front (ex_ones 2 3)) F_MATRIX (ex_matrix_comp (ex_ones 2 3))
              H0 HH H1 H2 H3 H4 _ _ _ H5) as (Hmm & _ & Havg & _).
  split; [exact Hmm|exact Havg].
Defined.

(** In [ex_mixed] the classifier finds the matrix of tb and sets the
    matrix flag; the front reflection check then reads the tree of rf
    through the matrix cast and calls the evaluator for the one pair of
    the 1 x 1 matrix that it reads there. *)
Lemma C10_witness :
  operative_slot 1 1 ex_mixed = Some (ex_tree_comp (ex_tree 3) (ex_ones 1 1))
  /\ func (comp_0 (ex_tree_comp (ex_tree 3) (ex_ones 1 1))) = SDhandleTre
  /\ snd (getBSDFtype ex_mixed (Some 0)) = Some F_MATRIX
  /\ has_flag F_MATRIX F_MATRIX = true
  /\ loadable (ex_ones 1 1)
  /\ checkReciprocity Radiance_FTINY Radiance_FHUGE (ex_eval d1)
                      "Front Refl" 1 1 ex_mixed F_MATRIX
     = [ev_SDevalBSDF ex_dir_0 ex_dir_0;
        ev_printf fmt_errors [arg_s "Front Refl"; arg_f d0; arg_f d0; arg_f d0]].
Proof.
  assert (H1 : operative_slot 1 1 ex_mixed
               = Some (ex_tree_comp (ex_tree 3) (ex_ones 1 1))) by reflexivity.
  assert (Hf : has_flag F_MATRIX F_MATRIX = true) by reflexivity.
  assert (Hm : loadable (ex_ones 1 1)) by (apply loadable_ex_matrix; lia).
  split; [exact H1|split; [reflexivity|split; [reflexivity|split; [exact Hf|
    split; [exact Hm|]]]]].
  refine (eq_trans
            (proj1 (C10_dispatch_on_flag
                      Radiance_FTINY Radiance_FHUGE (ex_eval d1) "Front Refl" 1 1 ex_mixed
                      (ex_tree_comp (ex_tree 3) (ex_ones 1 1)) H1)
                   F_MATRIX Hf Hm) _).
  vm_compute. reflexivity.
Defined.

(** * Further properties of the functions and of their callers *)

(** ** The classifier: flags and names *)

(** The function run on the first slot present, through every outcome
    of its tests. *)
Ltac classify bsdf :=
  unfold getBSDFtype, first_func, in_color, first_present;
  destruct (tb bsdf) as [df|];
    [|destruct (tf bsdf) as [df|];
      [|destruct (rf bsdf) as [df|]; [|destruct (rb bsdf) as [df|]]]];
  cbn [option_map fst snd];
  try (destruct (func (comp_0 df)); cbn [SDFunc_eqb];
       try destruct (ninc (as_SDMat (dist (comp_0 df))) =? 145);
       try destruct (ninc (as_SDMat (dist (comp_0 df))) =? 73);
       try destruct (ninc (as_SDMat (dist (comp_0 df))) =? 41);
       try destruct (ndim (stc_0 (as_SDTre (dist (comp_0 df)))) =? 4);
       try destruct (ndim (stc_0 (as_SDTre (dist (comp_0 df)))) =? 3);
       try destruct (chroma (as_SDMat (dist (comp_0 df))));
       try destruct (stc_1 (as_SDTre (dist (comp_0 df))));
       cbn [option_map fst snd is_Some]).

Lemma getBSDFtype_initial_flags (bsdf : SDData) (f g : Z) :
  getBSDFtype bsdf (Some f) = getBSDFtype bsdf (Some g).
Proof. classify bsdf; reflexivity. Qed.

Lemma getBSDFtype_flags_written (bsdf : SDData) (f : Z) :
  exists fl, snd (getBSDFtype bsdf (Some f)) = Some fl
             /\ has_flag fl F_MATRIX
                = match first_func bsdf with Some SDhandleMtx => true | _ => false end
             /\ has_flag fl F_IN_COLOR = in_color bsdf.
Proof. classify bsdf; eexists; (split; [reflexivity|]); split; reflexivity. Qed.

(** X1: the type name is the same with a NULL [flags] pointer as with a
    pointer, and nothing is written through a NULL pointer; with a
    pointer the flags are always written, and neither the name nor the
    flags depend on what the [int] held before the call. *)
Theorem getBSDFtype_flags_pointer (bsdf : SDData) (f g : Z) :
  fst (getBSDFtype bsdf None) = fst (getBSDFtype bsdf (Some f))
  /\ snd (getBSDFtype bsdf None) = None
  /\ getBSDFtype bsdf (Some f) = getBSDFtype bsdf (Some g)
  /\ exists fl, snd (getBSDFtype bsdf (Some f)) = Some fl.
Proof. classify bsdf; repeat split; eauto. Qed.

(** X2: the flags written are one of 0, 4, 5, 8, 9, 10 and 11, and they
    agree with the name returned: the matrix flag is set exactly with
    one of the four matrix names, the tree flag exactly with one of the
    three tree names, the isotropic flag exactly with
    "Isotropic_Tensor_Tree"; the colour flag is set exactly when the
    first slot present has colour data. *)
Theorem getBSDFtype_flags_agree (bsdf : SDData) (f0 : Z) :
  let name := fst (getBSDFtype bsdf (Some f0)) in
  exists fl,
    snd (getBSDFtype bsdf (Some f0)) = Some fl
    /\ In fl [0; 4; 5; 8; 9; 10; 11]
    /\ has_flag fl F_MATRIX = name_in matrix_names name
    /\ has_flag fl F_TTREE = name_in tree_names name
    /\ has_flag fl F_ISOTROPIC = String.eqb name "Isotropic_Tensor_Tree"
    /\ has_flag fl F_IN_COLOR = in_color bsdf.
Proof.
  classify bsdf; eexists; (split; [reflexivity|]); cbn; intuition.
Qed.

(** X3: the name tells the representation of the first slot present in
    the order tb, tf, rf, rb: "Pure_Lambertian" exactly when no slot is
    present, a matrix name exactly when its first component is a matrix,
    a tree name exactly when it is a tensor tree, and "Unknown" exactly
    when it is neither. *)
Theorem getBSDFtype_name_representation (bsdf : SDData) (flags : option Z) :
  let name := fst (getBSDFtype bsdf flags) in
  (name = "Pure_Lambertian"%string <-> first_func bsdf = None)
  /\ (name_in matrix_names name = true <-> first_func bsdf = Some SDhandleMtx)
  /\ (name_in tree_names name = true <-> first_func bsdf = Some SDhandleTre)
  /\ (name = "Unknown"%string <-> first_func bsdf = Some SDhandleOther).
Proof.
  destruct flags as [f0|];
    classify bsdf; cbn; repeat split; intros; try reflexivity; try discriminate.
Qed.

(** ** The Lambertian summary with a zero y chromaticity *)

Lemma ddiv_by_zero (x : double) (s : bool) : is_finite (ddiv x (S754_zero s)) = false.
Proof. destruct x as [sx|sx| |sx mx ex]; reflexivity. Qed.

(** X4: with a chromaticity whose y is zero, the first and the third
    percentage of the summary are the result of a division by zero, an
    infinity or a NaN and never a number, whatever Y and x are; the
    second percentage is 100 Y as always. *)
Theorem detailComponent_zero_cy (nm : string) (lamb : SDValue) (df : option SDSpectralDF)
        (s : bool) :
  cy (spec lamb) = S754_zero s ->
  exists X Z rest,
    detailComponent nm lamb df
    = ev_printf fmt_lambertian [arg_s nm; arg_f X; arg_f (dmul d100 (cieY lamb)); arg_f Z]
      :: rest
    /\ is_finite X = false /\ is_finite Z = false.
Proof.
  intros Hy. unfold detailComponent. rewrite Hy. cbn [double_of_float].
  do 3 eexists. split; [reflexivity|]. split; apply ddiv_by_zero.
Qed.

Lemma detailComponent_zero_cy_witness :
  cy (spec ex_lamb_zero_cy) = S754_zero false
  /\ exists X Z rest,
       detailComponent "Internal Refl" ex_lamb_zero_cy None
       = ev_printf fmt_lambertian
           [arg_s "Internal Refl"; arg_f X; arg_f (dmul d100 (cieY ex_lamb_zero_cy)); arg_f Z]
         :: rest
       /\ is_finite X = false /\ is_finite Z = false.
Proof.
  split; [reflexivity|].
  exact (detailComponent_zero_cy "Internal Refl" ex_lamb_zero_cy None false eq_refl).
Defined.

(** ** Relative errors that are NaN or zero *)

Lemma is_nan_eq (x : double) : is_nan x = true -> x = S754_nan.
Proof. destruct x; try discriminate; reflexivity. Qed.

(** A value above a threshold that is not negative is a NaN, +infinity
    or a positive number. *)
Lemma above_threshold_cases (FTINY v : double) :
  dle d0 FTINY = true -> dle v FTINY = false ->
  v = S754_nan \/ v = S754_infinity false \/ exists m e, v = S754_finite false m e.
Proof.
  intros H0 Hv.
  destruct v as [s|s| |s m e]; auto.
  - exfalso. revert H0 Hv. clear. float_cases.
  - destruct s; auto. exfalso. revert H0 Hv. clear. float_cases.
  - destruct s; eauto. exfalso. revert H0 Hv. clear. float_cases.
Qed.

Lemma relative_error_nan_forward (v r : double) :
  v = S754_nan \/ v = S754_infinity false -> relative_error v r = S754_nan.
Proof.
  intros [->| ->]; [reflexivity|].
  destruct r as [[]|[]| |[] m e]; reflexivity.
Qed.

Lemma relative_error_nan_reverse (v : double) : relative_error v S754_nan = S754_nan.
Proof. destruct v as [[]|[]| |[] m e]; reflexivity. Qed.

Lemma relative_error_nan (FTINY v r : double) :
  dle d0 FTINY = true -> dle v FTINY = false ->
  is_nan (relative_error v r) = negb (is_finite v) || is_nan r.
Proof.
  intros H0 Hv.
  destruct (is_finite v) eqn:Hf; cbn [negb orb].
  - destruct (is_nan r) eqn:Hr.
    + rewrite (is_nan_eq r Hr), relative_error_nan_reverse. reflexivity.
    + apply (relative_error_not_nan FTINY); assumption.
  - destruct (above_threshold_cases FTINY v H0 Hv) as [H|[H|(m & e & H)]].
    + rewrite relative_error_nan_forward; auto.
    + rewrite relative_error_nan_forward; auto.
    + subst v. discriminate.
Qed.

Lemma dsub_diag (m : positive) (e : Z) :
  dsub (S754_finite false m e) (S754_finite false m e) = d0.
Proof. unfold dsub, SFsub. cbn [cond_Zopp]. rewrite Z.sub_diag. reflexivity. Qed.

Lemma relative_error_diag (FTINY v : double) :
  dle d0 FTINY = true -> dle v FTINY = false -> is_finite v = true ->
  relative_error v v = d0.
Proof.
  intros H0 Hv Hf.
  destruct (above_threshold_cases FTINY v H0 Hv) as [->|[->|(m & e & ->)]];
    try discriminate.
  unfold relative_error. rewrite dsub_diag. reflexivity.
Qed.

(** ** Statistics over errors with NaN or zero entries *)

Lemma running_min_numbers (l : list double) :
  forall a, running_min a l = running_min a (filter not_nan l).
Proof.
  induction l as [|x l IH]; intros a; [reflexivity|].
  cbn [filter]. destruct x as [s|s| |s m e]; cbn [not_nan is_nan negb];
    cbn [running_min fold_left]; apply IH.
Qed.

Lemma running_max_numbers (l : list double) :
  forall a, running_max a l = running_max a (filter not_nan l).
Proof.
  induction l as [|x l IH]; intros a; [reflexivity|].
  cbn [filter]. destruct x as [s|s| |s m e]; cbn [not_nan is_nan negb];
    cbn [running_max fold_left]; try apply IH.
  replace (higher a S754_nan) with a; [apply IH|].
  unfold higher, dlt, SFltb. destruct a; reflexivity.
Qed.

Lemma dadd_nan_r (x : double) : dadd x S754_nan = S754_nan.
Proof. destruct x; reflexivity. Qed.

Lemma sum_from_nan (l : list double) : fold_left dadd l S754_nan = S754_nan.
Proof. induction l as [|x l IH]; [reflexivity|exact IH]. Qed.

Lemma sum_with_nan (l : list double) :
  forall a, existsb is_nan l = true -> fold_left dadd l a = S754_nan.
Proof.
  induction l as [|x l IH]; intros a H; [discriminate|].
  cbn [existsb] in H. cbn [fold_left].
  destruct (is_nan x) eqn:Hx.
  - rewrite (is_nan_eq x Hx), dadd_nan_r. apply sum_from_nan.
  - apply IH. exact H.
Qed.

Lemma mean_with_nan (l : list double) :
  existsb is_nan l = true -> mean_error l = S754_nan.
Proof.
  intros H. unfold mean_error, sum_errors. rewrite (sum_with_nan l d0 H). reflexivity.
Qed.

Lemma running_min_zeros (a : double) (l : list double) :
  Forall (fun e => e = d0) l -> dlt d0 a = true \/ a = d0 ->
  l <> [] -> running_min a l = d0.
Proof.
  intros HF. revert a. induction HF as [|x l -> HF IH]; intros a Ha Hne; [congruence|].
  cbn [running_min fold_left].
  assert (Hl : lower a d0 = d0).
  { unfold lower. destruct Ha as [->| ->]; reflexivity. }
  rewrite Hl. destruct l as [|y l']; [reflexivity|].
  apply IH; [right; reflexivity|discriminate].
Qed.

Lemma running_max_zeros (l : list double) :
  Forall (fun e => e = d0) l -> running_max d0 l = d0.
Proof. induction 1 as [|x l -> HF IH]; [reflexivity|exact IH]. Qed.

Lemma sum_zeros (l : list double) :
  Forall (fun e => e = d0) l -> fold_left dadd l d0 = d0.
Proof. induction 1 as [|x l -> HF IH]; [reflexivity|exact IH]. Qed.

(** ** Tested and evaluated pairs *)

Lemma length_evaluated_pairs (SDevalBSDF : FVECT -> FVECT -> SDData -> SDError * SDValue)
      (bsdf : SDData) (T : list tested) :
  (List.length (evaluated_pairs SDevalBSDF bsdf T) <= List.length T)%nat.
Proof.
  induction T as [|t T IH]; cbn [evaluated_pairs List.length]; [lia|].
  destruct (eval_fails SDevalBSDF bsdf t); cbn [List.length]; lia.
Qed.

Lemma first_failure_code (SDevalBSDF : FVECT -> FVECT -> SDData -> SDError * SDValue)
      (bsdf : SDData) (T : list tested) (ec : SDError) :
  first_failure SDevalBSDF bsdf T = Some ec -> ec <> SDEnone /\ T <> [].
Proof.
  induction T as [|t T IH]; cbn [first_failure]; [discriminate|].
  destruct (eval_fails SDevalBSDF bsdf t) eqn:Ht.
  - intros [= <-]. split; [|discriminate].
    unfold eval_fails in Ht. apply negb_true_iff, Z.eqb_neq in Ht. exact Ht.
  - intros H. split; [apply IH, H|discriminate].
Qed.

Lemma evaluated_pairs_nonempty (SDevalBSDF : FVECT -> FVECT -> SDData -> SDError * SDValue)
      (bsdf : SDData) (T : list tested) :
  T <> [] -> evaluated_pairs SDevalBSDF bsdf T <> [].
Proof. destruct T; [congruence|discriminate]. Qed.

Lemma bin_pairs_range (m : SDMat) (i o : Z) :
  In (i, o) (bin_pairs m) -> 0 <= i < ninc m /\ 0 <= o < nout m.
Proof.
  unfold bin_pairs. intros H. apply in_flat_map in H. destruct H as (i' & Hi & H).
  apply in_map_iff in H. destruct H as (o' & [= <- <-] & Ho).
  apply In_countdown in Hi, Ho. lia.
Qed.

Lemma tested_pairs_none (FTINY : double) (m : SDMat) (order : list (Z * Z)) :
  (forall p, In p order -> test_of_pair FTINY m p = None) ->
  tested_pairs FTINY m order = [].
Proof.
  induction order as [|p order IH]; intros H; cbn [tested_pairs]; [reflexivity|].
  rewrite (H p (or_introl eq_refl)). apply IH. intros q Hq. apply H. right. exact Hq.
Qed.

Lemma loadable_count (FTINY : double) (m : SDMat) :
  loadable m ->
  Z.of_nat (List.length (tested_pairs FTINY m (bin_pairs m))) <= ninc m * nout m.
Proof.
  intros (Hi & Ho & _).
  pose proof (length_tested_pairs FTINY m (bin_pairs m)) as H.
  rewrite length_bin_pairs in H.
  apply Nat2Z.inj_le in H. rewrite Nat2Z.inj_mul, !Z2Nat.id in H by assumption. exact H.
Qed.

Lemma reverse_calls (T : list tested) :
  map reverse_call T = map call_event (map (fun t => (t_out t, t_in t)) T).
Proof. rewrite map_map. reflexivity. Qed.

(** ** More on the reciprocity check *)

Section MoreReciprocity.

Variables FTINY FHUGE : double.
Variable SDevalBSDF : FVECT -> FVECT -> SDData -> SDError * SDValue.

(** The matrix branch, as the check over the bin pairs. *)
Lemma checkReciprocity_flagged (nm : string) (side1 side2 : Z) (bsdf : SDData) (fl : Z)
      (df : SDSpectralDF) :
  operative_slot side1 side2 bsdf = Some df ->
  checkReciprocity FTINY FHUGE SDevalBSDF nm side1 side2 bsdf fl =
  if has_flag fl F_MATRIX
  then check_in_order FTINY FHUGE SDevalBSDF nm (as_SDMat (dist (comp_0 df))) bsdf
                      (bin_pairs (as_SDMat (dist (comp_0 df))))
  else print_nothing2do nm.
Proof.
  intros Hdf. rewrite checkReciprocity_slot, Hdf.
  destruct (has_flag fl F_MATRIX); [|reflexivity].
  rewrite sample_matrix_visit. reflexivity.
Qed.

Lemma checkReciprocity_no_matrix_flag (nm : string) (side1 side2 : Z) (bsdf : SDData)
      (fl : Z) :
  has_flag fl F_MATRIX = false ->
  checkReciprocity FTINY FHUGE SDevalBSDF nm side1 side2 bsdf fl = print_nothing2do nm.
Proof.
  intros Hfl. rewrite checkReciprocity_slot, Hfl.
  destruct (operative_slot side1 side2 bsdf); reflexivity.
Qed.

(** X5: whatever the arguments, a call of the check is a run of
    evaluator calls closed by exactly one more event: the line of zeros,
    and then no call was made; or one statistic line after at least one
    call; or, after at least one call, the diagnostic of a failed
    evaluation with a nonzero code and no line on the standard
    output. *)
Theorem checkReciprocity_closing_event (nm : string) (side1 side2 : Z)
        (bsdf : SDData) (fl : Z) :
  (forall df, operative_slot side1 side2 bsdf = Some df ->
              loadable (as_SDMat (dist (comp_0 df)))) ->
  exists calls last,
    checkReciprocity FTINY FHUGE SDevalBSDF nm side1 side2 bsdf fl
    = map call_event calls ++ [last]
    /\ ((last = ev_printf fmt_nothing2do [arg_s nm] /\ calls = [])
        \/ (exists a b c,
               last = ev_printf fmt_errors [arg_s nm; arg_f a; arg_f b; arg_f c]
               /\ calls <> [])
        \/ (exists ec, last = ev_stderr ec /\ ec <> SDEnone /\ calls <> [])).
Proof.
  intros _.
  destruct (operative_slot side1 side2 bsdf) as [df|] eqn:Hdf;
    [|rewrite checkReciprocity_slot, Hdf;
      exists [], (ev_printf fmt_nothing2do [arg_s nm]); split; [reflexivity|auto]].
  rewrite (checkReciprocity_flagged nm side1 side2 bsdf fl df Hdf).
  destruct (has_flag fl F_MATRIX);
    [|exists [], (ev_printf fmt_nothing2do [arg_s nm]); split; [reflexivity|auto]].
  set (m := as_SDMat (dist (comp_0 df))).
  rewrite check_in_order_spec.
  set (T := tested_pairs FTINY m (bin_pairs m)).
  destruct (first_failure SDevalBSDF bsdf T) as [ec|] eqn:Hff.
  - destruct (first_failure_code _ _ _ _ Hff) as [Hec HT].
    eexists _, _. split; [rewrite reverse_calls; reflexivity|].
    right; right. exists ec. split; [reflexivity|split; [exact Hec|]].
    intros H. apply map_eq_nil in H.
    exact (evaluated_pairs_nonempty SDevalBSDF bsdf T HT H).
  - destruct T as [|t T'] eqn:HT.
    + exists [], (ev_printf fmt_nothing2do [arg_s nm]). split; [reflexivity|auto].
    + eexists _, _. split; [rewrite reverse_calls; reflexivity|].
      right; left. do 3 eexists. split; [reflexivity|discriminate].
Qed.

(** X6: the check calls the evaluator at most ninc x nout times, the
    number of bin pairs of the matrix it samples. *)
Theorem checkReciprocity_call_bound (nm : string) (side1 side2 : Z)
        (bsdf : SDData) (fl : Z) (df : SDSpectralDF) :
  operative_slot side1 side2 bsdf = Some df ->
  let m := as_SDMat (dist (comp_0 df)) in
  loadable m ->
  Z.of_nat (List.length
              (evaluator_calls
                 (checkReciprocity FTINY FHUGE SDevalBSDF nm side1 side2 bsdf fl)))
  <= ninc m * nout m.
Proof.
  intros Hdf m Hm. rewrite (checkReciprocity_flagged nm side1 side2 bsdf fl df Hdf).
  destruct (has_flag fl F_MATRIX);
    [|destruct Hm as (? & ? & _); cbn; nia].
  fold m. rewrite check_in_order_spec.
  pose proof (loadable_count FTINY m Hm) as Hc.
  set (T := tested_pairs FTINY m (bin_pairs m)) in *.
  destruct (first_failure SDevalBSDF bsdf T).
  - rewrite evaluator_calls_app, evaluator_calls_calls, length_app, length_map.
    cbn [evaluator_calls List.length].
    pose proof (length_evaluated_pairs SDevalBSDF bsdf T). lia.
  - rewrite evaluator_calls_app, evaluator_calls_calls, length_app, length_map.
    destruct T; cbn [evaluator_calls List.length print_nothing2do statistics_line] in *; lia.
Qed.

(** X7: when every entry of the matrix compares as at most the
    threshold (so that none is a NaN), as in a matrix of zeros or in one
    without rows or columns, the check calls nothing and prints the line
    of zeros. *)
Theorem checkReciprocity_nothing_above_threshold (nm : string) (side1 side2 : Z)
        (bsdf : SDData) (fl : Z) (df : SDSpectralDF) :
  operative_slot side1 side2 bsdf = Some df ->
  let m := as_SDMat (dist (comp_0 df)) in
  loadable m ->
  (forall i o, 0 <= i < ninc m -> 0 <= o < nout m ->
               dle (mBSDF_value m o i) FTINY = true) ->
  checkReciprocity FTINY FHUGE SDevalBSDF nm side1 side2 bsdf fl = print_nothing2do nm.
Proof.
  intros Hdf m _ Hv. rewrite (checkReciprocity_flagged nm side1 side2 bsdf fl df Hdf).
  destruct (has_flag fl F_MATRIX); [|reflexivity].
  fold m. rewrite check_in_order_spec.
  rewrite tested_pairs_none; [reflexivity|].
  intros [i o] Hp. apply bin_pairs_range in Hp. destruct Hp as [Hi Ho].
  unfold test_of_pair.
  destruct (mBSDF_incvec m _); [|reflexivity].
  destruct (mBSDF_outvec m _); [|reflexivity].
  rewrite (Hv i o Hi Ho). reflexivity.
Qed.

(** X8: when at least one pair is tested, and every tested pair has a
    finite forward value and its reverse evaluation succeeds with that
    same value, the check prints the statistic with minimum, mean and
    maximum all +0 (FTINY not negative, FHUGE above zero). *)
Theorem checkReciprocity_reciprocal (nm : string) (side1 side2 : Z)
        (bsdf : SDData) (fl : Z) (df : SDSpectralDF) :
  dle d0 FTINY = true -> dlt d0 FHUGE = true ->
  operative_slot side1 side2 bsdf = Some df ->
  has_flag fl F_MATRIX = true ->
  let m := as_SDMat (dist (comp_0 df)) in
  loadable m ->
  let T := tested_pairs FTINY m (bin_pairs m) in
  T <> [] ->
  (forall t, In t T ->
             is_finite (t_forward t) = true
             /\ fst (reverse_eval SDevalBSDF bsdf t) = SDEnone
             /\ cieY (snd (reverse_eval SDevalBSDF bsdf t)) = t_forward t) ->
  checkReciprocity FTINY FHUGE SDevalBSDF nm side1 side2 bsdf fl
  = map reverse_call T
    ++ [ev_printf fmt_errors [arg_s nm; arg_f d0; arg_f d0; arg_f d0]].
Proof.
  intros H0 HH Hdf Hfl m Hm T HT Hrec.
  rewrite (checkReciprocity_flagged nm side1 side2 bsdf fl df Hdf), Hfl.
  fold m. rewrite check_in_order_spec. fold T.
  assert (Hff : first_failure SDevalBSDF bsdf T = None).
  { apply first_failure_none, Forall_forall. intros t Ht.
    destruct (Hrec t Ht) as (_ & He & _). unfold eval_fails. rewrite He. reflexivity. }
  rewrite Hff.
  assert (HE : Forall (fun e => e = d0) (map (error_of SDevalBSDF bsdf) T)).
  { apply Forall_forall. intros e He. apply in_map_iff in He.
    destruct He as (t & <- & Ht). destruct (Hrec t Ht) as (Hf & _ & Hr).
    unfold error_of. rewrite Hr.
    apply (relative_error_diag FTINY); auto.
    exact (tested_forward FTINY m (bin_pairs m) t Ht). }
  pose proof (loadable_count FTINY m Hm) as Hc. fold T in Hc.
  destruct T as [|t T'] eqn:HTe; [congruence|]. rewrite <- HTe in *.
  f_equal. unfold statistics_line, mean_error, sum_errors.
  rewrite running_min_zeros, running_max_zeros, sum_zeros; auto.
  - rewrite length_map.
    destruct (double_of_int_finite (Z.of_nat (List.length T))) as (mn & en & ->);
      [|reflexivity].
    destruct Hm as (_ & _ & Hlt). rewrite HTe in *. cbn [List.length] in *. lia.
  - rewrite HTe. discriminate.
Qed.

(** X9: the relative error that a successful reverse evaluation adds to
    the statistics is a NaN exactly when the forward value is not finite
    (a NaN forward value passes the threshold test, and so does
    +infinity) or the reverse value is a NaN. *)
Theorem reverse_test_nan (bsdf : SDData) (vin vout : FVECT) (v : double) (st : errstat) :
  dle d0 FTINY = true -> dle v FTINY = false ->
  fst (SDevalBSDF vout vin bsdf) = SDEnone ->
  exists e,
    reverse_test SDevalBSDF bsdf vin vout v st
    = ([ev_SDevalBSDF vout vin], Some (accumulate st e))
    /\ is_nan e = negb (is_finite v) || is_nan (cieY (snd (SDevalBSDF vout vin bsdf))).
Proof.
  intros H0 Hv Hec.
  pose proof (reverse_test_spec SDevalBSDF bsdf
                {| t_in := vin; t_out := vout; t_forward := v |} st) as H.
  cbn [t_in t_out t_forward] in H. unfold eval_fails, reverse_eval in H.
  cbn [t_in t_out] in H. rewrite Hec in H. cbn [Z.eqb SDEnone negb] in H.
  eexists. split; [exact H|].
  unfold error_of, reverse_eval. cbn [t_in t_out t_forward].
  apply (relative_error_nan FTINY); assumption.
Qed.

(** X10: when no evaluation fails and some relative error is a NaN, the
    mean printed is a NaN, while the minimum and the maximum printed are
    the running minimum from FHUGE and the running maximum from 0 over
    the errors that are not NaN: a NaN never enters them. *)
Theorem checkReciprocity_nan_errors (nm : string) (side1 side2 : Z)
        (bsdf : SDData) (fl : Z) (df : SDSpectralDF) :
  operative_slot side1 side2 bsdf = Some df ->
  has_flag fl F_MATRIX = true ->
  let m := as_SDMat (dist (comp_0 df)) in
  loadable m ->
  let T := tested_pairs FTINY m (bin_pairs m) in
  let E := map (error_of SDevalBSDF bsdf) T in
  first_failure SDevalBSDF bsdf T = None ->
  existsb is_nan E = true ->
  printed_errors (checkReciprocity FTINY FHUGE SDevalBSDF nm side1 side2 bsdf fl)
  = [(running_min FHUGE (filter not_nan E), S754_nan,
      running_max d0 (filter not_nan E))].
Proof.
  intros Hdf Hfl m _ T E Hff HE.
  rewrite (checkReciprocity_flagged nm side1 side2 bsdf fl df Hdf), Hfl.
  fold m. rewrite printed_check_in_order. fold T. fold E. rewrite Hff.
  destruct T as [|t T'] eqn:HT; [discriminate HE|]. rewrite <- HT in *.
  rewrite (mean_with_nan E HE), <- running_min_numbers, <- running_max_numbers.
  reflexivity.
Qed.

(** X11: in every statistic that the check prints, the minimum is at
    most FHUGE, the start value of the running minimum, and the maximum
    is at least zero, whatever the relative errors are. *)
Theorem checkReciprocity_statistic_range (nm : string) (side1 side2 : Z)
        (bsdf : SDData) (fl : Z) :
  is_nan FHUGE = false ->
  (forall df, operative_slot side1 side2 bsdf = Some df ->
              loadable (as_SDMat (dist (comp_0 df)))) ->
  Forall (fun s => dle (fst (min_max s)) FHUGE = true /\ dle d0 (snd (min_max s)) = true)
         (printed_errors (checkReciprocity FTINY FHUGE SDevalBSDF nm side1 side2 bsdf fl)).
Proof.
  intros HH _.
  destruct (operative_slot side1 side2 bsdf) as [df|] eqn:Hdf;
    [|rewrite checkReciprocity_slot, Hdf; constructor].
  rewrite (checkReciprocity_flagged nm side1 side2 bsdf fl df Hdf).
  destruct (has_flag fl F_MATRIX); [|constructor].
  set (m := as_SDMat (dist (comp_0 df))).
  rewrite printed_check_in_order.
  destruct (first_failure _ _ _); [constructor|].
  destruct (tested_pairs FTINY m (bin_pairs m)) as [|t T']; constructor; [|constructor].
  cbn [min_max fst snd]. split.
  - exact (running_min_le_start (map (error_of SDevalBSDF bsdf) (t :: T')) FHUGE HH).
  - exact (running_max_ge_start (map (error_of SDevalBSDF bsdf) (t :: T')) d0 eq_refl).
Qed.

(** X18: when no evaluation fails, the statistic printed bounds every
    relative error that is not a NaN: the minimum is at most that error
    and the maximum at least, also when other errors are NaN. *)
Theorem checkReciprocity_bounds_errors (nm : string) (side1 side2 : Z)
        (bsdf : SDData) (fl : Z) (df : SDSpectralDF) (t : tested) :
  is_nan FHUGE = false ->
  operative_slot side1 side2 bsdf = Some df ->
  has_flag fl F_MATRIX = true ->
  let m := as_SDMat (dist (comp_0 df)) in
  loadable m ->
  let T := tested_pairs FTINY m (bin_pairs m) in
  first_failure SDevalBSDF bsdf T = None ->
  In t T ->
  is_nan (error_of SDevalBSDF bsdf t) = false ->
  exists lo avg hi,
    printed_errors (checkReciprocity FTINY FHUGE SDevalBSDF nm side1 side2 bsdf fl)
    = [(lo, avg, hi)]
    /\ dle lo (error_of SDevalBSDF bsdf t) = true
    /\ dle (error_of SDevalBSDF bsdf t) hi = true.
Proof.
  intros HH Hdf Hfl m _ T Hff Ht He.
  rewrite (checkReciprocity_flagged nm side1 side2 bsdf fl df Hdf), Hfl.
  fold m. rewrite printed_check_in_order. fold T. rewrite Hff.
  assert (Hin : In (error_of SDevalBSDF bsdf t) (map (error_of SDevalBSDF bsdf) T))
    by (apply in_map, Ht).
  destruct T as [|t0 T'] eqn:HT; [contradiction|]. rewrite <- HT in *.
  do 3 eexists. split; [reflexivity|]. split.
  - exact (running_min_le (map (error_of SDevalBSDF bsdf) T) _ FHUGE HH He Hin).
  - exact (running_max_ge (map (error_of SDevalBSDF bsdf) T) _ d0 eq_refl He Hin).
Qed.

End MoreReciprocity.

(** *** On the worked instances *)

Lemma loadable_ex_front (m : SDMat) :
  loadable m ->
  forall df, operative_slot 1 1 (ex_front m) = Some df ->
             loadable (as_SDMat (dist (comp_0 df))).
Proof. intros Hm df H. injection H as <-. exact Hm. Defined.

(** The front reflection check of a 1 x 2 matrix of ones against an
    evaluator that gives 1.0. *)
Lemma checkReciprocity_closing_event_witness :
  (forall df, operative_slot 1 1 (ex_front (ex_ones 1 2)) = Some df ->
              loadable (as_SDMat (dist (comp_0 df))))
  /\ exists calls last,
       ex_check (ex_eval d1) (ex_ones 1 2) = map call_event calls ++ [last]
       /\ ((last = ev_printf fmt_nothing2do [arg_s "Front Refl"] /\ calls = [])
           \/ (exists a b c,
                  last = ev_printf fmt_errors [arg_s "Front Refl"; arg_f a; arg_f b; arg_f c]
                  /\ calls <> [])
           \/ (exists ec, last = ev_stderr ec /\ ec <> SDEnone /\ calls <> [])).
Proof.
  assert (H : forall df, operative_slot 1 1 (ex_front (ex_ones 1 2)) = Some df ->
                         loadable (as_SDMat (dist (comp_0 df))))
    by (apply loadable_ex_front, loadable_ex_matrix; lia).
  split; [exact H|].
  exact (checkReciprocity_closing_event Radiance_FTINY Radiance_FHUGE (ex_eval d1)
           "Front Refl" 1 1 (ex_front (ex_ones 1 2)) F_MATRIX H).
Defined.

(** A 2 x 3 matrix of ones: at most six calls. *)
Lemma checkReciprocity_call_bound_witness :
  operative_slot 1 1 (ex_front (ex_ones 2 3)) = Some (ex_matrix_comp (ex_ones 2 3))
  /\ loadable (ex_ones 2 3)
  /\ Z.of_nat (List.length (evaluator_calls (ex_check (ex_eval d1) (ex_ones 2 3)))) <= 2 * 3.
Proof.
  assert (H1 : operative_slot 1 1 (ex_front (ex_ones 2 3))
               = Some (ex_matrix_comp (ex_ones 2 3))) by reflexivity.
  assert (H2 : loadable (ex_ones 2 3)) by (apply loadable_ex_matrix; lia).
  split; [exact H1|split; [exact H2|]].
  exact (checkReciprocity_call_bound Radiance_FTINY Radiance_FHUGE (ex_eval d1)
           "Front Refl" 1 1 (ex_front (ex_ones 2 3)) F_MATRIX
           (ex_matrix_comp (ex_ones 2 3)) H1 H2).
Defined.

(** A 2 x 2 matrix of zeros. *)
Lemma checkReciprocity_nothing_above_threshold_witness :
  operative_slot 1 1 (ex_front (ex_zeros 2 2)) = Some (ex_matrix_comp (ex_zeros 2 2))
  /\ loadable (ex_zeros 2 2)
  /\ (forall i o, 0 <= i < 2 -> 0 <= o < 2 ->
                  dle (mBSDF_value (ex_zeros 2 2) o i) Radiance_FTINY = true)
  /\ ex_check (ex_eval d1) (ex_zeros 2 2) = print_nothing2do "Front Refl".
Proof.
  assert (H1 : operative_slot 1 1 (ex_front (ex_zeros 2 2))
               = Some (ex_matrix_comp (ex_zeros 2 2))) by reflexivity.
  assert (H2 : loadable (ex_zeros 2 2)) by (apply loadable_ex_matrix; lia).
  assert (H3 : forall i o, 0 <= i < 2 -> 0 <= o < 2 ->
                 dle (mBSDF_value (ex_zeros 2 2) o i) Radiance_FTINY = true)
    by (intros; reflexivity).
  split; [exact H1|split; [exact H2|split; [exact H3|]]].
  exact (checkReciprocity_nothing_above_threshold
           Radiance_FTINY Radiance_FHUGE (ex_eval d1) "Front Refl" 1 1
           (ex_front (ex_zeros 2 2)) F_MATRIX (ex_matrix_comp (ex_zeros 2 2)) H1 H2 H3).
Defined.

(** A 1 x 2 matrix of ones against an evaluator that gives 1.0. *)
Lemma checkReciprocity_reciprocal_witness :
  dle d0 Radiance_FTINY = true /\ dlt d0 Radiance_FHUGE = true
  /\ operative_slot 1 1 (ex_front (ex_ones 1 2)) = Some (ex_matrix_comp (ex_ones 1 2))
  /\ has_flag F_MATRIX F_MATRIX = true
  /\ loadable (ex_ones 1 2)
  /\ ex_tested (ex_ones 1 2) <> []
  /\ (forall t, In t (ex_tested (ex_ones 1 2)) ->
                is_finite (t_forward t) = true
                /\ fst (reverse_eval (ex_eval d1) (ex_front (ex_ones 1 2)) t) = SDEnone
                /\ cieY (snd (reverse_eval (ex_eval d1) (ex_front (ex_ones 1 2)) t))
                   = t_forward t)
  /\ ex_check (ex_eval d1) (ex_ones 1 2)
     = map reverse_call (ex_tested (ex_ones 1 2))
       ++ [ev_printf fmt_errors [arg_s "Front Refl"; arg_f d0; arg_f d0; arg_f d0]].
Proof.
  assert (H0 : dle d0 Radiance_FTINY = true) by reflexivity.
  assert (HH : dlt d0 Radiance_FHUGE = true) by reflexivity.
  assert (H1 : operative_slot 1 1 (ex_front (ex_ones 1 2))
               = Some (ex_matrix_comp (ex_ones 1 2))) by reflexivity.
  assert (H2 : has_flag F_MATRIX F_MATRIX = true) by reflexivity.
  assert (H3 : loadable (ex_ones 1 2)) by (apply loadable_ex_matrix; lia).
  assert (H4 : ex_tested (ex_ones 1 2) <> []) by (vm_compute; discriminate).
  assert (H5 : forall t, In t (ex_tested (ex_ones 1 2)) ->
                 is_finite (t_forward t) = true
                 /\ fst (reverse_eval (ex_eval d1) (ex_front (ex_ones 1 2)) t) = SDEnone
                 /\ cieY (snd (reverse_eval (ex_eval d1) (ex_front (ex_ones 1 2)) t))
                    = t_forward t).
  { intros t Ht. vm_compute in Ht.
    destruct Ht as [<-|[<-|[]]]; repeat split. }
  split; [exact H0|split; [exact HH|split; [exact H1|split; [exact H2|
    split; [exact H3|split; [exact H4|split; [exact H5|]]]]]]].
  exact (checkReciprocity_reciprocal Radiance_FTINY Radiance_FHUGE (ex_eval d1)
           "Front Refl" 1 1 (ex_front (ex_ones 1 2)) F_MATRIX
           (ex_matrix_comp (ex_ones 1 2)) H0 HH H1 H2 H3 H4 H5).
Defined.

(** A forward value of +infinity against a reverse value of 1.0. *)
Lemma reverse_test_nan_witness :
  dle d0 Radiance_FTINY = true
  /\ dle (S754_infinity false) Radiance_FTINY = false
  /\ fst (ex_eval d1 (d1, d0, d1) (d1, d0, d1) ex_lambertian) = SDEnone
  /\ exists e,
       reverse_test (ex_eval d1) ex_lambertian (d1, d0, d1) (d1, d0, d1)
                    (S754_infinity false) (errstat_init Radiance_FHUGE)
       = ([ev_SDevalBSDF (d1, d0, d1) (d1, d0, d1)],
          Some (accumulate (errstat_init Radiance_FHUGE) e))
       /\ is_nan e
          = negb (is_finite (S754_infinity false))
            || is_nan (cieY (snd (ex_eval d1 (d1, d0, d1) (d1, d0, d1) ex_lambertian))).
Proof.
  assert (H0 : dle d0 Radiance_FTINY = true) by reflexivity.
  assert (H1 : dle (S754_infinity false) Radiance_FTINY = false) by reflexivity.
  assert (H2 : fst (ex_eval d1 (d1, d0, d1) (d1, d0, d1) ex_lambertian) = SDEnone)
    by reflexivity.
  split; [exact H0|split; [exact H1|split; [exact H2|]]].
  exact (reverse_test_nan Radiance_FTINY (ex_eval d1) ex_lambertian (d1, d0, d1) (d1, d0, d1)
           (S754_infinity false) (errstat_init Radiance_FHUGE) H0 H1 H2).
Defined.

(** [ex_with_infinity] against a reverse value of 0.5: the error of the
    infinite entry is a NaN, the other error is 50; the line has 50, NaN
    and 50. *)
Lemma checkReciprocity_nan_errors_witness :
  operative_slot 1 1 (ex_front ex_with_infinity) = Some (ex_matrix_comp ex_with_infinity)
  /\ has_flag F_MATRIX F_MATRIX = true
  /\ loadable ex_with_infinity
  /\ first_failure (ex_eval d_half) (ex_front ex_with_infinity) (ex_tested ex_with_infinity)
     = None
  /\ existsb is_nan (ex_errors (ex_eval d_half) ex_with_infinity) = true
  /\ printed_errors (ex_check (ex_eval d_half) ex_with_infinity)
     = [(running_min Radiance_FHUGE
           (filter not_nan (ex_errors (ex_eval d_half) ex_with_infinity)),
         S754_nan,
         running_max d0 (filter not_nan (ex_errors (ex_eval d_half) ex_with_infinity)))]
  /\ filter not_nan (ex_errors (ex_eval d_half) ex_with_infinity) = [dlit 50 0].
Proof.
  assert (H1 : operative_slot 1 1 (ex_front ex_with_infinity)
               = Some (ex_matrix_comp ex_with_infinity)) by reflexivity.
  assert (H2 : has_flag F_MATRIX F_MATRIX = true) by reflexivity.
  assert (H3 : loadable ex_with_infinity) by (apply loadable_ex_matrix; lia).
  assert (H4 : first_failure (ex_eval d_half) (ex_front ex_with_infinity)
                             (ex_tested ex_with_infinity) = None) by reflexivity.
  assert (H5 : existsb is_nan (ex_errors (ex_eval d_half) ex_with_infinity) = true)
    by (vm_compute; reflexivity).
  split; [exact H1|split; [exact H2|split; [exact H3|split; [exact H4|split; [exact H5|]]]]].
  split; [|vm_compute; reflexivity].
  exact (checkReciprocity_nan_errors Radiance_FTINY Radiance_FHUGE (ex_eval d_half)
           "Front Refl" 1 1 (ex_front ex_with_infinity) F_MATRIX
           (ex_matrix_comp ex_with_infinity) H1 H2 H3 H4 H5).
Defined.

(** One pair of forward value 1.0 against a reverse value of 1e9: the
    minimum printed is FHUGE. *)
Lemma checkReciprocity_statistic_range_witness :
  is_nan Radiance_FHUGE = false
  /\ (forall df, operative_slot 1 1 (ex_front (ex_ones 1 1)) = Some df ->
                 loadable (as_SDMat (dist (comp_0 df))))
  /\ Forall (fun s => dle (fst (min_max s)) Radiance_FHUGE = true
                      /\ dle d0 (snd (min_max s)) = true)
            (printed_errors (ex_check (ex_eval d_1e9) (ex_ones 1 1)))
  /\ List.length (printed_errors (ex_check (ex_eval d_1e9) (ex_ones 1 1))) = 1%nat.
Proof.
  assert (H0 : is_nan Radiance_FHUGE = false) by reflexivity.
  assert (H : forall df, operative_slot 1 1 (ex_front (ex_ones 1 1)) = Some df ->
                         loadable (as_SDMat (dist (comp_0 df))))
    by (apply loadable_ex_front, loadable_ex_matrix; lia).
  split; [exact H0|split; [exact H|]].
  split; [|vm_compute; reflexivity].
  exact (checkReciprocity_statistic_range Radiance_FTINY Radiance_FHUGE (ex_eval d_1e9)
           "Front Refl" 1 1 (ex_front (ex_ones 1 1)) F_MATRIX H0 H).
Defined.

(** On [ex_with_infinity] against 0.5, the error 50 of the finite entry
    lies between the minimum and the maximum printed, though the other
    error is a NaN. *)
Lemma checkReciprocity_bounds_errors_witness :
  is_nan Radiance_FHUGE = false
  /\ operative_slot 1 1 (ex_front ex_with_infinity) = Some (ex_matrix_comp ex_with_infinity)
  /\ has_flag F_MATRIX F_MATRIX = true
  /\ loadable ex_with_infinity
  /\ first_failure (ex_eval d_half) (ex_front ex_with_infinity) (ex_tested ex_with_infinity)
     = None
  /\ In {| t_in := (dlit 1 (-1), d0, d1); t_out := (dlit 3 (-1), d0, d1); t_forward := d1 |}
        (ex_tested ex_with_infinity)
  /\ is_nan (error_of (ex_eval d_half) (ex_front ex_with_infinity)
                {| t_in := (dlit 1 (-1), d0, d1); t_out := (dlit 3 (-1), d0, d1);
                   t_forward := d1 |}) = false
  /\ exists lo avg hi,
       printed_errors (ex_check (ex_eval d_half) ex_with_infinity) = [(lo, avg, hi)]
       /\ dle lo (error_of (ex_eval d_half) (ex_front ex_with_infinity)
                    {| t_in := (dlit 1 (-1), d0, d1); t_out := (dlit 3 (-1), d0, d1);
                       t_forward := d1 |}) = true
       /\ dle (error_of (ex_eval d_half) (ex_front ex_with_infinity)
                    {| t_in := (dlit 1 (-1), d0, d1); t_out := (dlit 3 (-1), d0, d1);
                       t_forward := d1 |}) hi = true.
Proof.
  assert (H0 : is_nan Radiance_FHUGE = false) by reflexivity.
  assert (H1 : operative_slot 1 1 (ex_front ex_with_infinity)
               = Some (ex_matrix_comp ex_with_infinity)) by reflexivity.
  assert (H2 : has_flag F_MATRIX F_MATRIX = true) by reflexivity.
  assert (H3 : loadable ex_with_infinity) by (apply loadable_ex_matrix; lia).
  assert (H4 : first_failure (ex_eval d_half) (ex_front ex_with_infinity)
                             (ex_tested ex_with_infinity) = None) by reflexivity.
  assert (H5 : In {| t_in := (dlit 1 (-1), d0, d1); t_out := (dlit 3 (-1), d0, d1);
                     t_forward := d1 |} (ex_tested ex_with_infinity))
    by (vm_compute; auto).
  assert (H6 : is_nan (error_of (ex_eval d_half) (ex_front ex_with_infinity)
                         {| t_in := (dlit 1 (-1), d0, d1); t_out := (dlit 3 (-1), d0, d1);
                            t_forward := d1 |}) = false)
    by (vm_compute; reflexivity).
  split; [exact H0|split; [exact H1|split; [exact H2|split; [exact H3|
    split; [exact H4|split; [exact H5|split; [exact H6|]]]]]]].
  exact (checkReciprocity_bounds_errors Radiance_FTINY Radiance_FHUGE (ex_eval d_half)
           "Front Refl" 1 1 (ex_front ex_with_infinity) F_MATRIX
           (ex_matrix_comp ex_with_infinity) _ H0 H1 H2 H3 H4 H5 H6).
Defined.

(** ** checkXML and main *)

Lemma events_of_app (l1 l2 : list action) :
  events_of (l1 ++ l2) = events_of l1 ++ events_of l2.
Proof.
  induction l1 as [|a l1 IH]; [reflexivity|].
  destruct a; cbn [app events_of]; rewrite IH; reflexivity.
Qed.

Lemma events_of_events (l : list event) : events_of (map act_event l) = l.
Proof.
  induction l as [|e l IH]; [reflexivity|]. cbn [map events_of]. rewrite IH. reflexivity.
Qed.

Lemma cleared_files_app (l1 l2 : list action) :
  cleared_files (l1 ++ l2) = cleared_files l1 ++ cleared_files l2.
Proof.
  induction l1 as [|a l1 IH]; [reflexivity|].
  destruct a; cbn [app cleared_files]; rewrite IH; reflexivity.
Qed.

Lemma cleared_files_events (l : list event) : cleared_files (map act_event l) = [].
Proof. induction l as [|e l IH]; [reflexivity|exact IH]. Qed.

Lemma count_free_app (l1 l2 : list action) :
  count_free (l1 ++ l2) = (count_free l1 + count_free l2)%nat.
Proof.
  induction l1 as [|a l1 IH]; [reflexivity|].
  destruct a; cbn [app count_free]; rewrite IH; reflexivity.
Qed.

Lemma count_free_events (l : list event) : count_free (map act_event l) = O.
Proof. induction l as [|e l IH]; [reflexivity|exact IH]. Qed.

Lemma count_separators_app (l1 l2 : list action) :
  count_separators (l1 ++ l2) = (count_separators l1 + count_separators l2)%nat.
Proof.
  induction l1 as [|a l1 IH]; [reflexivity|].
  destruct a; cbn [app count_separators]; try exact IH.
  destruct (String.eqb s txt_separator); rewrite IH; reflexivity.
Qed.

Lemma count_separators_events (l : list event) : count_separators (map act_event l) = O.
Proof. induction l as [|e l IH]; [reflexivity|exact IH]. Qed.

Lemma evaluator_calls_detailComponent (nm : string) (lamb : SDValue)
      (df : option SDSpectralDF) :
  evaluator_calls (detailComponent nm lamb df) = [].
Proof. destruct df; reflexivity. Qed.

Section MoreCheckXML.

Variables FTINY FHUGE : double.
Variable SDevalBSDF : FVECT -> FVECT -> SDData -> SDError * SDValue.
Variable getpath : string -> option string.
Variable SDloadFile : string -> string -> SDError * SDLoaded.
Variable flags_uninit : Z.

Lemma report_loaded_counts (file : SDLoaded) :
  cleared_files (report_loaded FTINY FHUGE SDevalBSDF flags_uninit file) = []
  /\ count_free (report_loaded FTINY FHUGE SDevalBSDF flags_uninit file) = O
  /\ count_separators (report_loaded FTINY FHUGE SDevalBSDF flags_uninit file) = O.
Proof.
  unfold report_loaded. destruct (dim file) as [[d_0 d_1] d_2].
  rewrite !cleared_files_app, !count_free_app, !count_separators_app,
    !cleared_files_events, !count_free_events, !count_separators_events.
  repeat split.
Qed.

Lemma checkXML_result (fname : string) :
  snd (checkXML FTINY FHUGE SDevalBSDF getpath SDloadFile flags_uninit fname)
  = int_of_bool (loads getpath SDloadFile fname).
Proof.
  unfold checkXML, loads, SDEnone. destruct (getpath fname) as [pth|]; [|reflexivity].
  destruct (SDloadFile fname pth) as [ec file]. cbn [fst].
  destruct (ec =? 0); reflexivity.
Qed.

Lemma checkXML_counts (fname : string) :
  let out := fst (checkXML FTINY FHUGE SDevalBSDF getpath SDloadFile flags_uninit fname) in
  cleared_files out = [fname]
  /\ count_free out = (if is_Some (getpath fname) then 1 else 0)%nat
  /\ count_separators out = O.
Proof.
  unfold checkXML. destruct (getpath fname) as [pth|]; [|repeat split].
  destruct (SDloadFile fname pth) as [ec file].
  destruct (report_loaded_counts file) as (H1 & H2 & H3).
  destruct (ec =? 0); cbn [fst is_Some];
    rewrite !cleared_files_app, !count_free_app, !count_separators_app,
      ?cleared_files_events, ?count_free_events, ?count_separators_events, ?H1, ?H2, ?H3;
    repeat split.
Qed.

(** X12: [checkXML] returns 1 exactly when the file is found and loads
    without error, and 0 otherwise: a failed evaluation in a reciprocity
    check does not change the value.  The dataset is cleared once, for
    the name given.  It is freed exactly once, as the last action, when
    the file was found, whether or not it loaded, and never when the
    file was not found. *)
Theorem checkXML_status_and_release (fname : string) :
  let out := fst (checkXML FTINY FHUGE SDevalBSDF getpath SDloadFile flags_uninit fname) in
  let r := snd (checkXML FTINY FHUGE SDevalBSDF getpath SDloadFile flags_uninit fname) in
  r = int_of_bool (loads getpath SDloadFile fname)
  /\ cleared_files out = [fname]
  /\ match getpath fname with
     | Some _ => count_free out = 1%nat /\ exists pre, out = pre ++ [act_SDfreeBSDF]
     | None => count_free out = O
     end.
Proof.
  cbn zeta. split; [apply checkXML_result|].
  destruct (checkXML_counts fname) as (H1 & H2 & _).
  split; [exact H1|].
  revert H2. unfold checkXML. destruct (getpath fname) as [pth|]; [|auto].
  destruct (SDloadFile fname pth) as [ec file].
  destruct (ec =? 0); cbn [fst is_Some]; intros H2; (split; [exact H2|]).
  - eexists. rewrite !app_assoc. reflexivity.
  - eexists. rewrite !app_assoc. reflexivity.
Qed.

(** X13: the [int flags] of [checkXML] is not initialised, and nothing
    that the function prints, calls or returns depends on the value it
    holds at first. *)
Theorem checkXML_uninitialised_flags (f1 f2 : Z) (fname : string) :
  checkXML FTINY FHUGE SDevalBSDF getpath SDloadFile f1 fname
  = checkXML FTINY FHUGE SDevalBSDF getpath SDloadFile f2 fname.
Proof.
  unfold checkXML. destruct (getpath fname) as [pth|]; [|reflexivity].
  destruct (SDloadFile fname pth) as [ec file].
  destruct (ec =? 0); [|reflexivity].
  unfold report_loaded. destruct (dim file) as [[d_0 d_1] d_2].
  rewrite (getBSDFtype_initial_flags (sd file) f1 f2).
  destruct (getBSDFtype_flags_written (sd file) f2) as (fl & -> & _).
  reflexivity.
Qed.

(** X14: for a loaded dataset whose first slot present (in the order tb,
    tf, rf, rb) does not start with a matrix component, a tensor tree
    for one, [checkXML] never calls the evaluator, and its three
    reciprocity lines are the lines of zeros, followed by the release of
    the dataset. *)
Theorem checkXML_without_matrix (fname pth : string) (file : SDLoaded) :
  getpath fname = Some pth ->
  SDloadFile fname pth = (SDEnone, file) ->
  first_func (sd file) <> Some SDhandleMtx ->
  let out := fst (checkXML FTINY FHUGE SDevalBSDF getpath SDloadFile flags_uninit fname) in
  evaluator_calls (events_of out) = []
  /\ exists pre,
       out = pre ++ map act_event (print_nothing2do "Front Refl"
                                   ++ print_nothing2do "Back Refl"
                                   ++ print_nothing2do "Transmission")
                 ++ [act_SDfreeBSDF].
Proof.
  intros Hp Hl Hf. unfold checkXML. rewrite Hp, Hl. cbn [Z.eqb SDEnone fst].
  unfold report_loaded. destruct (dim file) as [[d_0 d_1] d_2].
  destruct (getBSDFtype_flags_written (sd file) flags_uninit) as (fl & -> & Hm & _).
  assert (Hfl : has_flag fl F_MATRIX = false).
  { rewrite Hm. destruct (first_func (sd file)) as [[]|]; congruence. }
  rewrite !(checkReciprocity_no_matrix_flag _ _ _ _ _ _ _ _ Hfl).
  split.
  - rewrite !events_of_app, !events_of_events, !evaluator_calls_app,
      !evaluator_calls_detailComponent. reflexivity.
  - eexists. rewrite !map_app, !app_assoc. reflexivity.
Qed.

(** X15: for a loaded dataset, the seventh action of [checkXML] prints
    the type name of the classifier and the eighth prints the colour as
    1 exactly when the first slot present has colour data (the chroma
    of its matrix, or the second tree of its tensor tree), and as 0
    otherwise. *)
Theorem checkXML_type_and_color (fname pth : string) (file : SDLoaded) :
  getpath fname = Some pth ->
  SDloadFile fname pth = (SDEnone, file) ->
  let out := fst (checkXML FTINY FHUGE SDevalBSDF getpath SDloadFile flags_uninit fname) in
  nth_error out 6 = Some (act_printf fmt_type [xarg_s (fst (getBSDFtype (sd file) None))])
  /\ nth_error out 7
     = Some (act_printf fmt_color [xarg_d (int_of_bool (in_color (sd file)))]).
Proof.
  intros Hp Hl. unfold checkXML. rewrite Hp, Hl. cbn [Z.eqb SDEnone fst].
  unfold report_loaded. destruct (dim file) as [[d_0 d_1] d_2].
  destruct (getBSDFtype_flags_written (sd file) flags_uninit) as (fl & Hs & _ & Hc).
  rewrite Hs. unfold has_flag in Hc. rewrite Hc.
  cbn [app nth_error]. split; [|reflexivity].
  do 3 f_equal. clear. classify (sd file); reflexivity.
Qed.

(** The loop of [main], by the files that load. *)
Lemma main_loop_spec (files : list string) :
  let r := main_loop FTINY FHUGE SDevalBSDF getpath SDloadFile flags_uninit files in
  snd r = int_of_bool (negb (forallb (loads getpath SDloadFile) files))
  /\ cleared_files (fst r) = up_to_first_failure getpath SDloadFile files
  /\ count_separators (fst r)
     = List.length (up_to_first_failure getpath SDloadFile files)
  /\ count_free (fst r)
     = List.length (filter (fun f => is_Some (getpath f))
                           (up_to_first_failure getpath SDloadFile files)).
Proof.
  induction files as [|f files IH]; [repeat split|].
  cbn [main_loop forallb up_to_first_failure].
  pose proof (checkXML_result f) as Hr.
  destruct (checkXML_counts f) as (Hc & Hf & Hs).
  destruct (checkXML FTINY FHUGE SDevalBSDF getpath SDloadFile flags_uninit f) as [out ok].
  cbn [fst snd] in *. subst ok.
  destruct (main_loop FTINY FHUGE SDevalBSDF getpath SDloadFile flags_uninit files)
    as [out' r'].
  cbn [fst snd] in IH. destruct IH as (IH1 & IH2 & IH3 & IH4).
  assert (Hsep : String.eqb txt_separator txt_separator = true) by reflexivity.
  destruct (loads getpath SDloadFile f) eqn:Hl; cbn [int_of_bool Z.eqb andb negb fst snd].
  - cbn [cleared_files count_separators count_free filter].
    rewrite Hsep, cleared_files_app, count_separators_app, count_free_app,
      Hc, Hf, Hs, IH1, IH2, IH3, IH4.
    unfold loads in Hl. destruct (getpath f); [|discriminate].
    repeat split.
  - cbn [cleared_files count_separators count_free filter].
    rewrite Hsep, Hc, Hf, Hs.
    destruct (getpath f); repeat split.
Qed.

(** X16: [main] returns 0 exactly when it is given at least one file
    name and every file named is found and loads; it returns 1
    otherwise, and no other value. *)
Theorem main_status (argv : list string) :
  snd (main FTINY FHUGE SDevalBSDF getpath SDloadFile flags_uninit argv)
  = if (2 <=? Z.of_nat (List.length argv))
       && forallb (loads getpath SDloadFile) (tl argv)
    then 0 else 1.
Proof.
  unfold main. destruct (Z.ltb_spec (Z.of_nat (List.length argv)) 2) as [H|H].
  - replace (2 <=? Z.of_nat (List.length argv)) with false
      by (symmetry; apply Z.leb_gt; exact H).
    reflexivity.
  - replace (2 <=? Z.of_nat (List.length argv)) with true
      by (symmetry; apply Z.leb_le; exact H).
    destruct (main_loop_spec (tl argv)) as (-> & _).
    cbn [andb]. destruct (forallb _ _); reflexivity.
Qed.

(** X17: [main] goes through the files named in order and stops after
    the first that is not found or does not load: the datasets cleared
    are those of the files up to and including that one, one separator
    line is put for each of them, and one dataset is freed for each of
    them that was found.  With no file name nothing is cleared, put or
    freed. *)
Theorem main_files (argv : list string) :
  let out := fst (main FTINY FHUGE SDevalBSDF getpath SDloadFile flags_uninit argv) in
  let done := up_to_first_failure getpath SDloadFile (tl argv) in
  cleared_files out = done
  /\ count_separators out = List.length done
  /\ count_free out = List.length (filter (fun f => is_Some (getpath f)) done).
Proof.
  cbn zeta. unfold main.
  destruct (Z.ltb_spec (Z.of_nat (List.length argv)) 2) as [H|H].
  - destruct argv as [|a [|b argv]]; cbn [List.length] in H; try lia; repeat split.
  - destruct (main_loop_spec (tl argv)) as (_ & H1 & H2 & H3). auto.
Qed.

End MoreCheckXML.

(** *** On the worked instances *)

(** "tree.xml": a tensor tree in front reflection. *)
Lemma checkXML_without_matrix_witness :
  ex_getpath "tree.xml" = Some "/lib/tree.xml"%string
  /\ ex_SDloadFile "tree.xml" "/lib/tree.xml" = (SDEnone, ex_loaded (ex_front_tree 3))
  /\ first_func (sd (ex_loaded (ex_front_tree 3))) <> Some SDhandleMtx
  /\ evaluator_calls (events_of (fst (ex_checkXML "tree.xml"))) = []
  /\ exists pre,
       fst (ex_checkXML "tree.xml")
       = pre ++ map act_event (print_nothing2do "Front Refl"
                               ++ print_nothing2do "Back Refl"
                               ++ print_nothing2do "Transmission")
             ++ [act_SDfreeBSDF].
Proof.
  assert (H1 : ex_getpath "tree.xml" = Some "/lib/tree.xml"%string) by reflexivity.
  assert (H2 : ex_SDloadFile "tree.xml" "/lib/tree.xml"
               = (SDEnone, ex_loaded (ex_front_tree 3))) by reflexivity.
  assert (H3 : first_func (sd (ex_loaded (ex_front_tree 3))) <> Some SDhandleMtx)
    by (cbn; discriminate).
  split; [exact H1|split; [exact H2|split; [exact H3|]]].
  exact (checkXML_without_matrix Radiance_FTINY Radiance_FHUGE (ex_eval d1)
           ex_getpath ex_SDloadFile 0 "tree.xml" "/lib/tree.xml"
           (ex_loaded (ex_front_tree 3)) H1 H2 H3).
Defined.

(** "tree.xml" is reported as an isotropic tensor tree without colour. *)
Lemma checkXML_type_and_color_witness :
  ex_getpath "tree.xml" = Some "/lib/tree.xml"%string
  /\ ex_SDloadFile "tree.xml" "/lib/tree.xml" = (SDEnone, ex_loaded (ex_front_tree 3))
  /\ nth_error (fst (ex_checkXML "tree.xml")) 6
     = Some (act_printf fmt_type [xarg_s "Isotropic_Tensor_Tree"])
  /\ nth_error (fst (ex_checkXML "tree.xml")) 7 = Some (act_printf fmt_color [xarg_d 0]).
Proof.
  assert (H1 : ex_getpath "tree.xml" = Some "/lib/tree.xml"%string) by reflexivity.
  assert (H2 : ex_SDloadFile "tree.xml" "/lib/tree.xml"
               = (SDEnone, ex_loaded (ex_front_tree 3))) by reflexivity.
  split; [exact H1|split; [exact H2|]].
  exact (checkXML_type_and_color Radiance_FTINY Radiance_FHUGE (ex_eval d1)
           ex_getpath ex_SDloadFile 0 "tree.xml" "/lib/tree.xml"
           (ex_loaded (ex_front_tree 3)) H1 H2).
Defined.

(** A run on the four names of [ex_argv], of which the third does not
    load: the fourth is
    never looked at, three separator lines are put, three datasets are
    freed, and the value returned is 1.  With a missing file nothing is
    freed for it. *)
Example main_stops_at_first_failure :
  cleared_files (fst (ex_main ex_argv))
  = ["a.xml"; "tree.xml"; "broken.xml"]%string
  /\ count_separators
       (fst (ex_main ex_argv)) = 3%nat
  /\ count_free (fst (ex_main ex_argv))
     = 3%nat
  /\ snd (ex_main ex_argv) = 1
  /\ ex_main ["checkBSDF"; "missing.xml"; "a.xml"]%string
     = ([act_puts txt_separator;
         act_printf fmt_file [xarg_s "missing.xml"];
         act_SDclearBSDF "missing.xml";
         act_fprintf_stderr fmt_cannot_find [xarg_s "missing.xml"]], 1)
  /\ ex_main ["checkBSDF"%string] = ([act_fprintf_stderr fmt_usage [xarg_s "checkBSDF"]], 1)
  /\ snd (ex_main ["checkBSDF"; "a.xml"; "tree.xml"]%string) = 0.
Proof. vm_compute. repeat split. Qed.
